(** * deej: configuration store and serial rotary-encoder session

    A shallow embedding of [pkg/deej/config.go] (the [ConfigManager]) and of
    the serial session's [handleLine] with the globals it threads, followed
    by the properties of the device-input pipeline.

    Conventions of the embedding:
    - [float32] values are IEEE 754 binary32 numbers ([spec_float] at
      precision 24, exponent bound 128), with Go's arithmetic and
      comparisons on them;
    - a Go [map] is a [gmap]; the nil map is [None];
    - the [*Config] pointer of the manager is an [option]; [None] is nil;
    - a run-time panic (nil dereference, write to a nil map, index out of
      range) is an explicit outcome;
    - sends on the subscribers' channels and write-backs into the manager
      are recorded, in program order, in a trace;
    - loggers, the mutex and the stop channels carry no data the
      properties depend on and are left out. *)

From Stdlib Require Import ZArith String Ascii List Bool Lia.
From Stdlib Require Import SpecFloat.
From stdpp Require Import gmap strings list pretty.

#[local] Set Warnings "-register-all".
Local Open Scope string_scope.
Local Open Scope Z_scope.

(** ** float32 *)

Module F32.

Definition prec : Z := 24.
Definition emax : Z := 128.

Definition float32 := spec_float.

Definition add : float32 -> float32 -> float32 := SFadd prec emax.
Definition sub : float32 -> float32 -> float32 := SFsub prec emax.
Definition div : float32 -> float32 -> float32 := SFdiv prec emax.
Definition ltb : float32 -> float32 -> bool := SFltb.
Definition leb : float32 -> float32 -> bool := SFleb.
Definition eqb : float32 -> float32 -> bool := SFeqb.
(** Go's [x != y]: true as soon as one side is a NaN. *)
Definition neqb (x y : float32) : bool := negb (SFeqb x y).
(** Go's [x > y]. *)
Definition gtb (x y : float32) : bool := SFltb y x.

Definition ofZ (z : Z) : float32 := binary_normalize prec emax z 0 false.

(** The float32 value of the decimal constant [n/d], correctly rounded:
    both integers are exact and the IEEE division rounds once. *)
Definition dec (n : Z) (d : positive) : float32 := div (ofZ n) (ofZ (Zpos d)).

Definition zero : float32 := S754_zero false.
Definition one : float32 := dec 1 1.
Definition hundredth : float32 := dec 1 100.

Definition valid (x : float32) : bool := valid_binary prec emax x.

(** [x] is a float32 of the closed interval from 0.0 to 1.0. *)
Definition inUnit (x : float32) : bool :=
  valid x && leb zero x && leb x one.

End F32.

Export F32(float32).

(** ** Data model ([config.go], lines 14-47) *)

Record SliderMapping := {
  Volume : float32;
  Muted : bool;
  Targets : list string
}.

(** The zero value [SliderMapping{}]. *)
Definition zeroSliderMapping : SliderMapping :=
  {| Volume := F32.zero; Muted := false; Targets := [] |}.

Definition withVolume (sm : SliderMapping) (v : float32) : SliderMapping :=
  {| Volume := v; Muted := Muted sm; Targets := Targets sm |}.

Record ConnectionInfo := {
  SerialPort : string;
  BaudRate : Z
}.

(** [Connection] is the field [ConnectionInfo] of the Go struct. *)
Record Config := {
  SliderMappings : option (gmap string SliderMapping);
  InvertSliders : bool;
  Connection : ConnectionInfo;
  NoiseReductionLevel : string;
  ConfigSaveInterval : Z
}.

Definition withSliderMappings (c : Config)
    (m : option (gmap string SliderMapping)) : Config :=
  {| SliderMappings := m;
     InvertSliders := InvertSliders c;
     Connection := Connection c;
     NoiseReductionLevel := NoiseReductionLevel c;
     ConfigSaveInterval := ConfigSaveInterval c |}.

(** [cmConfig] is the field [Config] of the Go struct; [notified] is what
    the [Notifier] has been asked to show, oldest first. *)
Record ConfigManager := {
  cmConfig : option Config;
  orderedSliderKeys : list string;
  configFilePath : string;
  configModified : bool;
  notified : list (string * string)
}.

Definition NewConfigManager (path : string) : ConfigManager :=
  {| cmConfig := None; orderedSliderKeys := []; configFilePath := path;
     configModified := false; notified := [] |}.

(** ** Errors and panics *)

Inductive error :=
| ErrConfigNotExist (path : string)
| ErrOpenConfig (cause : string)
| ErrDecodeConfig (causes : list string)
| ErrKeyNotFound (key : string)
| ErrInvalidIndex (index : Z)
| ErrNoKeys
| ErrIndexOutOfRange (index : Z)
| ErrNoMappings
| ErrMappingMissing (key : string).

Inductive panic := NilDereference | NilMapWrite | IndexOutOfRange.

Inductive outcome (A : Type) :=
| Ok (a : A)
| Panicked (p : panic).
Arguments Ok {A} a.
Arguments Panicked {A} p.

(** ** Go maps *)

(** [m[key]] with the comma-ok form: a nil map has no entries. *)
Definition mapGet {V} (m : option (gmap string V)) (key : string) : option V :=
  match m with
  | Some g => g !! key
  | None => None
  end.

(** [len(m)]. *)
Definition mapLen {V} (m : option (gmap string V)) : Z :=
  match m with
  | Some g => Z.of_nat (size g)
  | None => 0
  end.

(** The keys of [m], each once. *)
Definition mapKeys {V} (m : option (gmap string V)) : list string :=
  match m with
  | Some g => (map_to_list g).*1
  | None => []
  end.

(** [for key := range m] visits every key once, in an order the runtime
    picks anew each time.  The pick is the argument [seed]: the keys are
    inserted one by one at the positions the seed's mixed-radix digits
    name. *)
Fixpoint insertAt {A} (n : nat) (x : A) (l : list A) : list A :=
  match n, l with
  | O, _ => x :: l
  | S n', y :: l' => y :: insertAt n' x l'
  | S _, [] => [x]
  end.

Fixpoint shuffle {A} (seed : nat) (l : list A) : list A :=
  match l with
  | [] => []
  | x :: l' =>
      let k := S (length l') in
      insertAt (seed mod k)%nat x (shuffle (seed / k)%nat l')
  end.

Definition mapRange {V} (seed : nat) (m : option (gmap string V)) : list string :=
  shuffle seed (mapKeys m).

(** ** Queries and updates of the manager ([config.go], lines 233-343) *)

Definition getSliderMappingByKey (cm : ConfigManager) (key : string)
    : outcome (SliderMapping * option error) :=
  match cmConfig cm with
  | None => Panicked NilDereference
  | Some c =>
      match mapGet (SliderMappings c) key with
      | None => Ok (zeroSliderMapping, Some (ErrKeyNotFound key))
      | Some mapping => Ok (mapping, None)
      end
  end.

Definition getSliderMappingByIndex (cm : ConfigManager) (index : Z)
    : outcome (SliderMapping * option error) :=
  if (index <? 0) || (index >=? Z.of_nat (length (orderedSliderKeys cm))) then
    Ok (zeroSliderMapping, Some (ErrInvalidIndex index))
  else
    match orderedSliderKeys cm !! Z.to_nat index with
    | None => Panicked IndexOutOfRange
    | Some key =>
        match cmConfig cm with
        | None => Panicked NilDereference
        | Some c =>
            Ok (default zeroSliderMapping (mapGet (SliderMappings c) key), None)
        end
    end.

Definition getSliderMappingKeys (cm : ConfigManager)
    : list string * option error :=
  if (length (orderedSliderKeys cm) =? 0)%nat then ([], Some ErrNoKeys)
  else (orderedSliderKeys cm, None).

Definition getSliderMappingCount (cm : ConfigManager) : outcome Z :=
  match cmConfig cm with
  | None => Panicked NilDereference
  | Some c => Ok (mapLen (SliderMappings c))
  end.

Definition getSliderMappingKeyByIndex (cm : ConfigManager) (index : Z)
    : outcome (string * option error) :=
  if (index <? 0) || (index >=? Z.of_nat (length (orderedSliderKeys cm))) then
    Ok ("", Some (ErrIndexOutOfRange index))
  else
    match orderedSliderKeys cm !! Z.to_nat index with
    | None => Panicked IndexOutOfRange
    | Some key => Ok (key, None)
    end.

Definition storeMapping (cm : ConfigManager) (c : Config)
    (m : gmap string SliderMapping) : ConfigManager :=
  {| cmConfig := Some (withSliderMappings c (Some m));
     orderedSliderKeys := orderedSliderKeys cm;
     configFilePath := configFilePath cm;
     configModified := true;
     notified := notified cm |}.

Definition UpdateSliderMappingByKey (cm : ConfigManager) (key : string)
    (mapping : SliderMapping) : outcome ConfigManager :=
  match cmConfig cm with
  | None => Panicked NilDereference
  | Some c =>
      match SliderMappings c with
      | None => Panicked NilMapWrite
      | Some m => Ok (storeMapping cm c (<[key := mapping]> m))
      end
  end.

Definition UpdateSliderMappingByIndex (cm : ConfigManager) (index : Z)
    (mapping : SliderMapping) : outcome ConfigManager :=
  if (index <? 0) || (index >=? Z.of_nat (length (orderedSliderKeys cm))) then
    Panicked IndexOutOfRange
  else
    match orderedSliderKeys cm !! Z.to_nat index with
    | None => Panicked IndexOutOfRange
    | Some key => UpdateSliderMappingByKey cm key mapping
    end.

Fixpoint collectMappings (m : option (gmap string SliderMapping))
    (keys : list string) : list SliderMapping + error :=
  match keys with
  | [] => inl []
  | key :: keys' =>
      match mapGet m key with
      | None => inr (ErrMappingMissing key)
      | Some mapping =>
          match collectMappings m keys' with
          | inl mappings => inl (mapping :: mappings)
          | inr e => inr e
          end
      end
  end.

Definition getSliderMappings (cm : ConfigManager)
    : outcome (list SliderMapping + error) :=
  if (length (orderedSliderKeys cm) =? 0)%nat then Ok (inr ErrNoMappings)
  else
    match cmConfig cm with
    | None => Panicked NilDereference
    | Some c => Ok (collectMappings (SliderMappings c) (orderedSliderKeys cm))
    end.

(** ** The configuration file and its decoder *)

Module Yaml.

(** Modelled from the spec: the YAML library that parses and decodes the
    configuration file is outside the repository.  What follows in this
    module is the file format of section 6 of the specification: a parsed
    document, its scalars resolved to the values they denote, and its
    decoding into the structs above. *)
Inductive node :=
| Null
| Bool (b : bool)
| Int (z : Z)
| Float (f : float32)
| Str (s : string)
| Seq (items : list node)
| Map (entries : list (string * node)).

(** Modelled from the spec: what a [yaml.Decoder] reads, text that does
    not parse (an empty stream included) or one document. *)
Inductive content :=
| Unparsable (cause : string)
| Document (doc : node).

(** Modelled from the spec: a decoder and its [KnownFields] switch. *)
Record Decoder := { source : content; knownFields : bool }.

(** Modelled from the spec: [yaml.NewDecoder(file)]. *)
Definition NewDecoder (file : content) : Decoder :=
  {| source := file; knownFields := false |}.

(** Modelled from the spec: [decoder.KnownFields(enable)]. *)
Definition KnownFields (d : Decoder) (enable : bool) : Decoder :=
  {| source := source d; knownFields := enable |}.

(** Modelled from the spec: the scalar fields ([volume] a float, [muted]
    and [invert_sliders] booleans, [serial_port] and
    [noise_reduction_level] strings, [baud_rate] and
    [config_save_interval] integers).  Every decoder returns the new
    value of its target with the type errors met on the way; a target is
    left as it was where its node cannot be stored in it. *)
Definition decodeFloat32 (n : node) (old : float32) : float32 * list string :=
  match n with
  | Float f => (f, [])
  | Int z => (F32.ofZ z, [])
  | Null => (old, [])
  | _ => (old, ["cannot unmarshal into float32"])
  end.

(** Modelled from the spec: a boolean field. *)
Definition decodeBool (n : node) (old : bool) : bool * list string :=
  match n with
  | Bool b => (b, [])
  | Null => (old, [])
  | _ => (old, ["cannot unmarshal into bool"])
  end.

(** Modelled from the spec: a string field. *)
Definition decodeString (n : node) (old : string) : string * list string :=
  match n with
  | Str s => (s, [])
  | Null => (old, [])
  | _ => (old, ["cannot unmarshal into string"])
  end.

(** Modelled from the spec: an unsigned integer field. *)
Definition decodeUint (n : node) (old : Z) : Z * list string :=
  match n with
  | Int z =>
      if (0 <=? z) && (z <? 2 ^ 64) then (z, [])
      else (old, ["cannot unmarshal into uint"])
  | Null => (old, [])
  | _ => (old, ["cannot unmarshal into uint"])
  end.

(** Modelled from the spec: a signed integer field. *)
Definition decodeInt (n : node) (old : Z) : Z * list string :=
  match n with
  | Int z =>
      if (- 2 ^ 63 <=? z) && (z <? 2 ^ 63) then (z, [])
      else (old, ["cannot unmarshal into int"])
  | Null => (old, [])
  | _ => (old, ["cannot unmarshal into int"])
  end.

(** Modelled from the spec: [targets], a list of strings. *)
Fixpoint decodeStrings (items : list node) : list string * list string :=
  match items with
  | [] => ([], [])
  | Str s :: items' =>
      let '(l, errs) := decodeStrings items' in (s :: l, errs)
  | Null :: items' => decodeStrings items'
  | _ :: items' =>
      let '(l, errs) := decodeStrings items' in
      (l, "cannot unmarshal into string" :: errs)
  end.

(** Modelled from the spec: [targets] as a field. *)
Definition decodeStringSlice (n : node) (old : list string)
    : list string * list string :=
  match n with
  | Seq items => decodeStrings items
  | Null => ([], [])
  | _ => (old, ["cannot unmarshal into []string"])
  end.

(** Modelled from the spec: "unknown top-level or nested keys cause load
    failure".  The fields of a mapping node stored into a struct, entry by
    entry:
    [field] stores one known key, an unknown key is an error when
    [knownFields] is set and is skipped otherwise, and a key met twice
    is an error. *)
Fixpoint decodeFields {T} (known : bool)
    (field : string -> option (node -> T -> T * list string))
    (entries : list (string * node)) (seen : list string) (target : T)
    : T * list string :=
  match entries with
  | [] => (target, [])
  | (key, value) :: entries' =>
      match field key with
      | Some store =>
          if bool_decide (key ∈ seen) then
            let '(t, errs) := decodeFields known field entries' seen target in
            (t, ("field " ++ key ++ " already set") :: errs)
          else
            let '(t1, errs1) := store value target in
            let '(t2, errs2) :=
              decodeFields known field entries' (key :: seen) t1 in
            (t2, (errs1 ++ errs2)%list)
      | None =>
          let '(t, errs) := decodeFields known field entries' seen target in
          if known then (t, ("field " ++ key ++ " not found in type") :: errs)
          else (t, errs)
      end
  end.

(** Modelled from the spec: a field decoder seen as a decoder of its
    struct. *)
Definition liftField {T A} (dec : node -> A -> A * list string)
    (get : T -> A) (set : T -> A -> T) : node -> T -> T * list string :=
  fun n t => let '(a, errs) := dec n (get t) in (set t a, errs).

(** Modelled from the spec: the keys of a slider. *)
Definition sliderMappingField (key : string)
    : option (node -> SliderMapping -> SliderMapping * list string) :=
  if String.eqb key "volume" then
    Some (liftField decodeFloat32 Volume withVolume)
  else if String.eqb key "muted" then
    Some (liftField decodeBool Muted
            (fun sm b => {| Volume := Volume sm; Muted := b;
                            Targets := Targets sm |}))
  else if String.eqb key "targets" then
    Some (liftField decodeStringSlice Targets
            (fun sm t => {| Volume := Volume sm; Muted := Muted sm;
                            Targets := t |}))
  else None.

(** Modelled from the spec: one slider; the result's first component
    tells whether a value was decoded. *)
Definition decodeSliderMapping (known : bool) (n : node)
    : option SliderMapping * list string :=
  match n with
  | Map entries =>
      let '(sm, errs) :=
        decodeFields known sliderMappingField entries [] zeroSliderMapping in
      (Some sm, errs)
  | Null => (None, [])
  | _ => (None, ["cannot unmarshal into deej.SliderMapping"])
  end.

(** Modelled from the spec: [slider_mappings], from name to slider, a
    name met twice being an error. *)
Fixpoint decodeSliders (known : bool) (entries : list (string * node))
    (seen : list string) (target : gmap string SliderMapping)
    : gmap string SliderMapping * list string :=
  match entries with
  | [] => (target, [])
  | (key, value) :: entries' =>
      let dup :=
        if bool_decide (key ∈ seen)
        then ["mapping key " ++ key ++ " already defined"] else [] in
      let '(osm, errs1) := decodeSliderMapping known value in
      let target1 :=
        match osm with
        | Some sm => <[key := sm]> target
        | None => target
        end in
      let '(t2, errs2) := decodeSliders known entries' (key :: seen) target1 in
      (t2, (dup ++ errs1 ++ errs2)%list)
  end.

(** Modelled from the spec: the field [slider_mappings]; a nil map is
    made on the first use. *)
Definition decodeSliderMappings (known : bool) (n : node)
    (old : option (gmap string SliderMapping))
    : option (gmap string SliderMapping) * list string :=
  match n with
  | Map entries =>
      let '(m, errs) := decodeSliders known entries [] (default ∅ old) in
      (Some m, errs)
  | Null => (None, [])
  | _ => (old, ["cannot unmarshal into map[string]deej.SliderMapping"])
  end.

(** Modelled from the spec: the keys of [connection_info]. *)
Definition connectionInfoField (key : string)
    : option (node -> ConnectionInfo -> ConnectionInfo * list string) :=
  if String.eqb key "serial_port" then
    Some (liftField decodeString SerialPort
            (fun ci s => {| SerialPort := s; BaudRate := BaudRate ci |}))
  else if String.eqb key "baud_rate" then
    Some (liftField decodeUint BaudRate
            (fun ci b => {| SerialPort := SerialPort ci; BaudRate := b |}))
  else None.

(** Modelled from the spec: the field [connection_info]. *)
Definition decodeConnectionInfo (known : bool) (n : node)
    (old : ConnectionInfo) : ConnectionInfo * list string :=
  match n with
  | Map entries => decodeFields known connectionInfoField entries [] old
  | Null => (old, [])
  | _ => (old, ["cannot unmarshal into deej.ConnectionInfo"])
  end.

(** Modelled from the spec: the top-level keys. *)
Definition configField (known : bool) (key : string)
    : option (node -> Config -> Config * list string) :=
  if String.eqb key "slider_mappings" then
    Some (liftField (decodeSliderMappings known) SliderMappings
            withSliderMappings)
  else if String.eqb key "invert_sliders" then
    Some (liftField decodeBool InvertSliders
            (fun c b =>
               {| SliderMappings := SliderMappings c; InvertSliders := b;
                  Connection := Connection c;
                  NoiseReductionLevel := NoiseReductionLevel c;
                  ConfigSaveInterval := ConfigSaveInterval c |}))
  else if String.eqb key "connection_info" then
    Some (liftField (decodeConnectionInfo known) Connection
            (fun c ci =>
               {| SliderMappings := SliderMappings c;
                  InvertSliders := InvertSliders c;
                  Connection := ci;
                  NoiseReductionLevel := NoiseReductionLevel c;
                  ConfigSaveInterval := ConfigSaveInterval c |}))
  else if String.eqb key "noise_reduction_level" then
    Some (liftField decodeString NoiseReductionLevel
            (fun c s =>
               {| SliderMappings := SliderMappings c;
                  InvertSliders := InvertSliders c;
                  Connection := Connection c;
                  NoiseReductionLevel := s;
                  ConfigSaveInterval := ConfigSaveInterval c |}))
  else if String.eqb key "config_save_interval" then
    Some (liftField decodeInt ConfigSaveInterval
            (fun c i =>
               {| SliderMappings := SliderMappings c;
                  InvertSliders := InvertSliders c;
                  Connection := Connection c;
                  NoiseReductionLevel := NoiseReductionLevel c;
                  ConfigSaveInterval := i |}))
  else None.

(** Modelled from the spec: the YAML decoder the loader calls is a
    library outside the repository.  This is the decoder of the
    configuration file format of section 6 (top-level keys
    [slider_mappings], [invert_sliders], [connection_info],
    [noise_reduction_level], [config_save_interval]; a slider with
    [volume], [muted], [targets]; a connection with [serial_port],
    [baud_rate]), which with [KnownFields(true)] reports a key outside
    the format as an error.  [Decode] stores into the [Config] it is
    handed as it goes and returns the errors, if any, at the end. *)
Definition Decode (d : Decoder) (target : Config)
    : Config * option (list string) :=
  match source d with
  | Unparsable cause => (target, Some [cause])
  | Document (Map entries) =>
      let '(c, errs) :=
        decodeFields (knownFields d) (configField (knownFields d))
          entries [] target in
      (c, match errs with [] => None | _ => Some errs end)
  | Document Null => (target, None)
  | Document _ => (target, Some ["cannot unmarshal into deej.Config"])
  end.

End Yaml.

(** ** Loading ([config.go], lines 66-108) *)

(** What [os.Open] answers for a path. *)
Inductive OpenResult :=
| NotExist
| OpenFailed (cause : string)
| Opened (file : Yaml.content).

Definition FileSystem := string -> OpenResult.

Definition defaultConfig : Config :=
  {| SliderMappings := None;
     InvertSliders := false;
     Connection := {| SerialPort := "COM4"; BaudRate := 9600 |};
     NoiseReductionLevel := "";
     ConfigSaveInterval := 60 |}.

Definition Notify (cm : ConfigManager) (title message : string) : ConfigManager :=
  {| cmConfig := cmConfig cm;
     orderedSliderKeys := orderedSliderKeys cm;
     configFilePath := configFilePath cm;
     configModified := configModified cm;
     notified := (notified cm ++ [(title, message)])%list |}.

Definition setConfig (cm : ConfigManager) (c : Config) : ConfigManager :=
  {| cmConfig := Some c;
     orderedSliderKeys := orderedSliderKeys cm;
     configFilePath := configFilePath cm;
     configModified := configModified cm;
     notified := notified cm |}.

Definition setOrderedSliderKeys (cm : ConfigManager) (keys : list string)
    : ConfigManager :=
  {| cmConfig := cmConfig cm;
     orderedSliderKeys := keys;
     configFilePath := configFilePath cm;
     configModified := configModified cm;
     notified := notified cm |}.

(** [seed] is the order in which the runtime ranges over the decoded map. *)
Definition Load (fs : FileSystem) (seed : nat) (cm : ConfigManager)
    : ConfigManager * option error :=
  match fs (configFilePath cm) with
  | NotExist =>
      (Notify cm "Can't find configuration!"
         (configFilePath cm ++ " must be in the directory. Please re-launch"),
       Some (ErrConfigNotExist (configFilePath cm)))
  | OpenFailed cause => (cm, Some (ErrOpenConfig cause))
  | Opened file =>
      let decoder := Yaml.NewDecoder file in
      let decoder := Yaml.KnownFields decoder true in
      let '(c, err) := Yaml.Decode decoder defaultConfig in
      let cm := setConfig cm c in
      match err with
      | Some causes => (cm, Some (ErrDecodeConfig causes))
      | None =>
          (setOrderedSliderKeys cm (mapRange seed (SliderMappings c)), None)
      end
  end.

(** ** Regular expressions and strings, as far as the session uses them *)

Module Regexp.

(** The pieces [expectedLinePattern] is made of: [^], [$] (end of the
    text, no multi-line flag), a character class and a literal. *)
Inductive atom :=
| BeginText
| EndText
| Class (chars : list ascii)
| Char (c : ascii).

Definition t := list atom.

(** [re] matches a prefix of [s]; [atStart] tells whether [s] starts at
    the beginning of the text. *)
Fixpoint matchHere (re : t) (atStart : bool) (s : string) : bool :=
  match re with
  | [] => true
  | BeginText :: re' => atStart && matchHere re' atStart s
  | EndText :: re' =>
      match s with
      | EmptyString => matchHere re' atStart s
      | String _ _ => false
      end
  | Class chars :: re' =>
      match s with
      | EmptyString => false
      | String c s' => existsb (Ascii.eqb c) chars && matchHere re' false s'
      end
  | Char c0 :: re' =>
      match s with
      | EmptyString => false
      | String c s' => Ascii.eqb c c0 && matchHere re' false s'
      end
  end.

Fixpoint matchFrom (re : t) (atStart : bool) (s : string) : bool :=
  matchHere re atStart s ||
  match s with
  | EmptyString => false
  | String _ s' => matchFrom re false s'
  end.

(** [re.MatchString(s)]: [re] matches somewhere in [s]. *)
Definition MatchString (re : t) (s : string) : bool := matchFrom re true s.

End Regexp.

Module Strings.

Fixpoint HasSuffix (s suffix : string) : bool :=
  String.eqb s suffix ||
  match s with
  | EmptyString => false
  | String _ s' => HasSuffix s' suffix
  end.

Definition TrimSuffix (s suffix : string) : string :=
  if HasSuffix s suffix
  then substring 0 (String.length s - String.length suffix) s
  else s.

End Strings.

Definition LF : ascii := "010"%char.
Definition newline : string := String LF EmptyString.

(** [^[lrud]\n$] *)
Definition expectedLinePattern : Regexp.t :=
  [Regexp.BeginText; Regexp.Class ["l"; "r"; "u"; "d"]%char;
   Regexp.Char LF; Regexp.EndText].

(** ** The session and its interpretation state *)

Record SliderMoveEvent := {
  SliderID : string;
  PercentValue : float32
}.

(** A subscriber's channel, by the number it was created with. *)
Definition Chan := nat.

(** What [handleLine] does to the outside, in program order: a send on a
    subscriber's channel (complete once the subscriber has received, the
    channels being unbuffered) and a write-back into the manager. *)
Inductive effect :=
| Sent (consumer : Chan) (moveEvent : SliderMoveEvent)
| Updated (key : string) (mapping : SliderMapping).

(** The manager and the subscribers of the [SerialIO] with the
    package-level variables [currentSliderIndex], [currentSliderName],
    [wantedValue], [isButtonHeld], [needToUpdate]. *)
Record World := {
  configManager : ConfigManager;
  sliderMoveConsumers : list Chan;
  currentSliderIndex : Z;
  currentSliderName : string;
  wantedValue : float32;
  isButtonHeld : bool;
  needToUpdate : bool;
  trace : list effect
}.

(** The state a process starts in, once the configuration is loaded. *)
Definition startWorld (cm : ConfigManager) (consumers : list Chan) : World :=
  {| configManager := cm; sliderMoveConsumers := consumers;
     currentSliderIndex := 0; currentSliderName := "";
     wantedValue := F32.zero; isButtonHeld := false; needToUpdate := false;
     trace := [] |}.

Definition SubscribeToSliderMoveEvents (w : World) : Chan * World :=
  let ch := length (sliderMoveConsumers w) in
  (ch,
   {| configManager := configManager w;
      sliderMoveConsumers := (sliderMoveConsumers w ++ [ch])%list;
      currentSliderIndex := currentSliderIndex w;
      currentSliderName := currentSliderName w;
      wantedValue := wantedValue w;
      isButtonHeld := isButtonHeld w;
      needToUpdate := needToUpdate w;
      trace := trace w |}).

(** Go's [int] is 64 bits wide here; arithmetic on it wraps around. *)
Definition wrapInt (z : Z) : Z := (z + 2 ^ 63) mod 2 ^ 64 - 2 ^ 63.

(** *** State and panics threaded through the handler *)

Definition M (A : Type) : Type := World -> outcome A * World.

Definition ret {A} (a : A) : M A := fun w => (Ok a, w).

Definition bind {A B} (m : M A) (k : A -> M B) : M B :=
  fun w =>
    match m w with
    | (Ok a, w') => k a w'
    | (Panicked p, w') => (Panicked p, w')
    end.

Declare Scope go_scope.
Delimit Scope go_scope with go.
Notation "'let*' p ':=' m 'in' k" := (bind m (fun p => k))
  (at level 10, p pattern, m at level 100, k at level 200) : go_scope.
Notation "m ;; k" := (bind m (fun _ => k))
  (at level 100, right associativity) : go_scope.
Local Open Scope go_scope.

Definition gets {A} (f : World -> A) : M A := fun w => (Ok (f w), w).

(** A call of a read-only method of the manager. *)
Definition ask {A} (f : ConfigManager -> outcome A) : M A :=
  fun w => (f (configManager w), w).

Definition setIndex (i : Z) : M unit := fun w =>
  (Ok tt,
   {| configManager := configManager w;
      sliderMoveConsumers := sliderMoveConsumers w;
      currentSliderIndex := i;
      currentSliderName := currentSliderName w;
      wantedValue := wantedValue w;
      isButtonHeld := isButtonHeld w;
      needToUpdate := needToUpdate w;
      trace := trace w |}).

Definition setName (name : string) : M unit := fun w =>
  (Ok tt,
   {| configManager := configManager w;
      sliderMoveConsumers := sliderMoveConsumers w;
      currentSliderIndex := currentSliderIndex w;
      currentSliderName := name;
      wantedValue := wantedValue w;
      isButtonHeld := isButtonHeld w;
      needToUpdate := needToUpdate w;
      trace := trace w |}).

Definition setWanted (v : float32) : M unit := fun w =>
  (Ok tt,
   {| configManager := configManager w;
      sliderMoveConsumers := sliderMoveConsumers w;
      currentSliderIndex := currentSliderIndex w;
      currentSliderName := currentSliderName w;
      wantedValue := v;
      isButtonHeld := isButtonHeld w;
      needToUpdate := needToUpdate w;
      trace := trace w |}).

Definition setHeld (b : bool) : M unit := fun w =>
  (Ok tt,
   {| configManager := configManager w;
      sliderMoveConsumers := sliderMoveConsumers w;
      currentSliderIndex := currentSliderIndex w;
      currentSliderName := currentSliderName w;
      wantedValue := wantedValue w;
      isButtonHeld := b;
      needToUpdate := needToUpdate w;
      trace := trace w |}).

Definition setNeed (b : bool) : M unit := fun w =>
  (Ok tt,
   {| configManager := configManager w;
      sliderMoveConsumers := sliderMoveConsumers w;
      currentSliderIndex := currentSliderIndex w;
      currentSliderName := currentSliderName w;
      wantedValue := wantedValue w;
      isButtonHeld := isButtonHeld w;
      needToUpdate := b;
      trace := trace w |}).

Definition record (e : effect) (cm : ConfigManager) (w : World) : World :=
  {| configManager := cm;
     sliderMoveConsumers := sliderMoveConsumers w;
     currentSliderIndex := currentSliderIndex w;
     currentSliderName := currentSliderName w;
     wantedValue := wantedValue w;
     isButtonHeld := isButtonHeld w;
     needToUpdate := needToUpdate w;
     trace := (trace w ++ [e])%list |}.

(** [consumer <- moveEvent] *)
Definition send (consumer : Chan) (moveEvent : SliderMoveEvent) : M unit :=
  fun w => (Ok tt, record (Sent consumer moveEvent) (configManager w) w).

(** [sio.deej.configManager.UpdateSliderMappingByKey(key, mapping)] *)
Definition update (key : string) (mapping : SliderMapping) : M unit :=
  fun w =>
    match UpdateSliderMappingByKey (configManager w) key mapping with
    | Ok cm => (Ok tt, record (Updated key mapping) cm w)
    | Panicked p => (Panicked p, w)
    end.

Fixpoint forEach {A} (l : list A) (body : A -> M unit) : M unit :=
  match l with
  | [] => ret tt
  | x :: l' => body x ;; forEach l' body
  end.

(** *** [handleLine] ([config.go], lines 582-701) *)

Definition rotateLeft : M unit :=
  let* held := gets isButtonHeld in
  if held then
    let* i := gets currentSliderIndex in
    setIndex (wrapInt (i - 1)) ;;
    let* i := gets currentSliderIndex in
    (if i <? 0 then setIndex 0 else ret tt) ;;
    let* i := gets currentSliderIndex in
    let* (sliderMapping, _) := ask (fun cm => getSliderMappingByIndex cm i) in
    setWanted (Volume sliderMapping) ;;
    let* (name, _) := ask (fun cm => getSliderMappingKeyByIndex cm i) in
    setName name
  else
    let* name := gets currentSliderName in
    let* (sliderMapping, _) := ask (fun cm => getSliderMappingByKey cm name) in
    setWanted (F32.sub (Volume sliderMapping) F32.hundredth) ;;
    let* wanted := gets wantedValue in
    (if F32.ltb wanted F32.zero then setWanted F32.zero else ret tt) ;;
    setNeed true.

Definition rotateRight : M unit :=
  let* held := gets isButtonHeld in
  if held then
    let* i := gets currentSliderIndex in
    setIndex (wrapInt (i + 1)) ;;
    let* i := gets currentSliderIndex in
    (if i >? 1024 then setIndex 1024 else ret tt) ;;
    let* sliderMappingCount := ask getSliderMappingCount in
    let* i := gets currentSliderIndex in
    (if i >? sliderMappingCount then setIndex sliderMappingCount else ret tt) ;;
    let* i := gets currentSliderIndex in
    let* (sliderMapping, _) := ask (fun cm => getSliderMappingByIndex cm i) in
    setWanted (Volume sliderMapping) ;;
    let* (name, _) := ask (fun cm => getSliderMappingKeyByIndex cm i) in
    setName name
  else
    let* name := gets currentSliderName in
    let* (sliderMapping, _) := ask (fun cm => getSliderMappingByKey cm name) in
    setWanted (F32.add (Volume sliderMapping) F32.hundredth) ;;
    let* wanted := gets wantedValue in
    (if F32.gtb wanted F32.one then setWanted F32.one else ret tt) ;;
    setNeed true.

Definition buttonDown : M unit :=
  setHeld true ;;
  let* _ := ask (fun cm => Ok (getSliderMappingKeys cm)) in
  setNeed false.

Definition buttonUp : M unit :=
  setHeld false ;;
  setNeed false ;;
  let* i := gets currentSliderIndex in
  let* (name, _) := ask (fun cm => getSliderMappingKeyByIndex cm i) in
  setName name.

(** The tail of [handleLine]: the move events of this line and their
    delivery. *)
Definition deliver : M unit :=
  let* i := gets currentSliderIndex in
  let* (sliderMapping, _) := ask (fun cm => getSliderMappingByIndex cm i) in
  let* need := gets needToUpdate in
  let* wanted := gets wantedValue in
  let* name := gets currentSliderName in
  let moveEvents :=
    if need && F32.neqb wanted (Volume sliderMapping)
    then [ {| SliderID := name; PercentValue := wanted |} ]
    else [] in
  if (0 <? length moveEvents)%nat then
    let* consumers := gets sliderMoveConsumers in
    forEach consumers (fun consumer =>
      forEach moveEvents (fun moveEvent =>
        send consumer moveEvent ;;
        let* (sm, _) := ask (fun cm => getSliderMappingByKey cm (SliderID moveEvent)) in
        let sm := withVolume sm (PercentValue moveEvent) in
        update (SliderID moveEvent) sm))
  else ret tt.

Definition handleLine (line : string) : M unit :=
  if negb (Regexp.MatchString expectedLinePattern line) then ret tt
  else
    let line := Strings.TrimSuffix line newline in
    (if String.eqb line "l" then rotateLeft
     else if String.eqb line "r" then rotateRight
     else if String.eqb line "d" then buttonDown
     else if String.eqb line "u" then buttonUp
     else ret tt) ;;
    deliver.

(** The dispatch loop on the lines the reader hands over; a panic ends it. *)
Fixpoint handleLines (lines : list string) : M unit :=
  match lines with
  | [] => ret tt
  | line :: lines' => handleLine line ;; handleLines lines'
  end.

(** ** Vocabulary of the properties *)

(** A line of the wire protocol: one of the four tokens, then one LF. *)
Definition tokenLine (c : ascii) : string := String c newline.

Definition wellFormedLine (line : string) : bool :=
  existsb (fun c => String.eqb line (tokenLine c)) ["l"; "r"; "u"; "d"]%char.

(** The mapping stored under [key], through the manager's pointer. *)
Definition stored (cm : ConfigManager) (key : string) : option SliderMapping :=
  match cmConfig cm with
  | Some c => mapGet (SliderMappings c) key
  | None => None
  end.

(** The two key sets the manager keeps. *)
Definition sliderKeySet (cm : ConfigManager) : gset string :=
  match cmConfig cm with
  | Some c =>
      match SliderMappings c with
      | Some m => dom m
      | None => ∅
      end
  | None => ∅
  end.

Definition orderedKeySet (cm : ConfigManager) : gset string :=
  list_to_set (orderedSliderKeys cm).

Definition keysMatch (cm : ConfigManager) : Prop :=
  orderedKeySet cm = sliderKeySet cm.

(** The sends recorded in a trace, in order. *)
Definition sends (tr : list effect) : list (Chan * SliderMoveEvent) :=
  flat_map (fun e => match e with
                     | Sent ch ev => [(ch, ev)]
                     | Updated _ _ => []
                     end) tr.

(** The write-backs recorded in a trace, in order. *)
Definition writeBacks (tr : list effect) : list (string * SliderMapping) :=
  flat_map (fun e => match e with
                     | Sent _ _ => []
                     | Updated key mapping => [(key, mapping)]
                     end) tr.

(** What the queries answer where they do not panic. *)
Definition keyAt (cm : ConfigManager) (index : Z) : string :=
  match getSliderMappingKeyByIndex cm index with
  | Ok (key, _) => key
  | Panicked _ => ""
  end.

Definition mappingAt (cm : ConfigManager) (index : Z) : SliderMapping :=
  match getSliderMappingByIndex cm index with
  | Ok (mapping, _) => mapping
  | Panicked _ => zeroSliderMapping
  end.

Definition mappingOf (cm : ConfigManager) (key : string) : SliderMapping :=
  default zeroSliderMapping (stored cm key).

(** One step down and one step up of a volume, as the handler clamps them. *)
Definition lower (v : float32) : float32 :=
  let x := F32.sub v F32.hundredth in
  if F32.ltb x F32.zero then F32.zero else x.

Definition raise (v : float32) : float32 :=
  let x := F32.add v F32.hundredth in
  if F32.gtb x F32.one then F32.one else x.

(** A world with new values for the five package-level variables. *)
Definition withInterp (w : World) (index : Z) (name : string)
    (wanted : float32) (held need : bool) : World :=
  {| configManager := configManager w;
     sliderMoveConsumers := sliderMoveConsumers w;
     currentSliderIndex := index;
     currentSliderName := name;
     wantedValue := wanted;
     isButtonHeld := held;
     needToUpdate := need;
     trace := trace w |}.

(** A world after effects [tr] that left the manager as [cm]. *)
Definition withEffects (w : World) (cm : ConfigManager) (tr : list effect)
    : World :=
  {| configManager := cm;
     sliderMoveConsumers := sliderMoveConsumers w;
     currentSliderIndex := currentSliderIndex w;
     currentSliderName := currentSliderName w;
     wantedValue := wantedValue w;
     isButtonHeld := isButtonHeld w;
     needToUpdate := needToUpdate w;
     trace := (trace w ++ tr)%list |}.

(** The move event of a line, read off the world the token's
    interpretation has left, and whether it is emitted. *)
Definition moveEventOf (w : World) : SliderMoveEvent :=
  {| SliderID := currentSliderName w; PercentValue := wantedValue w |}.

Definition emits (w : World) : bool :=
  needToUpdate w &&
  F32.neqb (wantedValue w)
           (Volume (mappingAt (configManager w) (currentSliderIndex w))).

(** The mapping a write-back stores for the event of [w]. *)
Definition writtenBack (w : World) : SliderMapping :=
  withVolume (mappingOf (configManager w) (currentSliderName w)) (wantedValue w).

(** Per subscriber: the send, then the write-back. *)
Definition deliveryTrace (w : World) : list effect :=
  flat_map (fun ch => [Sent ch (moveEventOf w);
                       Updated (currentSliderName w) (writtenBack w)])
           (sliderMoveConsumers w).

(** The manager after the write-backs of one line: untouched without a
    subscriber, the mapping of the event stored otherwise. *)
Definition afterWriteBacks (w : World) (c : Config)
    (m : gmap string SliderMapping) : ConfigManager :=
  match sliderMoveConsumers w with
  | [] => configManager w
  | _ :: _ =>
      storeMapping (configManager w) c
        (<[currentSliderName w := writtenBack w]> m)
  end.

(** What a token's interpretation leaves alone, whatever its outcome. *)
Definition sameOutside (w w' : World) : Prop :=
  configManager w' = configManager w /\
  sliderMoveConsumers w' = sliderMoveConsumers w /\
  trace w' = trace w.

(** One iteration of the delivery loop of [deliver] for the event [ev]. *)
Definition deliverTo (ev : SliderMoveEvent) (consumer : Chan) : M unit :=
  forEach [ev] (fun moveEvent =>
    send consumer moveEvent ;;
    let* (sm, _) := ask (fun cm => getSliderMappingByKey cm (SliderID moveEvent)) in
    let sm := withVolume sm (PercentValue moveEvent) in
    update (SliderID moveEvent) sm).

(** The scenario of the specification: three sliders at one half, in the
    order master, game, chat. *)
Definition threeSliders : ConfigManager :=
  let half := {| Volume := F32.dec 1 2; Muted := false; Targets := [] |} in
  {| cmConfig := Some (withSliderMappings defaultConfig
        (Some (<["master" := half]> (<["game" := half]> (<["chat" := half]> ∅)))));
     orderedSliderKeys := ["master"; "game"; "chat"];
     configFilePath := "config.yaml";
     configModified := false;
     notified := [] |}.


Definition half : SliderMapping :=
  {| Volume := F32.dec 1 2; Muted := false; Targets := [] |}.

(** The scenario once the session has resolved the name of slider 0. *)
Definition onMaster (consumers : list Chan) : World :=
  withInterp (startWorld threeSliders consumers) 0 "master" F32.zero false false.

(** The line of a rotation token. *)
Definition rotation (right : bool) : string :=
  tokenLine (if right then "r" else "l")%char.

(** The value a rotation computes from the stored volume [v]. *)
Definition target (right : bool) (v : float32) : float32 :=
  if right then raise v else lower v.

(** A manager with the [n] sliders named 0, 1, ... in decimal, in that order. *)
Definition numbered (n : nat) : list string := pretty <$> seq 0 n.

Definition manySliders (n : nat) : ConfigManager :=
  {| cmConfig := Some (withSliderMappings defaultConfig
        (Some (list_to_map ((fun key => (key, half)) <$> numbered n))));
     orderedSliderKeys := numbered n;
     configFilePath := "config.yaml";
     configModified := false;
     notified := [] |}.

(** The token lines of a press, [n] turns one way, and a release. *)
Definition pressTurnRelease (right : bool) (n : nat) : list string :=
  (tokenLine "d" :: repeat (rotation right) n ++ [tokenLine "u"])%list.

(** The index one turn leads to during channel selection, among [count]
    sliders. *)
Definition turned (right : bool) (count i : Z) : Z :=
  if right then Z.min (Z.min (i + 1) 1024) count else Z.max (i - 1) 0.

(** The index a channel selection can reach at most. *)
Definition indexBound (c : Config) : Z := Z.min (mapLen (SliderMappings c)) 1024.

(** The index [n] turns lead to from [i]. *)
Definition selected (right : bool) (c : Config) (i : Z) (n : nat) : Z :=
  if right then Z.min (i + Z.of_nat n) (indexBound c)
  else Z.max (i - Z.of_nat n) 0.

(** The keys of the file format, and a document with a key outside it: at
    the top level, inside [connection_info], or inside a slider. *)
Definition topLevelKeys : list string :=
  ["slider_mappings"; "invert_sliders"; "connection_info";
   "noise_reduction_level"; "config_save_interval"].

Definition connectionKeys : list string := ["serial_port"; "baud_rate"].

Definition sliderKeys : list string := ["volume"; "muted"; "targets"].

Definition strayKey (known : list string) (entries : list (string * Yaml.node))
    : bool :=
  existsb (fun entry => negb (existsb (String.eqb entry.1) known)) entries.

Definition straySlider (slider : string * Yaml.node) : bool :=
  match slider.2 with
  | Yaml.Map fields => strayKey sliderKeys fields
  | _ => false
  end.

Definition strayNested (entry : string * Yaml.node) : bool :=
  match entry.2 with
  | Yaml.Map entries =>
      (String.eqb entry.1 "connection_info" && strayKey connectionKeys entries)
      || (String.eqb entry.1 "slider_mappings" && existsb straySlider entries)
  | _ => false
  end.

Definition hasUnknownKey (doc : Yaml.node) : bool :=
  match doc with
  | Yaml.Map entries => strayKey topLevelKeys entries || existsb strayNested entries
  | _ => false
  end.

(** An entry of a mapping node that cannot be stored without an error. *)
Definition faulty {T} (field : string -> option (Yaml.node -> T -> T * list string))
    (entry : string * Yaml.node) : Prop :=
  match field entry.1 with
  | None => True
  | Some store => forall t, (store entry.2 t).2 <> []
  end.

(** The file of the scenario, and the same with a misspelt key. *)
Definition sliderNode (volume : string) : Yaml.node :=
  Yaml.Map [(volume, Yaml.Float (F32.dec 1 2))].

Definition scenarioFile : Yaml.content :=
  Yaml.Document (Yaml.Map
    [("slider_mappings",
      Yaml.Map [("master", sliderNode "volume"); ("game", sliderNode "volume");
                ("chat", sliderNode "volume")])]).

Definition misspeltFile : Yaml.content :=
  Yaml.Document (Yaml.Map
    [("slider_mappings",
      Yaml.Map [("master", sliderNode "volume"); ("game", sliderNode "volme")])]).

Definition brokenFile : Yaml.content :=
  Yaml.Unparsable "yaml: line 2: mapping values are not allowed in this context".

Definition onDisk (r : OpenResult) : FileSystem := fun _ => r.

(** The last step of a rounding to float32: the float of sign [sx] with
    the mantissa [m] and the exponent [e] the rounding has arrived at. *)
Definition finish (sx : bool) (m e : Z) : float32 :=
  match m with
  | Z0 => S754_zero sx
  | Zpos p =>
      if e <=? F32.emax - F32.prec then S754_finite sx p e
      else S754_infinity sx
  | Zneg _ => S754_nan
  end.

(** The exponent of the float32 format for a number of magnitude [2^e]. *)
Definition fexp32 (e : Z) : Z := Z.max (e - 24) (-149).

(** Neither a NaN nor of the other sign than [sx]. *)
Definition signed (sx : bool) (x : float32) : Prop :=
  match x with
  | S754_zero s | S754_infinity s | S754_finite s _ _ => s = sx
  | S754_nan => False
  end.

(** Every stored volume lies between 0.0 and 1.0. *)
Definition volumesInUnit (cm : ConfigManager) : Prop :=
  forall key sm, stored cm key = Some sm -> F32.inUnit (Volume sm) = true.

(** Every value sent or written back lies between 0.0 and 1.0. *)
Definition effectInUnit (e : effect) : Prop :=
  match e with
  | Sent _ ev => F32.inUnit (PercentValue ev) = true
  | Updated _ mapping => F32.inUnit (Volume mapping) = true
  end.

(** What the volume range rests on: a loaded configuration whose volumes
    are in range, and the button not held. *)
Definition inVolumeMode (w : World) : Prop :=
  is_Some (cmConfig (configManager w)) /\
  isButtonHeld w = false /\
  volumesInUnit (configManager w).

(** A manager like [threeSliders] with master stored at [v]. *)
Definition masterAt (v : float32) : ConfigManager :=
  {| cmConfig := Some (withSliderMappings defaultConfig
        (Some (<["master" := withVolume half v]>
                 (<["game" := half]> (<["chat" := half]> ∅)))));
     orderedSliderKeys := ["master"; "game"; "chat"];
     configFilePath := "config.yaml";
     configModified := false;
     notified := [] |}.


(** [threeSliders] after a reload that found a file that does not
    parse. *)
Definition afterFailedReload : ConfigManager :=
  (Load (onDisk (Opened brokenFile)) 0 threeSliders).1.

(** A file that stores master at 1.5. *)
Definition loudFile : Yaml.content :=
  Yaml.Document (Yaml.Map
    [("slider_mappings",
      Yaml.Map [("master", Yaml.Map [("volume", Yaml.Float (F32.dec 3 2))])])]).

(** * The rest of the configuration store, of the session and of the
      firmware *)

(** ** Saving ([config.go], lines 110-172) *)

(** The disk as the manager sees it: what [os.Open] answers for a path,
    and why [os.Create] fails for it, if it does. *)
Record Disk := {
  reads : FileSystem;
  createFails : string -> option string
}.

(** The file at [path] after a write of [written]. *)
Definition writeFile (d : Disk) (path : string) (written : Yaml.content) : Disk :=
  {| reads := fun p => if String.eqb p path then Opened written else reads d p;
     createFails := createFails d |}.

Inductive saveError :=
| ErrCreateConfig (cause : string)
| ErrEncodeConfig (cause : string).

Definition setModified (cm : ConfigManager) (b : bool) : ConfigManager :=
  {| cmConfig := cmConfig cm;
     orderedSliderKeys := orderedSliderKeys cm;
     configFilePath := configFilePath cm;
     configModified := b;
     notified := notified cm |}.

Section Saving.

(** The YAML encoder is a library outside the repository: [Encode] is
    what it leaves in the file for the [Config] the pointer refers to,
    with the error it returns, if any. *)
Variable Encode : option Config -> Yaml.content * option string.

Definition SaveConfig (d : Disk) (cm : ConfigManager)
    : Disk * ConfigManager * option saveError :=
  match createFails d (configFilePath cm) with
  | Some cause => (d, cm, Some (ErrCreateConfig cause))
  | None =>
      let '(written, err) := Encode (cmConfig cm) in
      let d := writeFile d (configFilePath cm) written in
      match err with
      | Some cause => (d, cm, Some (ErrEncodeConfig cause))
      | None => (d, setModified cm false, None)
      end
  end.

(** One tick of [PeriodicallySaveConfig]. *)
Definition saveTick (d : Disk) (cm : ConfigManager) : Disk * ConfigManager :=
  let shouldSave := configModified cm in
  if shouldSave then
    let '(d, cm, _) := SaveConfig d cm in (d, cm)
  else (d, cm).

(** The loop of [PeriodicallySaveConfig]: a tick of the ticker, or the
    stop signal, which ends it. *)
Inductive saverInput := Tick | StopSaver.

Fixpoint PeriodicallySaveConfig (inputs : list saverInput) (d : Disk)
    (cm : ConfigManager) : Disk * ConfigManager :=
  match inputs with
  | [] => (d, cm)
  | StopSaver :: _ => (d, cm)
  | Tick :: inputs' =>
      let '(d, cm) := saveTick d cm in PeriodicallySaveConfig inputs' d cm
  end.

End Saving.

(** ** Watching the file ([config.go], lines 174-231, 316-322) *)

Module Watch.

(** Times are readings of [time.Now()], in nanoseconds. *)
Definition Millisecond : Z := 1000000.
Definition minTimeBetweenReloads : Z := 500 * Millisecond.
Definition delayAfterChange : Z := 50 * Millisecond.

(** The manager with its reload subscribers, the local [lastReload] of
    the watcher, and what the watcher has done so far: the signals sent
    on the subscribers' channels, and the readings of the clock at which
    it has called [Load]. *)
Record State := {
  manager : ConfigManager;
  reloadConsumers : list Chan;
  lastReload : Z;
  signals : list Chan;
  loadedAt : list Z
}.

(** [SubscribeToChanges] *)
Definition SubscribeToChanges (s : State) : Chan * State :=
  let c := length (reloadConsumers s) in
  (c,
   {| manager := manager s;
      reloadConsumers := (reloadConsumers s ++ [c])%list;
      lastReload := lastReload s;
      signals := signals s;
      loadedAt := loadedAt s |}).

(** [notifySubscribers]: one send per subscriber, in order. *)
Definition notifySubscribers (s : State) : State :=
  {| manager := manager s;
     reloadConsumers := reloadConsumers s;
     lastReload := lastReload s;
     signals := (signals s ++ reloadConsumers s)%list;
     loadedAt := loadedAt s |}.

(** What the watcher's [select] receives: an event of the file watcher,
    with the bits of its operation, the clock read on its arrival, and
    the disk and the order of the map range the reload will meet; the
    closing of the event channel; or the stop signal. *)
Inductive input :=
| Event (op : Z) (now : Z) (fs : FileSystem) (seed : nat)
| EventsClosed
| StopWatcher.

Section Watcher.

(** The bit [fsnotify.Write] of the library. *)
Variable Write : Z.

Definition reload (s : State) (now : Z) (fs : FileSystem) (seed : nat) : State :=
  let '(cm, err) := Load fs seed (manager s) in
  let s :=
    {| manager := cm;
       reloadConsumers := reloadConsumers s;
       lastReload := lastReload s;
       signals := signals s;
       loadedAt := (loadedAt s ++ [now])%list |} in
  let s :=
    match err with
    | Some _ => s
    | None =>
        notifySubscribers
          {| manager := Notify (manager s) "Configuration reloaded!"
                          "Your changes have been applied.";
             reloadConsumers := reloadConsumers s;
             lastReload := lastReload s;
             signals := signals s;
             loadedAt := loadedAt s |}
    end in
  {| manager := manager s;
     reloadConsumers := reloadConsumers s;
     lastReload := now;
     signals := signals s;
     loadedAt := loadedAt s |}.

Definition onEvent (s : State) (op now : Z) (fs : FileSystem) (seed : nat)
    : State :=
  if Z.land op Write =? Write then
    if lastReload s + minTimeBetweenReloads <? now then reload s now fs seed
    else s
  else s.

(** The loop of [WatchConfigFileChanges], from the state its set-up
    leaves. *)
Fixpoint loop (inputs : list input) (s : State) : State :=
  match inputs with
  | [] => s
  | Event op now fs seed :: inputs' => loop inputs' (onEvent s op now fs seed)
  | EventsClosed :: _ => s
  | StopWatcher :: _ => s
  end.

(** [WatchConfigFileChanges], the watcher set up at the clock reading
    [start]. *)
Definition WatchConfigFileChanges (start : Z) (inputs : list input)
    (cm : ConfigManager) (consumers : list Chan) : State :=
  loop inputs
    {| manager := cm; reloadConsumers := consumers; lastReload := start;
       signals := []; loadedAt := [] |}.

End Watcher.

End Watch.

(** ** The serial connection ([config.go], lines 419-500, 543-580) *)

(** The connection settings of a [Config]. *)
Definition configuredPort (c : Config) : string := SerialPort (Connection c).
Definition configuredBaudRate (c : Config) : Z := BaudRate (Connection c).

Module Serial.

Record OpenOptions := {
  PortName : string;
  BaudRate : Z;
  DataBits : Z;
  StopBits : Z;
  MinimumReadSize : Z
}.

(** The zero value of the options, before the first [Start]. *)
Definition noOptions : OpenOptions :=
  {| PortName := ""; BaudRate := 0; DataBits := 0; StopBits := 0;
     MinimumReadSize := 0 |}.

(** An open port, by a number. *)
Definition Port := nat.

(** The connection fields of the [SerialIO]. *)
Record Conn := {
  connected : bool;
  connOptions : OpenOptions;
  conn : option Port
}.

(** [NewSerialIO] *)
Definition NewSerialIO : Conn :=
  {| connected := false; connOptions := noOptions; conn := None |}.

Inductive startError :=
| ErrAlreadyActive
| ErrOpen (cause : string).

Section Start.

(** [util.Linux()] and [serial.Open] are outside the repository. *)
Variable Linux : bool.
Variable Open : OpenOptions -> Port + string.

Definition Start (cm : ConfigManager) (sio : Conn)
    : outcome (Conn * option startError) :=
  if connected sio then Ok (sio, Some ErrAlreadyActive)
  else
    let minimumReadSize := if Linux then 1 else 0 in
    match cmConfig cm with
    | None => Panicked NilDereference
    | Some c =>
        let options :=
          {| PortName := configuredPort c;
             BaudRate := configuredBaudRate c;
             DataBits := 8;
             StopBits := 1;
             MinimumReadSize := minimumReadSize |} in
        match Open options with
        | inr cause =>
            Ok ({| connected := connected sio; connOptions := options;
                   conn := None |}, Some (ErrOpen cause))
        | inl port =>
            Ok ({| connected := true; connOptions := options;
                   conn := Some port |}, None)
        end
    end.

End Start.

(** [close]: the connection is closed and forgotten; closing without a
    connection is a call on a nil interface. *)
Definition close (sio : Conn) : outcome Conn :=
  match conn sio with
  | None => Panicked NilDereference
  | Some _ =>
      Ok {| connected := false; connOptions := connOptions sio; conn := None |}
  end.

(** The test of [setupOnConfigReload] on a reload: do the settings of the
    [Config] differ from the options of the last [Start]. *)
Definition connectionParamsChanged (cm : ConfigManager) (sio : Conn)
    : outcome bool :=
  match cmConfig cm with
  | None => Panicked NilDereference
  | Some c =>
      Ok (negb (String.eqb (configuredPort c) (PortName (connOptions sio)))
          || negb (configuredBaudRate c =? BaudRate (connOptions sio)))
  end.

(** [readLine]: the reader hands over the bytes read so far each time it
    meets a line feed; [stream] is what the device sends before a read
    fails, and the bytes after the last line feed are dropped with the
    failure.  [pending] is the line being read. *)
Fixpoint readFrom (pending : string) (stream : string) : list string :=
  match stream with
  | EmptyString => []
  | String c rest =>
      if Ascii.eqb c LF
      then (pending +:+ String c EmptyString) :: readFrom "" rest
      else readFrom (pending +:+ String c EmptyString) rest
  end.

Definition readLine (stream : string) : list string := readFrom "" stream.

End Serial.

(** ** The firmware's encoder interrupt
       ([deej-rotary-encoder.ino], lines 58-91) *)

Module Firmware.

(** [int] on the ATmega32U4 is 16 bits wide. *)
Definition wrap16 (z : Z) : Z := (z + 2 ^ 15) mod 2 ^ 16 - 2 ^ 15.

(** The variables of the encoder tracking. *)
Record Encoder := {
  encoderPosition : Z;
  lastState : Z;
  direction : bool;
  newDirectionAvailable : bool
}.

(** The state at power-up. *)
Definition initial : Encoder :=
  {| encoderPosition := 0; lastState := 0; direction := false;
     newDirectionAvailable := false |}.

(** [digitalRead]: HIGH is 1 and LOW is 0. *)
Definition level (high : bool) : Z := if high then 1 else 0.

(** [handleEncoder], with what the two reads of the pins return. *)
Definition handleEncoder (pinA pinB : bool) (e : Encoder) : Encoder :=
  let currentStateA := level pinA in
  let currentStateB := level pinB in
  let currentState := Z.lor (Z.shiftl currentStateA 1) currentStateB in
  let e :=
    if (lastState e =? 0) && (currentState =? 1) then
      {| encoderPosition := encoderPosition e; lastState := lastState e;
         direction := false;
         newDirectionAvailable := newDirectionAvailable e |}
    else if (lastState e =? 1) && (currentState =? 3) then
      {| encoderPosition := encoderPosition e; lastState := lastState e;
         direction := false;
         newDirectionAvailable := newDirectionAvailable e |}
    else if (lastState e =? 3) && (currentState =? 2) then
      {| encoderPosition := encoderPosition e; lastState := lastState e;
         direction := false;
         newDirectionAvailable := newDirectionAvailable e |}
    else if (lastState e =? 2) && (currentState =? 0) then
      {| encoderPosition := wrap16 (encoderPosition e - 1);
         lastState := lastState e;
         direction := false;
         newDirectionAvailable := true |}
    else if (lastState e =? 0) && (currentState =? 2) then
      {| encoderPosition := encoderPosition e; lastState := lastState e;
         direction := true;
         newDirectionAvailable := newDirectionAvailable e |}
    else if (lastState e =? 2) && (currentState =? 3) then
      {| encoderPosition := encoderPosition e; lastState := lastState e;
         direction := true;
         newDirectionAvailable := newDirectionAvailable e |}
    else if (lastState e =? 3) && (currentState =? 1) then
      {| encoderPosition := encoderPosition e; lastState := lastState e;
         direction := true;
         newDirectionAvailable := newDirectionAvailable e |}
    else if (lastState e =? 1) && (currentState =? 0) then
      {| encoderPosition := wrap16 (encoderPosition e + 1);
         lastState := lastState e;
         direction := true;
         newDirectionAvailable := true |}
    else e in
  {| encoderPosition := encoderPosition e;
     lastState := currentState;
     direction := direction e;
     newDirectionAvailable := newDirectionAvailable e |}.

(** The interrupts of a sequence of pin readings, oldest first. *)
Fixpoint interrupts (readings : list (bool * bool)) (e : Encoder) : Encoder :=
  match readings with
  | [] => e
  | (pinA, pinB) :: readings' => interrupts readings' (handleEncoder pinA pinB e)
  end.

End Firmware.

(** ** Vocabulary for the watcher, the reader and the firmware *)

(** Each reading of the clock in [times] is more than [gap] after the
    one before it. *)
Fixpoint apart (gap : Z) (times : list Z) : Prop :=
  match times with
  | earlier :: (later :: _) as rest => earlier + gap < later /\ apart gap rest
  | _ => True
  end.

(** The watcher honours an event: it is a write, and more than
    [minTimeBetweenReloads] after the last reload. *)
Definition honoured (Write : Z) (s : Watch.State) (op now : Z) : Prop :=
  Z.land op Write = Write /\
  Watch.lastReload s + Watch.minTimeBetweenReloads < now.

(** What the loop of the watcher keeps, from the reading [start] of the
    clock at its set-up. *)
Definition watched (start : Z) (s : Watch.State) : Prop :=
  apart Watch.minTimeBetweenReloads (start :: Watch.loadedAt s) /\
  Watch.lastReload s = default start (last (Watch.loadedAt s)).

(** The events the watcher should reload on, after a last reload at
    [last]: the writes that come more than 500 ms after the one before
    among them, up to the closing of the event channel or the stop
    signal; each with the reading of the clock, the disk and the order of
    the map range it meets. *)
Fixpoint honouredEvents (Write last : Z) (inputs : list Watch.input)
    : list (Z * FileSystem * nat) :=
  match inputs with
  | Watch.Event op now fs seed :: inputs' =>
      if (Z.land op Write =? Write) && (last + 500 * 1000000 <? now)
      then (now, fs, seed) :: honouredEvents Write now inputs'
      else honouredEvents Write last inputs'
  | _ => []
  end.

(** The signals a reload of [cm] on the event [e] owes to the
    subscribers: one each if the file loads, none if it does not. *)
Definition owed (cm : ConfigManager) (consumers : list Chan)
    (e : Z * FileSystem * nat) : list Chan :=
  match (Load e.1.2 e.2 cm).2 with
  | None => consumers
  | Some _ => []
  end.

(** There is a line feed in [s]. *)
Fixpoint hasLF (s : string) : bool :=
  match s with
  | EmptyString => false
  | String c s' => Ascii.eqb c LF || hasLF s'
  end.

(** The lines one after the other, as the bytes of one stream. *)
Definition joined (lines : list string) : string :=
  foldr String.append "" lines.

(** A line as the reader hands it over: [body], then one line feed. *)
Definition terminated (body : string) : string := body +:+ newline.

(** A session that can go on: the manager is loaded and has a slider
    map, the current index lies between 0 and the bound of the channel
    selection, and no update is due while the button is held. *)
Definition sessionReady (w : World) : Prop :=
  (exists c m,
     cmConfig (configManager w) = Some c /\
     SliderMappings c = Some m /\
     0 <= currentSliderIndex w <= indexBound c) /\
  (isButtonHeld w = true -> needToUpdate w = false).

(** The trace [tr'] goes on from the trace [tr]. *)
Definition extends (tr tr' : list effect) : Prop :=
  exists added, tr' = (tr ++ added)%list.

(** The readings of the pins A and B at the four interrupts of one detent
    of the encoder, from rest back to rest. *)
Definition clockwise : list (bool * bool) :=
  [(true, false); (true, true); (false, true); (false, false)].

Definition counterclockwise : list (bool * bool) :=
  [(false, true); (true, true); (true, false); (false, false)].

Definition detents (right : bool) (n : nat) : list (bool * bool) :=
  concat (replicate n (if right then clockwise else counterclockwise)).

(** The readings of a knob that leaves rest by one quarter of a detent
    and falls back, [n] times. *)
Definition nudges (right : bool) (n : nat) : list (bool * bool) :=
  concat (replicate n [(if right then (true, false) else (false, true));
                       (false, false)]).

(** The position after [n] steps, to the right or to the left. *)
Definition stepped (right : bool) (position : Z) (n : nat) : Z :=
  if right then position + Z.of_nat n else position - Z.of_nat n.

(** * Properties *)

(** ** The line grammar *)

Lemma matchFrom_inner (s : string) :
  Regexp.matchFrom expectedLinePattern false s = false.
Proof. induction s as [|c s IH]; simpl; [reflexivity | exact IH]. Qed.

(** The pattern accepts the four token lines and nothing else. *)
Lemma MatchString_expected (line : string) :
  Regexp.MatchString expectedLinePattern line = wellFormedLine line.
Proof.
  unfold Regexp.MatchString.
  destruct line as [|c rest]; [reflexivity|].
  cbn [Regexp.matchFrom]. rewrite matchFrom_inner, orb_false_r.
  unfold wellFormedLine, tokenLine, newline.
  cbn [Regexp.matchHere expectedLinePattern existsb andb String.eqb].
  destruct rest as [|c2 [|c3 rest]]; cbn [String.eqb];
    destruct (Ascii.eqb c "l"), (Ascii.eqb c "r"), (Ascii.eqb c "u"),
      (Ascii.eqb c "d"); try destruct (Ascii.eqb c2 LF); reflexivity.
Qed.

Lemma wellFormedLine_inv (line : string) :
  wellFormedLine line = true ->
  line = tokenLine "l" \/ line = tokenLine "r" \/
  line = tokenLine "u" \/ line = tokenLine "d".
Proof.
  unfold wellFormedLine. cbn [existsb].
  rewrite orb_false_r, !orb_true_iff, !String.eqb_eq. tauto.
Qed.

(** C9. A line that is not one of [l], [r], [u], [d] followed by a single
    line feed is dropped: [handleLine] returns without a panic and leaves
    the whole world as it was, that is the current index, the current
    slider name, the wanted value, the button flag, the update flag, the
    configuration and the trace, to which no send is added. *)
Theorem malformed_line_is_inert (line : string) (w : World) :
  wellFormedLine line = false ->
  handleLine line w = (Ok tt, w).
Proof.
  intros Hbad. unfold handleLine.
  rewrite MatchString_expected, Hbad. reflexivity.
Qed.

Lemma malformed_line_is_inert_witness :
  wellFormedLine ("xq" +:+ newline) = false /\
  wellFormedLine (String "l" (String "013" newline)) = false /\
  handleLine ("xq" +:+ newline) (startWorld threeSliders [0%nat])
    = (Ok tt, startWorld threeSliders [0%nat]) /\
  handleLine (String "l" (String "013" newline)) (startWorld threeSliders [0%nat])
    = (Ok tt, startWorld threeSliders [0%nat]).
Proof.
  split; [reflexivity|]. split; [reflexivity|].
  split; apply malformed_line_is_inert; reflexivity.
Defined.

(** ** The handler, token by token *)

Lemma handleLine_l : handleLine (tokenLine "l") = (rotateLeft ;; deliver).
Proof. reflexivity. Qed.

Lemma handleLine_r : handleLine (tokenLine "r") = (rotateRight ;; deliver).
Proof. reflexivity. Qed.

Lemma handleLine_d : handleLine (tokenLine "d") = (buttonDown ;; deliver).
Proof. reflexivity. Qed.

Lemma handleLine_u : handleLine (tokenLine "u") = (buttonUp ;; deliver).
Proof. reflexivity. Qed.

Ltac step :=
  cbv beta delta [bind ret gets ask setIndex setName setWanted setHeld
                  setNeed send] iota; cbn [fst snd configManager
                  sliderMoveConsumers currentSliderIndex currentSliderName
                  wantedValue isButtonHeld needToUpdate trace].

Lemma rotateLeft_outside (w : World) : sameOutside w (rotateLeft w).2.
Proof.
  unfold rotateLeft. step.
  repeat (case_match; step; simplify_eq/=); done.
Qed.

Lemma rotateRight_outside (w : World) : sameOutside w (rotateRight w).2.
Proof.
  unfold rotateRight. step.
  repeat (case_match; step; simplify_eq/=); done.
Qed.

Lemma buttonDown_outside (w : World) : sameOutside w (buttonDown w).2.
Proof. unfold buttonDown. step. done. Qed.

Lemma buttonUp_outside (w : World) : sameOutside w (buttonUp w).2.
Proof.
  unfold buttonUp. step.
  repeat (case_match; step; simplify_eq/=); done.
Qed.

(** *** The queries on a loaded manager *)

Lemma keys_lookup_in_range (keys : list string) (index : Z) :
  (index <? 0) || (index >=? Z.of_nat (length keys)) = false ->
  is_Some (keys !! Z.to_nat index).
Proof.
  intros H. apply orb_false_elim in H as [H1 H2].
  apply lookup_lt_is_Some. lia.
Qed.

Lemma getSliderMappingKeyByIndex_ok (cm : ConfigManager) (index : Z) :
  exists e, getSliderMappingKeyByIndex cm index = Ok (keyAt cm index, e).
Proof.
  unfold keyAt, getSliderMappingKeyByIndex.
  destruct (_ || _) eqn:Hr; [by eexists|].
  destruct (keys_lookup_in_range _ _ Hr) as [key ->]. by eexists.
Qed.

Lemma getSliderMappingByIndex_ok (cm : ConfigManager) (c : Config) (index : Z) :
  cmConfig cm = Some c ->
  exists e, getSliderMappingByIndex cm index = Ok (mappingAt cm index, e).
Proof.
  intros Hc. unfold mappingAt, getSliderMappingByIndex.
  destruct (_ || _) eqn:Hr; [by eexists|].
  destruct (keys_lookup_in_range _ _ Hr) as [key ->]. rewrite Hc. by eexists.
Qed.

Lemma getSliderMappingByKey_ok (cm : ConfigManager) (c : Config) (key : string) :
  cmConfig cm = Some c ->
  exists e, getSliderMappingByKey cm key = Ok (mappingOf cm key, e).
Proof.
  intros Hc. unfold mappingOf, stored, getSliderMappingByKey. rewrite Hc.
  destruct (mapGet _ _); by eexists.
Qed.

(** The slider under the current index is the one the name denotes. *)
Lemma mappingAt_keyAt (cm : ConfigManager) (index : Z) (key : string) :
  orderedSliderKeys cm !! Z.to_nat index = Some key ->
  0 <= index ->
  mappingAt cm index = mappingOf cm key /\ keyAt cm index = key.
Proof.
  intros Hk Hi.
  assert ((index <? 0) || (index >=? Z.of_nat (length (orderedSliderKeys cm)))
          = false) as Hr.
  { apply lookup_lt_Some in Hk. apply orb_false_intro; lia. }
  unfold mappingAt, keyAt, getSliderMappingByIndex, getSliderMappingKeyByIndex,
    mappingOf, stored.
  rewrite Hr, Hk. by destruct (cmConfig cm).
Qed.

(** *** Rotation outside channel selection *)

Lemma rotateLeft_volume (w : World) (c : Config) :
  cmConfig (configManager w) = Some c ->
  isButtonHeld w = false ->
  rotateLeft w =
    (Ok tt,
     withInterp w (currentSliderIndex w) (currentSliderName w)
       (lower (Volume (mappingOf (configManager w) (currentSliderName w))))
       false true).
Proof.
  intros Hc Hheld. unfold rotateLeft. step. rewrite Hheld.
  destruct (getSliderMappingByKey_ok _ _ (currentSliderName w) Hc) as [e ->].
  step. unfold lower. cbv zeta.
  destruct (F32.ltb _ _); step; unfold withInterp; by rewrite ?Hheld.
Qed.

Lemma rotateRight_volume (w : World) (c : Config) :
  cmConfig (configManager w) = Some c ->
  isButtonHeld w = false ->
  rotateRight w =
    (Ok tt,
     withInterp w (currentSliderIndex w) (currentSliderName w)
       (raise (Volume (mappingOf (configManager w) (currentSliderName w))))
       false true).
Proof.
  intros Hc Hheld. unfold rotateRight. step. rewrite Hheld.
  destruct (getSliderMappingByKey_ok _ _ (currentSliderName w) Hc) as [e ->].
  step. unfold raise. cbv zeta.
  destruct (F32.gtb _ _); step; unfold withInterp; by rewrite ?Hheld.
Qed.

(** *** Rotation during channel selection, and the button *)

Lemma wrapInt_small (z : Z) : - 2 ^ 63 <= z < 2 ^ 63 -> wrapInt z = z.
Proof. intros H. unfold wrapInt. rewrite Z.mod_small; lia. Qed.

(** The common end of both rotations while the button is held: the wanted
    value and the name are re-read for the index just reached. *)
Lemma select_tail (w : World) (c : Config) (j : Z) :
  cmConfig (configManager w) = Some c ->
  (let* (sliderMapping, _) :=
     ask (fun cm => getSliderMappingByIndex cm j) in
   setWanted (Volume sliderMapping) ;;
   let* (name, _) := ask (fun cm => getSliderMappingKeyByIndex cm j) in
   setName name) w
  = (Ok tt, withInterp w (currentSliderIndex w) (keyAt (configManager w) j)
              (Volume (mappingAt (configManager w) j))
              (isButtonHeld w) (needToUpdate w)).
Proof.
  intros Hc. step.
  destruct (getSliderMappingByIndex_ok _ _ j Hc) as [e ->].
  destruct (getSliderMappingKeyByIndex_ok (configManager w) j) as [e' ->].
  reflexivity.
Qed.

Lemma rotateRight_select (w : World) (c : Config) :
  cmConfig (configManager w) = Some c ->
  isButtonHeld w = true ->
  - 2 ^ 63 <= currentSliderIndex w + 1 < 2 ^ 63 ->
  let i := Z.min (Z.min (currentSliderIndex w + 1) 1024)
                 (mapLen (SliderMappings c)) in
  rotateRight w =
    (Ok tt,
     withInterp w i (keyAt (configManager w) i)
       (Volume (mappingAt (configManager w) i)) true (needToUpdate w)).
Proof.
  intros Hc Hheld Hi i. unfold rotateRight.
  unfold bind at 1. unfold gets at 1. rewrite Hheld.
  unfold bind at 1. unfold gets at 1.
  unfold bind at 1. unfold setIndex at 1.
  unfold bind at 1. unfold gets at 1. cbn [currentSliderIndex].
  rewrite (wrapInt_small _ Hi).
  unfold bind at 1.
  destruct (_ >? 1024) eqn:H1; [unfold setIndex at 1 | unfold ret at 1];
    (unfold bind at 1; unfold ask at 1; unfold getSliderMappingCount;
     cbn [configManager]; rewrite Hc;
     unfold bind at 1; unfold gets at 1; cbn [currentSliderIndex];
     unfold bind at 1;
     destruct (_ >? mapLen _) eqn:H2; [unfold setIndex at 1 | unfold ret at 1];
     unfold bind at 1; unfold gets at 1; cbn [currentSliderIndex];
     erewrite select_tail by (cbn [configManager]; exact Hc);
     unfold withInterp;
     cbn [configManager sliderMoveConsumers currentSliderIndex
          currentSliderName wantedValue isButtonHeld needToUpdate trace];
     match goal with
     | |- context [keyAt _ ?j] => replace j with i by lia
     end; rewrite Hheld; reflexivity).
Qed.

Lemma rotateLeft_select (w : World) (c : Config) :
  cmConfig (configManager w) = Some c ->
  isButtonHeld w = true ->
  - 2 ^ 63 <= currentSliderIndex w - 1 < 2 ^ 63 ->
  let i := Z.max (currentSliderIndex w - 1) 0 in
  rotateLeft w =
    (Ok tt,
     withInterp w i (keyAt (configManager w) i)
       (Volume (mappingAt (configManager w) i)) true (needToUpdate w)).
Proof.
  intros Hc Hheld Hi i. unfold rotateLeft.
  unfold bind at 1. unfold gets at 1. rewrite Hheld.
  unfold bind at 1. unfold gets at 1.
  unfold bind at 1. unfold setIndex at 1.
  unfold bind at 1. unfold gets at 1. cbn [currentSliderIndex].
  rewrite (wrapInt_small _ Hi).
  unfold bind at 1.
  destruct (_ <? 0) eqn:H1; [unfold setIndex at 1 | unfold ret at 1];
    (unfold bind at 1; unfold gets at 1; cbn [currentSliderIndex];
     erewrite select_tail by (cbn [configManager]; exact Hc);
     unfold withInterp;
     cbn [configManager sliderMoveConsumers currentSliderIndex
          currentSliderName wantedValue isButtonHeld needToUpdate trace];
     match goal with
     | |- context [keyAt _ ?j] => replace j with i by lia
     end; rewrite Hheld; reflexivity).
Qed.

Lemma buttonDown_eq (w : World) :
  buttonDown w =
    (Ok tt,
     withInterp w (currentSliderIndex w) (currentSliderName w)
       (wantedValue w) true false).
Proof. reflexivity. Qed.

Lemma buttonUp_eq (w : World) :
  buttonUp w =
    (Ok tt,
     withInterp w (currentSliderIndex w)
       (keyAt (configManager w) (currentSliderIndex w))
       (wantedValue w) false false).
Proof.
  unfold buttonUp. step.
  destruct (getSliderMappingKeyByIndex_ok (configManager w)
              (currentSliderIndex w)) as [e ->].
  reflexivity.
Qed.

(** *** Delivery *)

Lemma deliver_quiet (w : World) (c : Config) :
  cmConfig (configManager w) = Some c ->
  emits w = false ->
  deliver w = (Ok tt, w).
Proof.
  intros Hc He. unfold deliver. step.
  destruct (getSliderMappingByIndex_ok _ _ (currentSliderIndex w) Hc) as [e ->].
  unfold emits in He. rewrite He. reflexivity.
Qed.

Lemma withVolume_idem (sm : SliderMapping) (v : float32) :
  withVolume (withVolume sm v) v = withVolume sm v.
Proof. reflexivity. Qed.

Lemma withVolume_same (sm : SliderMapping) : withVolume sm (Volume sm) = sm.
Proof. by destruct sm. Qed.

Lemma withEffects_nil (w : World) : withEffects w (configManager w) [] = w.
Proof. destruct w. unfold withEffects. simpl. by rewrite app_nil_r. Qed.

Lemma deliverTo_loop (ev : SliderMoveEvent) (l : list Chan) :
  forall (w : World) (c : Config) (m : gmap string SliderMapping),
  cmConfig (configManager w) = Some c ->
  SliderMappings c = Some m ->
  let wb := withVolume (mappingOf (configManager w) (SliderID ev))
                       (PercentValue ev) in
  forEach l (deliverTo ev) w =
    (Ok tt,
     withEffects w
       (match l with
        | [] => configManager w
        | _ :: _ =>
            storeMapping (configManager w) c (<[SliderID ev := wb]> m)
        end)
       (flat_map (fun ch => [Sent ch ev; Updated (SliderID ev) wb]) l)).
Proof.
  induction l as [|ch l IH]; intros w c m Hc Hm wb.
  - cbn [forEach flat_map]. unfold ret. by rewrite withEffects_nil.
  - cbn [forEach flat_map].
    unfold bind at 1. unfold deliverTo at 1. cbn [forEach].
    unfold bind at 1. unfold bind at 1. unfold send at 1.
    unfold bind at 1. unfold ask at 1. cbn [configManager record].
    destruct (getSliderMappingByKey_ok _ _ (SliderID ev) Hc) as [e ->].
    unfold update at 1. cbn [configManager record].
    unfold UpdateSliderMappingByKey. rewrite Hc, Hm.
    unfold ret at 1. fold wb.
    set (m1 := <[SliderID ev := wb]> m).
    set (w1 := record _ _ _).
    assert (cmConfig (configManager w1) = Some (withSliderMappings c (Some m1)))
      as Hc1 by reflexivity.
    rewrite (IH w1 _ m1 Hc1 eq_refl). cbv zeta.
    assert (mappingOf (configManager w1) (SliderID ev) = wb) as ->.
    { unfold mappingOf, stored. rewrite Hc1. cbn [SliderMappings withSliderMappings mapGet].
      unfold m1. by rewrite lookup_insert_eq. }
    replace (withVolume wb (PercentValue ev)) with wb by reflexivity.
    f_equal. unfold withEffects, w1, record.
    cbn [configManager sliderMoveConsumers currentSliderIndex
         currentSliderName wantedValue isButtonHeld needToUpdate trace].
    f_equal.
    + destruct l; [reflexivity|]. unfold m1.
      rewrite insert_insert_eq. reflexivity.
    + by rewrite <- !app_assoc.
Qed.

Lemma deliver_emits (w : World) (c : Config) (m : gmap string SliderMapping) :
  cmConfig (configManager w) = Some c ->
  SliderMappings c = Some m ->
  emits w = true ->
  deliver w = (Ok tt, withEffects w (afterWriteBacks w c m) (deliveryTrace w)).
Proof.
  intros Hc Hm He. unfold deliver. step.
  destruct (getSliderMappingByIndex_ok _ _ (currentSliderIndex w) Hc) as [e ->].
  unfold emits in He. rewrite He. cbn [length Nat.ltb Nat.leb].
  exact (deliverTo_loop (moveEventOf w) (sliderMoveConsumers w) w c m Hc Hm).
Qed.

(** ** Emission and write-back *)



Lemma writeBacks_deliveryTrace (w : World) :
  writeBacks (deliveryTrace w) =
    map (fun _ => (currentSliderName w, writtenBack w)) (sliderMoveConsumers w).
Proof.
  unfold deliveryTrace, writeBacks.
  induction (sliderMoveConsumers w) as [|ch l IH]; [reflexivity|].
  cbn [flat_map map app]. by rewrite IH.
Qed.

(** What a rotation token does outside channel selection, on a manager
    with a slider map: the target is computed from the mapping of the
    current name and compared with the mapping under the current index. *)
Lemma rotation_run (right : bool) (w : World) (c : Config)
    (m : gmap string SliderMapping) :
  cmConfig (configManager w) = Some c ->
  SliderMappings c = Some m ->
  isButtonHeld w = false ->
  let t := target right
             (Volume (mappingOf (configManager w) (currentSliderName w))) in
  let w1 := withInterp w (currentSliderIndex w) (currentSliderName w)
              t false true in
  handleLine (rotation right) w =
    (Ok tt,
     if F32.neqb t (Volume (mappingAt (configManager w) (currentSliderIndex w)))
     then withEffects w1 (afterWriteBacks w1 c m) (deliveryTrace w1)
     else w1).
Proof.
  intros Hc Hm Hheld t w1.
  assert (handleLine (rotation right) w = deliver w1) as ->.
  { unfold w1, t, rotation, target. destruct right.
    - rewrite handleLine_r. unfold bind.
      by rewrite (rotateRight_volume w c Hc Hheld).
    - rewrite handleLine_l. unfold bind.
      by rewrite (rotateLeft_volume w c Hc Hheld). }
  assert (emits w1
          = F32.neqb t (Volume (mappingAt (configManager w)
                                  (currentSliderIndex w)))) as He
    by reflexivity.
  destruct (F32.neqb _ _).
  - by apply deliver_emits.
  - by apply (deliver_quiet w1 c).
Qed.



(** C3, as the code has it.  Outside channel selection, on a
    configuration with a slider map, when the target a rotation token
    computes differs from the stored volume the handler compares it with
    (that of the slider under the current index), the handler goes
    through the subscribers in subscription order and, for each, first
    sends the event and then writes the new value back under the current
    name: the trace grows by one send followed by one write-back per
    subscriber.  Without a subscriber the manager is left as it was; with
    one or more the slider of that name ends with the new volume and the
    manager is marked modified. *)
Theorem write_back_follows_each_send (right : bool) (w : World) (c : Config)
    (m : gmap string SliderMapping) :
  cmConfig (configManager w) = Some c ->
  SliderMappings c = Some m ->
  isButtonHeld w = false ->
  let before := mappingOf (configManager w) (currentSliderName w) in
  let t := target right (Volume before) in
  F32.neqb t (Volume (mappingAt (configManager w) (currentSliderIndex w)))
    = true ->
  let ev := {| SliderID := currentSliderName w; PercentValue := t |} in
  let wb := withVolume before t in
  exists w',
    handleLine (rotation right) w = (Ok tt, w') /\
    trace w' =
      (trace w ++
       flat_map (fun ch => [Sent ch ev; Updated (currentSliderName w) wb])
                (sliderMoveConsumers w))%list /\
    (sliderMoveConsumers w = [] -> configManager w' = configManager w) /\
    (sliderMoveConsumers w <> [] ->
       stored (configManager w') (currentSliderName w) = Some wb /\
       configModified (configManager w') = true).
Proof.
  intros Hc Hm Hheld before t Hne ev wb.
  pose proof (rotation_run right w c m Hc Hm Hheld) as Hrun. cbv zeta in Hrun.
  fold before t in Hrun. rewrite Hne in Hrun. eexists. split; [exact Hrun|].
  cbn [withEffects trace configManager].
  unfold deliveryTrace, afterWriteBacks, moveEventOf, writtenBack.
  cbn [withInterp trace configManager currentSliderName wantedValue
       sliderMoveConsumers].
  fold before ev wb.
  split; [reflexivity|]. split.
  - by intros ->.
  - intros Hsome. destruct (sliderMoveConsumers w); [done|].
    unfold stored, storeMapping.
    cbn [cmConfig configModified SliderMappings withSliderMappings mapGet].
    by rewrite lookup_insert_eq.
Qed.



Lemma write_back_follows_each_send_witness :
  (exists w',
     handleLine (rotation false) (onMaster [0; 1]%nat) = (Ok tt, w') /\
     trace w' =
       [Sent 0%nat {| SliderID := "master"; PercentValue := F32.dec 49 100 |};
        Updated "master" (withVolume half (F32.dec 49 100));
        Sent 1%nat {| SliderID := "master"; PercentValue := F32.dec 49 100 |};
        Updated "master" (withVolume half (F32.dec 49 100))] /\
     stored (configManager w') "master"
       = Some (withVolume half (F32.dec 49 100)) /\
     configModified (configManager w') = true) /\
  (exists w',
     handleLine (rotation true) (startWorld threeSliders [0%nat]) = (Ok tt, w') /\
     trace w' =
       [Sent 0%nat {| SliderID := ""; PercentValue := F32.dec 1 100 |};
        Updated "" (withVolume zeroSliderMapping (F32.dec 1 100))] /\
     stored (configManager w') ""
       = Some (withVolume zeroSliderMapping (F32.dec 1 100))).
Proof.
  split.
  - destruct (write_back_follows_each_send false (onMaster [0; 1]%nat) _ _
                eq_refl eq_refl eq_refl)
      as (w' & Hrun & Htrace & _ & Hend); [vm_compute; reflexivity|].
    exists w'. split; [exact Hrun|].
    split; [rewrite Htrace; vm_compute; reflexivity|].
    destruct Hend as [Hst Hmod]; [discriminate|].
    split; [vm_compute in Hst |- *; exact Hst | exact Hmod].
  - destruct (write_back_follows_each_send true
                (startWorld threeSliders [0%nat]) _ _
                eq_refl eq_refl eq_refl)
      as (w' & Hrun & Htrace & _ & Hend); [vm_compute; reflexivity|].
    exists w'. split; [exact Hrun|].
    split; [rewrite Htrace; vm_compute; reflexivity|].
    destruct Hend as [Hst _]; [discriminate|].
    vm_compute in Hst |- *. exact Hst.
Defined.

(** C3 as the specification words it fails on the code.  Without a
    subscriber a right turn on master computes 0.51 against the stored
    0.5, yet nothing is written back and the manager stays unmodified;
    with the two subscribers 7 and 9 the value is written back twice, each
    time after the send to the subscriber, never before the first send.
    On a [Config] without a slider map, as a failed reload leaves it, the
    write-back after the first send panics and nothing is written. *)
Lemma write_back_once_before_broadcast_fails :
  (let w' := (handleLine (rotation true) (onMaster [])).2 in
   (handleLine (rotation true) (onMaster [])).1 = Ok tt /\
   wantedValue w' = F32.dec 51 100 /\
   needToUpdate w' = true /\
   F32.neqb (wantedValue w') (Volume half) = true /\
   writeBacks (trace w') = [] /\
   configManager w' = threeSliders) /\
  (let w' := (handleLine (rotation true) (onMaster [7; 9]%nat)).2 in
   let ev := {| SliderID := "master"; PercentValue := F32.dec 51 100 |} in
   let wb := withVolume half (F32.dec 51 100) in
   trace w' = [Sent 7%nat ev; Updated "master" wb;
               Sent 9%nat ev; Updated "master" wb]) /\
  (let w := withInterp (startWorld afterFailedReload [7; 9]%nat)
              0 "master" F32.zero false false in
   let w' := (handleLine (rotation true) w).2 in
   (handleLine (rotation true) w).1 = Panicked NilMapWrite /\
   trace w' =
     [Sent 7%nat {| SliderID := "master"; PercentValue := F32.dec 1 100 |}] /\
   configManager w' = afterFailedReload).
Proof. vm_compute. repeat split; reflexivity. Qed.

(** ** The frame of the write-back *)

Lemma stored_storeMapping (cm : ConfigManager) (c : Config)
    (m : gmap string SliderMapping) (key : string) :
  stored (storeMapping cm c m) key = m !! key.
Proof. reflexivity. Qed.

Lemma handleLine_split (line : string) (w : World) :
  handleLine line w = (Ok tt, w) \/
  exists interp : M unit,
    sameOutside w (interp w).2 /\
    handleLine line w = (interp ;; deliver) w.
Proof.
  destruct (wellFormedLine line) eqn:Hwf.
  - right.
    destruct (wellFormedLine_inv line Hwf) as [-> | [-> | [-> | ->]]].
    + exists rotateLeft. split; [apply rotateLeft_outside | by rewrite handleLine_l].
    + exists rotateRight. split; [apply rotateRight_outside | by rewrite handleLine_r].
    + exists buttonUp. split; [apply buttonUp_outside | by rewrite handleLine_u].
    + exists buttonDown. split; [apply buttonDown_outside | by rewrite handleLine_d].
  - left. unfold handleLine. by rewrite MatchString_expected, Hwf.
Qed.

Lemma deliverTo_name (ev : SliderMoveEvent) (l : list Chan) (w : World) :
  currentSliderName (forEach l (deliverTo ev) w).2 = currentSliderName w.
Proof.
  revert w. induction l as [|ch l IH]; intros w; [reflexivity|].
  cbn [forEach]. unfold bind at 1.
  destruct (deliverTo ev ch w) as [[[]|p] w1] eqn:Hbody.
  - rewrite IH. unfold deliverTo in Hbody. cbn [forEach] in Hbody.
    unfold bind, send, ask, update, ret in Hbody. cbn [configManager record] in Hbody.
    repeat case_match; simplify_eq/=; done.
  - cbn [snd]. unfold deliverTo in Hbody. cbn [forEach] in Hbody.
    unfold bind, send, ask, update, ret in Hbody. cbn [configManager record] in Hbody.
    repeat case_match; simplify_eq/=; done.
Qed.

Lemma deliver_name (w : World) :
  currentSliderName (deliver w).2 = currentSliderName w.
Proof.
  unfold deliver. step.
  destruct (getSliderMappingByIndex _ _) as [[sm e]|p]; [|reflexivity].
  destruct (_ && _); cbn [length Nat.ltb Nat.leb]; [|reflexivity].
  apply (deliverTo_name (moveEventOf w)).
Qed.

(** Delivery on a nil slider map: the first write-back panics. *)
Lemma deliverTo_nil_map (ev : SliderMoveEvent) (l : list Chan) (w : World)
    (c : Config) :
  cmConfig (configManager w) = Some c ->
  SliderMappings c = None ->
  (forEach l (deliverTo ev) w).2 =
    withEffects w (configManager w)
      match l with
      | [] => []
      | ch :: _ => [Sent ch ev]
      end.
Proof.
  intros Hc Hm. destruct l as [|ch l]; cbn [forEach].
  - unfold ret. cbn [snd]. by rewrite withEffects_nil.
  - unfold bind at 1. unfold deliverTo at 1. cbn [forEach].
    unfold bind at 1. unfold bind at 1. unfold send at 1.
    unfold bind at 1. unfold ask at 1. cbn [configManager record].
    destruct (getSliderMappingByKey_ok _ _ (SliderID ev) Hc) as [e ->].
    unfold update at 1. cbn [configManager record].
    unfold UpdateSliderMappingByKey. rewrite Hc, Hm. reflexivity.
Qed.

Lemma deliver_nil_map (w : World) (c : Config) :
  cmConfig (configManager w) = Some c ->
  SliderMappings c = None ->
  emits w = true ->
  (deliver w).2 =
    withEffects w (configManager w)
      match sliderMoveConsumers w with
      | [] => []
      | ch :: _ => [Sent ch (moveEventOf w)]
      end.
Proof.
  intros Hc Hm He. unfold deliver. step.
  destruct (getSliderMappingByIndex_ok _ _ (currentSliderIndex w) Hc) as [e ->].
  unfold emits in He. rewrite He. cbn [length Nat.ltb Nat.leb].
  exact (deliverTo_nil_map (moveEventOf w) (sliderMoveConsumers w) w c Hc Hm).
Qed.

(** Delivery on a manager without a [Config]: the first query that
    dereferences the pointer panics. *)
Lemma deliverTo_unloaded (ev : SliderMoveEvent) (l : list Chan) (w : World) :
  cmConfig (configManager w) = None ->
  configManager (forEach l (deliverTo ev) w).2 = configManager w.
Proof.
  intros Hc. destruct l as [|ch l]; cbn [forEach]; [reflexivity|].
  unfold bind at 1. unfold deliverTo at 1. cbn [forEach].
  unfold bind at 1. unfold bind at 1. unfold send at 1.
  unfold bind at 1. unfold ask at 1. cbn [configManager record].
  unfold getSliderMappingByKey. rewrite Hc. reflexivity.
Qed.

Lemma deliver_unloaded (w : World) :
  cmConfig (configManager w) = None ->
  configManager (deliver w).2 = configManager w.
Proof.
  intros Hc. unfold deliver. step.
  destruct (getSliderMappingByIndex _ _) as [[sm e]|p]; [|reflexivity].
  destruct (_ && _); cbn [length Nat.ltb Nat.leb]; [|reflexivity].
  exact (deliverTo_unloaded (moveEventOf w) (sliderMoveConsumers w) w Hc).
Qed.

(** The manager after a delivery, whatever its outcome: as before, or
    with the written-back mapping stored under the current name. *)
Lemma deliver_manager (w : World) :
  configManager (deliver w).2 = configManager w \/
  exists c m,
    cmConfig (configManager w) = Some c /\
    SliderMappings c = Some m /\
    configManager (deliver w).2 =
      storeMapping (configManager w) c
        (<[currentSliderName w := writtenBack w]> m).
Proof.
  destruct (cmConfig (configManager w)) as [c|] eqn:Hc;
    [|left; by apply deliver_unloaded].
  destruct (emits w) eqn:He; [|left; by rewrite (deliver_quiet w c Hc He)].
  destruct (SliderMappings c) as [m|] eqn:Hm;
    [|left; by rewrite (deliver_nil_map w c Hc Hm He)].
  rewrite (deliver_emits w c m Hc Hm He). cbn [snd withEffects configManager].
  unfold afterWriteBacks. destruct (sliderMoveConsumers w); [by left|].
  right. by exists c, m.
Qed.

Lemma deliver_frame (w : World) :
  let cm := configManager w in
  let cm' := configManager (deliver w).2 in
  let name := currentSliderName w in
  (forall key,
     Muted (mappingOf cm' key) = Muted (mappingOf cm key) /\
     Targets (mappingOf cm' key) = Targets (mappingOf cm key)) /\
  (forall key, key <> name -> stored cm' key = stored cm key) /\
  (forall sm, stored cm name = Some sm ->
     exists v, stored cm' name = Some (withVolume sm v)) /\
  orderedSliderKeys cm' = orderedSliderKeys cm.
Proof.
  intros cm cm' name. subst cm cm' name.
  destruct (deliver_manager w) as [-> | (c & m & Hc & Hm & ->)].
  { split; [done|]. split; [done|]. split; [|done].
    intros sm Hsm. exists (Volume sm). by rewrite withVolume_same. }
  assert (forall key, key <> currentSliderName w ->
            stored (storeMapping (configManager w) c
                      (<[currentSliderName w := writtenBack w]> m)) key
            = stored (configManager w) key) as Hother.
  { intros key Hkey. rewrite stored_storeMapping, lookup_insert_ne by done.
    unfold stored. by rewrite Hc, Hm. }
  split; [|split; [exact Hother|split; [|done]]].
  - intros key. destruct (decide (key = currentSliderName w)) as [-> | Hne].
    + unfold mappingOf at 1 3. by rewrite stored_storeMapping, lookup_insert_eq.
    + unfold mappingOf. by rewrite (Hother key Hne).
  - intros sm Hsm. exists (wantedValue w).
    rewrite stored_storeMapping, lookup_insert_eq.
    unfold writtenBack, mappingOf. by rewrite Hsm.
Qed.

(** C10. Whatever the line and whatever the outcome, the write-backs of
    [handleLine] change at most the [Volume] of the mapping under the name
    the handler ends on: under every name the [Muted] and [Targets] read
    afterwards are those read before (those of the zero mapping where the
    name is not stored), the mapping stored under any other name is the
    one stored before, a mapping stored under the name itself is stored
    afterwards with at most another [Volume], and the ordered key sequence
    is unchanged. *)
Theorem write_back_frame (line : string) (w : World) :
  let cm := configManager w in
  let cm' := configManager (handleLine line w).2 in
  let name := currentSliderName (handleLine line w).2 in
  (forall key,
     Muted (mappingOf cm' key) = Muted (mappingOf cm key) /\
     Targets (mappingOf cm' key) = Targets (mappingOf cm key)) /\
  (forall key, key <> name -> stored cm' key = stored cm key) /\
  (forall sm, stored cm name = Some sm ->
     exists sm',
       stored cm' name = Some sm' /\
       Muted sm' = Muted sm /\ Targets sm' = Targets sm) /\
  orderedSliderKeys cm' = orderedSliderKeys cm.
Proof.
  intros cm cm' name. subst cm cm' name.
  assert (forall w0 : World,
    (forall key,
       Muted (mappingOf (configManager w0) key)
         = Muted (mappingOf (configManager w0) key) /\
       Targets (mappingOf (configManager w0) key)
         = Targets (mappingOf (configManager w0) key)) /\
    (forall key, key <> currentSliderName w0 ->
       stored (configManager w0) key = stored (configManager w0) key) /\
    (forall sm, stored (configManager w0) (currentSliderName w0) = Some sm ->
       exists sm',
         stored (configManager w0) (currentSliderName w0) = Some sm' /\
         Muted sm' = Muted sm /\ Targets sm' = Targets sm) /\
    orderedSliderKeys (configManager w0) = orderedSliderKeys (configManager w0))
    as Hsame.
  { intros w0. split; [done|]. split; [done|]. split; [|done].
    intros sm Hsm. by exists sm. }
  destruct (handleLine_split line w) as [-> | (interp & Hout & ->)].
  { cbn [snd]. apply Hsame. }
  unfold bind. destruct (interp w) as [[[]|p] w1] eqn:Hi; cbn [snd] in *.
  - destruct Hout as (Hcm & _ & _). rewrite <- Hcm.
    rewrite deliver_name.
    destruct (deliver_frame w1) as (Hfields & Hothers & Hname & Hkeys).
    split; [exact Hfields|]. split; [exact Hothers|]. split; [|exact Hkeys].
    intros sm Hsm. destruct (Hname sm Hsm) as [v Hv].
    by exists (withVolume sm v).
  - destruct Hout as (Hcm & _ & _). rewrite <- Hcm. apply Hsame.
Qed.

Lemma write_back_frame_witness :
  let w' := (handleLine (rotation true) (onMaster [0%nat])).2 in
  (exists sm',
     stored (configManager w') "master" = Some sm' /\
     Muted sm' = false /\ Targets sm' = []) /\
  (forall key, key <> "master" ->
     stored (configManager w') key = stored threeSliders key) /\
  orderedSliderKeys (configManager w') = ["master"; "game"; "chat"].
Proof.
  destruct (write_back_frame (rotation true) (onMaster [0%nat]))
    as (_ & Hothers & Hname & Hkeys).
  split; [exact (Hname half eq_refl)|]. split; [exact Hothers | exact Hkeys].
Defined.

(** ** Channel selection *)

Lemma handleLines_app (l1 l2 : list string) (w : World) :
  handleLines (l1 ++ l2) w = (handleLines l1 ;; handleLines l2) w.
Proof.
  revert w. induction l1 as [|line l1 IH]; intros w; [reflexivity|].
  cbn [app handleLines]. unfold bind.
  destruct (handleLine line w) as [[[]|p] w1]; [|reflexivity].
  rewrite IH. reflexivity.
Qed.

Lemma deliver_idle (w : World) (c : Config) :
  cmConfig (configManager w) = Some c ->
  needToUpdate w = false ->
  deliver w = (Ok tt, w).
Proof.
  intros Hc Hneed. apply (deliver_quiet w c Hc). unfold emits. by rewrite Hneed.
Qed.

(** One turn while the button is held. *)
Lemma held_turn (right : bool) (w : World) (c : Config) :
  cmConfig (configManager w) = Some c ->
  isButtonHeld w = true ->
  needToUpdate w = false ->
  - 2 ^ 63 < currentSliderIndex w < 2 ^ 63 - 1 ->
  let i := turned right (mapLen (SliderMappings c)) (currentSliderIndex w) in
  handleLine (rotation right) w =
    (Ok tt,
     withInterp w i (keyAt (configManager w) i)
       (Volume (mappingAt (configManager w) i)) true false).
Proof.
  intros Hc Hheld Hneed Hi i. unfold rotation. destruct right.
  - rewrite handleLine_r. unfold bind.
    rewrite (rotateRight_select w c Hc Hheld) by lia. cbv zeta.
    rewrite Hneed. by apply (deliver_idle _ c).
  - rewrite handleLine_l. unfold bind.
    rewrite (rotateLeft_select w c Hc Hheld) by lia. cbv zeta.
    rewrite Hneed. by apply (deliver_idle _ c).
Qed.

Lemma mapLen_nonneg {V} (m : option (gmap string V)) : 0 <= mapLen m.
Proof. destruct m; simpl; lia. Qed.

Lemma selected_succ (right : bool) (c : Config) (i : Z) (n : nat) :
  0 <= i <= indexBound c ->
  selected right c (turned right (mapLen (SliderMappings c)) i) n
  = selected right c i (S n).
Proof.
  unfold selected, turned, indexBound.
  pose proof (mapLen_nonneg (SliderMappings c)). destruct right; lia.
Qed.

Lemma turned_in_range (right : bool) (c : Config) (i : Z) :
  0 <= i <= indexBound c ->
  0 <= turned right (mapLen (SliderMappings c)) i <= indexBound c.
Proof.
  unfold turned, indexBound.
  pose proof (mapLen_nonneg (SliderMappings c)). destruct right; lia.
Qed.

(** [n] turns while the button is held. *)
Lemma held_turns (right : bool) (c : Config) (n : nat) :
  forall w : World,
  cmConfig (configManager w) = Some c ->
  isButtonHeld w = true ->
  needToUpdate w = false ->
  0 <= currentSliderIndex w <= indexBound c ->
  exists name wanted,
    handleLines (repeat (rotation right) n) w =
      (Ok tt,
       withInterp w (selected right c (currentSliderIndex w) n)
         name wanted true false).
Proof.
  induction n as [|n IH]; intros w Hc Hheld Hneed Hi.
  - exists (currentSliderName w), (wantedValue w).
    cbn [repeat handleLines]. unfold ret. f_equal.
    unfold selected, withInterp. destruct w; cbn in *. subst.
    f_equal. destruct right; lia.
  - cbn [repeat handleLines]. unfold bind.
    assert (indexBound c <= 1024) as Hb by (unfold indexBound; lia).
    rewrite (held_turn right w c Hc Hheld Hneed) by lia. cbv zeta.
    set (w1 := withInterp _ _ _ _ _ _).
    destruct (IH w1) as (name & wanted & ->); try done.
    { by apply turned_in_range. }
    exists name, wanted. f_equal. unfold w1.
    cbn [withInterp currentSliderIndex]. rewrite selected_succ by done.
    reflexivity.
Qed.

(** C6, as the code has it.  From a current index between 0 and the
    bound, which is the configured slider count capped at 1024, a press,
    [n] turns and a release are handled without a panic and leave the
    index at the minimum of index plus [n] and the bound for right turns,
    and at the maximum of index minus [n] and 0 for left turns; the
    button is released again, the current name is the key the ordered
    sequence has at that index (empty where it has none), nothing is sent
    and the manager is untouched. *)
Theorem channel_selection (right : bool) (w : World) (c : Config) (n : nat) :
  cmConfig (configManager w) = Some c ->
  0 <= currentSliderIndex w <= indexBound c ->
  exists w',
    handleLines (pressTurnRelease right n) w = (Ok tt, w') /\
    currentSliderIndex w' = selected right c (currentSliderIndex w) n /\
    currentSliderName w' = keyAt (configManager w) (currentSliderIndex w') /\
    isButtonHeld w' = false /\
    sameOutside w w'.
Proof.
  intros Hc Hi. unfold pressTurnRelease.
  cbn [handleLines]. unfold bind at 1.
  rewrite handleLine_d. unfold bind at 1. rewrite buttonDown_eq.
  rewrite (deliver_idle _ c) by done.
  set (w1 := withInterp _ _ _ _ _ _).
  rewrite handleLines_app. unfold bind at 1.
  destruct (held_turns right c n w1) as (name & wanted & ->); try done.
  cbn [handleLines]. unfold bind at 1.
  rewrite handleLine_u. unfold bind at 1. rewrite buttonUp_eq.
  rewrite (deliver_idle _ c) by done.
  unfold ret. eexists. split; [reflexivity|].
  cbn [withInterp currentSliderIndex currentSliderName isButtonHeld
       configManager w1].
  repeat split; reflexivity.
Qed.

Lemma channel_selection_witness :
  exists w',
    handleLines (pressTurnRelease true 5) (onMaster [0%nat]) = (Ok tt, w') /\
    currentSliderIndex w' = 3 /\
    currentSliderName w' = "" /\
    isButtonHeld w' = false /\
    sameOutside (onMaster [0%nat]) w'.
Proof.
  destruct (channel_selection true (onMaster [0%nat])
              (withSliderMappings defaultConfig
                 (Some (<["master" := half]>
                          (<["game" := half]> (<["chat" := half]> ∅))))) 5)
    as (w' & Hrun & Hidx & Hname & Hheld & Hout);
    [reflexivity | vm_compute; split; discriminate |].
  exists w'. split; [exact Hrun|].
  split; [rewrite Hidx; vm_compute; reflexivity|].
  split; [rewrite Hname, Hidx; vm_compute; reflexivity|].
  split; [exact Hheld | exact Hout].
Defined.

(** C6 as the specification words it fails on the code.  With 1025
    sliders and the index at 1024 one right turn leaves the index at
    1024, not at the slider count 1025: the code caps the index at 1024
    before it compares it with the count.  And an index beyond the count
    (5 with three sliders, as after a reload with fewer sliders) is not
    brought back by a press and a release without a turn. *)
Lemma channel_selection_ceiling_fails :
  (let w := withInterp (startWorld (manySliders 1025) []) 1024 "1024"
              F32.zero false false in
   getSliderMappingCount (configManager w) = Ok 1025 /\
   currentSliderIndex (handleLines (pressTurnRelease true 1) w).2 = 1024 /\
   currentSliderIndex (handleLines (pressTurnRelease true 1) w).2
     <> Z.min (1024 + 1) 1025) /\
  (let w := withInterp (startWorld threeSliders []) 5 "" F32.zero false false in
   getSliderMappingCount (configManager w) = Ok 3 /\
   currentSliderIndex (handleLines (pressTurnRelease true 0) w).2 = 5 /\
   currentSliderIndex (handleLines (pressTurnRelease true 0) w).2
     <> Z.min (5 + 0) 3).
Proof. vm_compute. repeat split; discriminate. Qed.

(** ** The start-up scenario *)

(** C7 on the code.  The session starts with the index 0 and the empty
    name: nothing resolves the name before the first release of the
    button or the first turn of a channel selection.  The first right
    turn therefore reads the zero mapping under the empty name, computes
    0.01, compares it with master's 0.5 under index 0, sends one event
    for the empty name with 0.01 and stores a new slider under the empty
    name; master keeps 0.5. *)
Theorem first_turn_is_not_on_master :
  let w' := (handleLine (rotation true) (startWorld threeSliders [0%nat])).2 in
  (handleLine (rotation true) (startWorld threeSliders [0%nat])).1 = Ok tt /\
  currentSliderName w' = "" /\
  wantedValue w' = F32.dec 1 100 /\
  trace w' =
    [Sent 0%nat {| SliderID := ""; PercentValue := F32.dec 1 100 |};
     Updated "" (withVolume zeroSliderMapping (F32.dec 1 100))] /\
  stored (configManager w') "master" = Some half /\
  stored (configManager w') "" =
    Some (withVolume zeroSliderMapping (F32.dec 1 100)) /\
  stored threeSliders "" = None.
Proof. vm_compute. repeat split; reflexivity. Qed.

(** The rest of the scenario holds once the name has been resolved: from
    master selected, a right turn sends master at 0.51, a press, a right
    turn and a release select game and send nothing, and a left turn
    then sends game at 0.49. *)
Lemma scenario_from_master :
  let lines := [rotation true; tokenLine "d"; rotation true; tokenLine "u";
                rotation false] in
  let w' := (handleLines lines (onMaster [0%nat])).2 in
  (handleLines lines (onMaster [0%nat])).1 = Ok tt /\
  currentSliderIndex w' = 1 /\
  currentSliderName w' = "game" /\
  sends (trace w') =
    [(0%nat, {| SliderID := "master"; PercentValue := F32.dec 51 100 |});
     (0%nat, {| SliderID := "game"; PercentValue := F32.dec 49 100 |})] /\
  stored (configManager w') "master" = Some (withVolume half (F32.dec 51 100)) /\
  stored (configManager w') "game" = Some (withVolume half (F32.dec 49 100)) /\
  stored (configManager w') "chat" = Some half.
Proof. vm_compute. repeat split; reflexivity. Qed.

(** The order of the sliders is the order of a range over the decoded
    map, not the order of the file: the same file gives master the index
    0 under one order of the range and the index 2 under another. *)
Lemma slider_order_is_the_range_order :
  let load seed :=
    (Load (onDisk (Opened scenarioFile)) seed (NewConfigManager "config.yaml")).1 in
  orderedSliderKeys (load 4%nat) = ["master"; "game"; "chat"] /\
  orderedSliderKeys (load 0%nat) = ["game"; "chat"; "master"] /\
  cmConfig (load 4%nat) = cmConfig threeSliders /\
  cmConfig (load 0%nat) = cmConfig threeSliders.
Proof. vm_compute. repeat split; reflexivity. Qed.

(** ** Loading *)

Lemma insertAt_perm {A} (n : nat) (x : A) (l : list A) :
  insertAt n x l ≡ₚ x :: l.
Proof.
  revert n. induction l as [|y l IH]; intros [|n]; cbn [insertAt]; try done.
  rewrite IH. apply Permutation_swap.
Qed.

(** Ranging over a map visits the keys of the map, each once. *)
Lemma shuffle_perm {A} (l : list A) (seed : nat) : shuffle seed l ≡ₚ l.
Proof.
  revert seed. induction l as [|x l IH]; intros seed; [done|].
  cbn [shuffle]. rewrite insertAt_perm. by rewrite IH.
Qed.

Lemma insertAt_app {A} (l1 l2 : list A) (x : A) :
  insertAt (length l1) x (l1 ++ l2) = (l1 ++ x :: l2)%list.
Proof. induction l1 as [|y l1 IH]; cbn; [|rewrite IH]; reflexivity. Qed.

(** And every order of the keys is the range of some seed: the seed rules
    no order out. *)
Lemma shuffle_complete {A} (l : list A) :
  forall l', l ≡ₚ l' -> exists seed, shuffle seed l = l'.
Proof.
  induction l as [|x l IH]; intros l' Hperm.
  - apply Permutation_nil_l in Hperm. subst l'. exists 0%nat. reflexivity.
  - assert (x ∈ l') as Hin by (rewrite <- Hperm; apply list_elem_of_here).
    apply list_elem_of_split in Hin as (l1 & l2 & ->).
    rewrite <- Permutation_middle in Hperm.
    apply Permutation_cons_inv in Hperm.
    destruct (IH _ Hperm) as [seed' Hseed'].
    assert (length l1 < S (length l))%nat as Hlt.
    { apply Permutation_length in Hperm. rewrite Hperm, length_app. lia. }
    exists (seed' * S (length l) + length l1)%nat. cbn [shuffle].
    rewrite (Nat.add_comm (seed' * _)), Nat.Div0.mod_add, (Nat.mod_small _ _ Hlt).
    rewrite (Nat.add_comm (length l1)).
    rewrite Nat.div_add_l, (Nat.div_small _ _ Hlt), Nat.add_0_r by lia.
    rewrite Hseed'. apply insertAt_app.
Qed.

Lemma mapRange_perm {V} (seed : nat) (m : option (gmap string V)) :
  mapRange seed m ≡ₚ mapKeys m.
Proof. apply shuffle_perm. Qed.

Lemma mapKeys_NoDup {V} (m : option (gmap string V)) : NoDup (mapKeys m).
Proof.
  destruct m as [g|]; cbn [mapKeys]; [|constructor].
  apply NoDup_fst_map_to_list.
Qed.

Lemma elem_of_mapKeys {V} (m : option (gmap string V)) (key : string) :
  key ∈ mapKeys m <-> is_Some (mapGet m key).
Proof.
  destruct m as [g|]; cbn [mapKeys mapGet].
  - rewrite list_elem_of_fmap. split.
    + intros [[k v] [-> Hin]]. apply elem_of_map_to_list in Hin. by exists v.
    + intros [v Hv]. exists (key, v). split; [done|].
      by apply elem_of_map_to_list.
  - split; [intros Hin; by apply elem_of_nil in Hin | by intros [? ?]].
Qed.

(** The first exit of [Load]: the file cannot be opened. *)
Lemma Load_not_opened (fs : FileSystem) (seed : nat) (cm : ConfigManager) :
  (forall file, fs (configFilePath cm) <> Opened file) ->
  cmConfig (Load fs seed cm).1 = cmConfig cm /\
  orderedSliderKeys (Load fs seed cm).1 = orderedSliderKeys cm /\
  is_Some (Load fs seed cm).2.
Proof.
  intros Hno. unfold Load.
  destruct (fs (configFilePath cm)) as [| cause | file]; cbn; [done | done |].
  by destruct (Hno file).
Qed.

(** The second exit: the decoder reports an error.  By then the manager
    points to the fresh [Config] the decoder has filled as far as it got;
    the ordered keys are still the old ones. *)
Lemma Load_not_decoded (fs : FileSystem) (seed : nat) (cm : ConfigManager)
    (file : Yaml.content) (causes : list string) :
  fs (configFilePath cm) = Opened file ->
  (Yaml.Decode (Yaml.KnownFields (Yaml.NewDecoder file) true) defaultConfig).2
    = Some causes ->
  (Load fs seed cm).2 = Some (ErrDecodeConfig causes) /\
  cmConfig (Load fs seed cm).1 =
    Some (Yaml.Decode (Yaml.KnownFields (Yaml.NewDecoder file) true)
            defaultConfig).1 /\
  orderedSliderKeys (Load fs seed cm).1 = orderedSliderKeys cm.
Proof.
  intros Hfile Herr. unfold Load. rewrite Hfile.
  destruct (Yaml.Decode _ _) as [c err]. cbn [snd] in Herr. subst err.
  done.
Qed.

(** The regular end: the manager points to the decoded [Config], which
    owes nothing to the previous one, and the ordered keys are the keys of
    its slider map in the order of the range. *)
Lemma Load_done (fs : FileSystem) (seed : nat) (cm cm' : ConfigManager) :
  Load fs seed cm = (cm', None) ->
  exists file c,
    fs (configFilePath cm) = Opened file /\
    Yaml.Decode (Yaml.KnownFields (Yaml.NewDecoder file) true) defaultConfig
      = (c, None) /\
    cmConfig cm' = Some c /\
    orderedSliderKeys cm' = mapRange seed (SliderMappings c).
Proof.
  unfold Load. destruct (fs (configFilePath cm)) as [| cause | file]; [done..|].
  destruct (Yaml.Decode _ _) as [c [causes|]] eqn:Hdec; [done|].
  intros [= <-]. by exists file, c.
Qed.

(** C1 on the code.  A reload of the three-slider manager from a file
    that does not parse fails with a decode error and leaves the ordered
    keys as they were, but the manager now points to the default
    [Config], without a slider map; a reload from a file with a misspelt
    key fails likewise and leaves the part of the file decoded up to the
    end.  Only where the file cannot be opened is the [Config] the
    previous one. *)
Theorem failed_reload_replaces_config :
  (let r := Load (onDisk (Opened brokenFile)) 0 threeSliders in
   (exists causes, r.2 = Some (ErrDecodeConfig causes)) /\
   cmConfig r.1 = Some defaultConfig /\
   cmConfig r.1 <> cmConfig threeSliders /\
   orderedSliderKeys r.1 = ["master"; "game"; "chat"] /\
   stored threeSliders "master" = Some half /\
   stored r.1 "master" = None /\
   UpdateSliderMappingByKey r.1 "master" half = Panicked NilMapWrite) /\
  (let r := Load (onDisk (Opened misspeltFile)) 0 threeSliders in
   (exists causes, r.2 = Some (ErrDecodeConfig causes)) /\
   cmConfig r.1 <> cmConfig threeSliders /\
   orderedSliderKeys r.1 = ["master"; "game"; "chat"] /\
   stored threeSliders "chat" = Some half /\
   stored r.1 "chat" = None) /\
  (let r := Load (onDisk NotExist) 0 threeSliders in
   r.2 = Some (ErrConfigNotExist "config.yaml") /\
   cmConfig r.1 = cmConfig threeSliders /\
   orderedSliderKeys r.1 = orderedSliderKeys threeSliders).
Proof.
  split; [|split].
  - vm_compute. split; [by eexists|]. repeat split; discriminate.
  - vm_compute. split; [by eexists|]. repeat split; discriminate.
  - vm_compute. repeat split.
Qed.

(** ** The two key sets *)

Lemma orderedKeySet_mapRange (seed : nat) (cm : ConfigManager) (c : Config) :
  cmConfig cm = Some c ->
  orderedSliderKeys cm = mapRange seed (SliderMappings c) ->
  keysMatch cm.
Proof.
  intros Hc Hkeys. unfold keysMatch, orderedKeySet, sliderKeySet.
  rewrite Hc, Hkeys. apply set_eq. intros key.
  rewrite elem_of_list_to_set, mapRange_perm, elem_of_mapKeys.
  destruct (SliderMappings c) as [m|]; cbn [mapGet].
  - by rewrite elem_of_dom.
  - split; [by intros [? ?] | intros Hin; by apply elem_of_empty in Hin].
Qed.

Lemma UpdateSliderMappingByKey_present (cm : ConfigManager) (key : string)
    (mapping : SliderMapping) :
  is_Some (stored cm key) ->
  exists cm',
    UpdateSliderMappingByKey cm key mapping = Ok cm' /\
    orderedSliderKeys cm' = orderedSliderKeys cm /\
    sliderKeySet cm' = sliderKeySet cm /\
    stored cm' key = Some mapping /\
    configModified cm' = true.
Proof.
  intros [old Hold]. unfold stored in Hold. unfold UpdateSliderMappingByKey.
  destruct (cmConfig cm) as [c|] eqn:Hc; [|done].
  destruct (SliderMappings c) as [m|] eqn:Hm; [|done]. cbn [mapGet] in Hold.
  eexists. split; [reflexivity|]. split; [reflexivity|].
  unfold sliderKeySet. rewrite Hc, Hm. cbn.
  split; [|split; [by rewrite lookup_insert_eq | done]].
  rewrite dom_insert_L. apply subseteq_union_1_L, singleton_subseteq_l.
  by apply elem_of_dom_2 in Hold.
Qed.

Lemma UpdateSliderMappingByKey_absent (cm : ConfigManager) (c : Config)
    (m : gmap string SliderMapping) (key : string) (mapping : SliderMapping) :
  cmConfig cm = Some c ->
  SliderMappings c = Some m ->
  exists cm',
    UpdateSliderMappingByKey cm key mapping = Ok cm' /\
    orderedSliderKeys cm' = orderedSliderKeys cm /\
    sliderKeySet cm' = {[key]} ∪ sliderKeySet cm.
Proof.
  intros Hc Hm. unfold UpdateSliderMappingByKey. rewrite Hc, Hm.
  eexists. split; [reflexivity|]. split; [reflexivity|].
  unfold sliderKeySet. rewrite Hc, Hm. cbn. by rewrite dom_insert_L.
Qed.

(** C2, as the code has it.  After a [Load] that succeeds the names of
    the ordered key sequence are the keys of the slider map of the
    [Config] just decoded, each once.  [UpdateSliderMappingByKey] with a
    key of the slider map, and [UpdateSliderMappingByIndex] with an index
    of the sequence, run without a panic and leave both key sets as they
    were, so that they stay equal. *)
Theorem key_sets_agree (cm : ConfigManager) :
  (forall fs seed cm',
     Load fs seed cm = (cm', None) ->
     keysMatch cm' /\ NoDup (orderedSliderKeys cm')) /\
  (forall key mapping,
     is_Some (stored cm key) ->
     exists cm',
       UpdateSliderMappingByKey cm key mapping = Ok cm' /\
       orderedKeySet cm' = orderedKeySet cm /\
       sliderKeySet cm' = sliderKeySet cm /\
       (keysMatch cm -> keysMatch cm')) /\
  (forall index mapping,
     keysMatch cm ->
     0 <= index < Z.of_nat (length (orderedSliderKeys cm)) ->
     exists cm',
       UpdateSliderMappingByIndex cm index mapping = Ok cm' /\
       orderedKeySet cm' = orderedKeySet cm /\
       sliderKeySet cm' = sliderKeySet cm /\
       keysMatch cm').
Proof.
  split; [|split].
  - intros fs seed cm' Hload.
    destruct (Load_done _ _ _ _ Hload) as (file & c & _ & _ & Hc & Hkeys).
    split; [by apply (orderedKeySet_mapRange seed cm' c)|].
    rewrite Hkeys, mapRange_perm. apply mapKeys_NoDup.
  - intros key mapping Hkey.
    destruct (UpdateSliderMappingByKey_present cm key mapping Hkey)
      as (cm' & Hrun & Hkeys & Hdom & _).
    exists cm'. unfold keysMatch, orderedKeySet. rewrite Hkeys, Hdom. done.
  - intros index mapping Hmatch Hindex.
    unfold UpdateSliderMappingByIndex.
    assert ((index <? 0) || (index >=? Z.of_nat (length (orderedSliderKeys cm)))
            = false) as Hr by (apply orb_false_intro; lia).
    rewrite Hr. destruct (keys_lookup_in_range _ _ Hr) as [key Hkey].
    rewrite Hkey.
    assert (is_Some (stored cm key)) as Hst.
    { assert (key ∈ sliderKeySet cm) as Hin.
      { rewrite <- Hmatch. unfold orderedKeySet.
        apply elem_of_list_to_set. by eapply list_elem_of_lookup_2. }
      unfold sliderKeySet, stored in *.
      destruct (cmConfig cm) as [c|]; [|by apply elem_of_empty in Hin].
      destruct (SliderMappings c) as [m|]; [|by apply elem_of_empty in Hin].
      by apply elem_of_dom in Hin. }
    destruct (UpdateSliderMappingByKey_present cm key mapping Hst)
      as (cm' & Hrun & Hkeys & Hdom & _).
    exists cm'. unfold keysMatch, orderedKeySet in *. rewrite Hkeys, Hdom. done.
Qed.

Lemma key_sets_agree_witness :
  (let cm' := (Load (onDisk (Opened scenarioFile)) 4%nat
                 (NewConfigManager "config.yaml")).1 in
   orderedSliderKeys cm' = ["master"; "game"; "chat"] /\
   keysMatch cm' /\ NoDup (orderedSliderKeys cm')) /\
  (exists cm',
     UpdateSliderMappingByKey threeSliders "game" zeroSliderMapping = Ok cm' /\
     keysMatch cm') /\
  (exists cm',
     UpdateSliderMappingByIndex threeSliders 2 zeroSliderMapping = Ok cm' /\
     keysMatch cm').
Proof.
  assert (keysMatch threeSliders) as Hthree by (vm_compute; reflexivity).
  split; [|split].
  - split; [vm_compute; reflexivity|].
    apply (proj1 (key_sets_agree (NewConfigManager "config.yaml"))
             (onDisk (Opened scenarioFile)) 4%nat).
    vm_compute; reflexivity.
  - destruct (proj1 (proj2 (key_sets_agree threeSliders)) "game"
                zeroSliderMapping) as (cm' & Hrun & _ & _ & Hmatch);
      [vm_compute; by eexists|].
    exists cm'. split; [exact Hrun | exact (Hmatch Hthree)].
  - destruct (proj2 (proj2 (key_sets_agree threeSliders)) 2 zeroSliderMapping)
      as (cm' & Hrun & _ & _ & Hmatch);
      [exact Hthree | vm_compute; split; [discriminate | reflexivity] |].
    exists cm'. split; [exact Hrun | exact Hmatch].
Defined.

(** C2 as the specification words it fails on the code.  The key sets of
    the three-slider manager agree; an update under a key that is not in
    the slider map, here the empty name, adds the key to the map and not
    to the ordered sequence, after which they differ.  The first turn of
    a fresh session is such an update. *)
Lemma update_by_absent_key_breaks_key_sets :
  keysMatch threeSliders /\
  stored threeSliders "" = None /\
  (exists cm',
     UpdateSliderMappingByKey threeSliders "" zeroSliderMapping = Ok cm' /\
     orderedSliderKeys cm' = ["master"; "game"; "chat"] /\
     "" ∈ sliderKeySet cm' /\
     ~ keysMatch cm') /\
  ~ keysMatch (configManager
       (handleLine (rotation true) (startWorld threeSliders [0%nat])).2).
Proof.
  assert (forall cm : ConfigManager,
            "" ∈ sliderKeySet cm -> "" ∉ orderedKeySet cm -> ~ keysMatch cm)
    as Hdiffer.
  { intros cm Hin Hout Hmatch. unfold keysMatch in Hmatch.
    by rewrite Hmatch in Hout. }
  split; [vm_compute; reflexivity|]. split; [reflexivity|]. split.
  - eexists. split; [reflexivity|]. split; [reflexivity|].
    split; [vm_compute; reflexivity|].
    apply Hdiffer; [vm_compute; reflexivity | vm_compute; discriminate].
  - apply Hdiffer; [vm_compute; reflexivity | vm_compute; discriminate].
Qed.

(** ** Why a load fails *)

Lemma decodeFields_faulty {T}
    (field : string -> option (Yaml.node -> T -> T * list string))
    (entries : list (string * Yaml.node)) :
  Exists (faulty field) entries ->
  forall seen target,
    (Yaml.decodeFields true field entries seen target).2 <> [].
Proof.
  induction 1 as [[key value] entries Hfaulty | [key value] entries _ IH];
    intros seen target; cbn [Yaml.decodeFields].
  - unfold faulty in Hfaulty. cbn [fst snd] in Hfaulty.
    destruct (field key) as [store|].
    + destruct (bool_decide _).
      * by destruct (Yaml.decodeFields _ _ _ _ _).
      * specialize (Hfaulty target).
        destruct (store value target) as [t1 errs1].
        destruct (Yaml.decodeFields _ _ _ _ _) as [t2 errs2].
        cbn [snd] in *. by destruct errs1.
    + by destruct (Yaml.decodeFields _ _ _ _ _).
  - destruct (field key) as [store|].
    + destruct (bool_decide _).
      * by destruct (Yaml.decodeFields _ _ _ _ _).
      * destruct (store value target) as [t1 errs1].
        specialize (IH (key :: seen) t1).
        destruct (Yaml.decodeFields _ _ _ _ _) as [t2 errs2].
        cbn [snd] in *. intros Happ. by apply app_eq_nil in Happ as [_ ?].
    + by destruct (Yaml.decodeFields _ _ _ _ _).
Qed.

Lemma strayKey_Exists (known : list string)
    (entries : list (string * Yaml.node)) :
  strayKey known entries = true ->
  Exists (fun entry => existsb (String.eqb entry.1) known = false) entries.
Proof.
  unfold strayKey. rewrite existsb_exists. intros [entry [Hin Hstray]].
  apply Exists_exists. exists entry. split; [by apply list_elem_of_In|].
  by apply negb_true_iff.
Qed.

Lemma sliderMappingField_stray (key : string) :
  existsb (String.eqb key) sliderKeys = false ->
  Yaml.sliderMappingField key = None.
Proof.
  unfold sliderKeys, Yaml.sliderMappingField. cbn [existsb].
  by repeat (destruct (String.eqb key _); [done|]).
Qed.

Lemma connectionInfoField_stray (key : string) :
  existsb (String.eqb key) connectionKeys = false ->
  Yaml.connectionInfoField key = None.
Proof.
  unfold connectionKeys, Yaml.connectionInfoField. cbn [existsb].
  by repeat (destruct (String.eqb key _); [done|]).
Qed.

Lemma configField_stray (key : string) :
  existsb (String.eqb key) topLevelKeys = false ->
  Yaml.configField true key = None.
Proof.
  unfold topLevelKeys, Yaml.configField. cbn [existsb].
  by repeat (destruct (String.eqb key _); [done|]).
Qed.

Lemma stray_faulty {T} (known : list string)
    (field : string -> option (Yaml.node -> T -> T * list string))
    (entries : list (string * Yaml.node)) :
  (forall key, existsb (String.eqb key) known = false -> field key = None) ->
  strayKey known entries = true ->
  Exists (faulty field) entries.
Proof.
  intros Hfield Hstray. apply strayKey_Exists in Hstray.
  eapply Exists_impl; [exact Hstray|].
  intros entry Hentry. unfold faulty. by rewrite (Hfield _ Hentry).
Qed.

Lemma decodeSliders_stray (entries : list (string * Yaml.node)) :
  existsb straySlider entries = true ->
  forall seen target,
    (Yaml.decodeSliders true entries seen target).2 <> [].
Proof.
  induction entries as [|[key value] entries IH]; [done|].
  cbn [existsb]. intros Hstray seen target. cbn [Yaml.decodeSliders].
  destruct (Yaml.decodeSliderMapping true value) as [osm errs1] eqn:Hdec.
  match goal with
  | |- context [Yaml.decodeSliders true entries ?s ?t] =>
      pose proof (fun H => IH H s t) as IH';
      destruct (Yaml.decodeSliders true entries s t) as [t2 errs2]
  end.
  cbn [snd] in *. intros Happ.
  apply app_eq_nil in Happ as [_ Happ]. apply app_eq_nil in Happ as [H1 H2].
  apply orb_true_iff in Hstray as [Hhere | Hlater]; [|by apply IH'].
  unfold straySlider in Hhere. cbn [snd] in Hhere.
  destruct value; try done. cbn [Yaml.decodeSliderMapping] in Hdec.
  pose proof (decodeFields_faulty Yaml.sliderMappingField entries0
                (stray_faulty _ _ _ sliderMappingField_stray Hhere)
                [] zeroSliderMapping) as Hne.
  destruct (Yaml.decodeFields _ _ _ _ _) as [sm errs]. cbn [snd] in Hne.
  by simplify_eq.
Qed.

Lemma strayNested_faulty (entry : string * Yaml.node) :
  strayNested entry = true -> faulty (Yaml.configField true) entry.
Proof.
  destruct entry as [key value]. unfold strayNested, faulty. cbn [fst snd].
  destruct value; try done. intros Hstray.
  apply orb_true_iff in Hstray as [Hc | Hs].
  - apply andb_true_iff in Hc as [->%String.eqb_eq Hc]. cbn. intros t.
    unfold Yaml.liftField. cbn [Yaml.decodeConnectionInfo].
    pose proof (decodeFields_faulty Yaml.connectionInfoField entries
                  (stray_faulty _ _ _ connectionInfoField_stray Hc)
                  [] (Connection t)) as Hne.
    by destruct (Yaml.decodeFields _ _ _ _ _).
  - apply andb_true_iff in Hs as [->%String.eqb_eq Hs]. cbn. intros t.
    unfold Yaml.liftField. cbn [Yaml.decodeSliderMappings].
    pose proof (decodeSliders_stray entries Hs [] (default ∅ (SliderMappings t)))
      as Hne.
    by destruct (Yaml.decodeSliders _ _ _ _).
Qed.

(** With [KnownFields(true)] a document with a key outside the format is
    not decoded without an error. *)
Lemma Decode_unknown_key (doc : Yaml.node) (target : Config) :
  hasUnknownKey doc = true ->
  exists causes,
    (Yaml.Decode (Yaml.KnownFields (Yaml.NewDecoder (Yaml.Document doc)) true)
       target).2 = Some causes.
Proof.
  destruct doc; try done. cbn [hasUnknownKey]. intros Hunknown.
  assert (Exists (faulty (Yaml.configField true)) entries) as Hfaulty.
  { apply orb_true_iff in Hunknown as [Htop | Hnested].
    - by apply (stray_faulty topLevelKeys), Htop; apply configField_stray.
    - apply existsb_exists in Hnested as [entry [Hin Hentry]].
      apply Exists_exists. exists entry.
      split; [by apply list_elem_of_In | by apply strayNested_faulty]. }
  unfold Yaml.Decode. cbn [Yaml.source Yaml.knownFields Yaml.KnownFields
    Yaml.NewDecoder].
  pose proof (decodeFields_faulty _ _ Hfaulty [] target) as Hne.
  destruct (Yaml.decodeFields _ _ _ _ _) as [c errs]. cbn [snd] in *.
  destruct errs; [done|]. by eexists.
Qed.

(** C8. [Load] fails with the not-found error exactly when the file does
    not exist, and that is also exactly when it asks the notifier to show
    something; on a file whose content does not parse it fails with the
    decode error; and on a document with a key outside the format, at the
    top level, in [connection_info] or in a slider, it fails with the
    decode error as well. *)
Theorem load_failure_taxonomy (fs : FileSystem) (seed : nat)
    (cm : ConfigManager) :
  let path := configFilePath cm in
  let r := Load fs seed cm in
  (fs path = NotExist <-> r.2 = Some (ErrConfigNotExist path)) /\
  (fs path = NotExist ->
     notified r.1 =
       (notified cm ++
        [("Can't find configuration!",
          path +:+ " must be in the directory. Please re-launch")])%list) /\
  (fs path <> NotExist -> notified r.1 = notified cm) /\
  (forall cause,
     fs path = Opened (Yaml.Unparsable cause) ->
     exists causes, r.2 = Some (ErrDecodeConfig causes)) /\
  (forall doc,
     fs path = Opened (Yaml.Document doc) ->
     hasUnknownKey doc = true ->
     exists causes, r.2 = Some (ErrDecodeConfig causes)).
Proof.
  intros path r. subst path r. unfold Load.
  split; [|split; [|split; [|split]]].
  - destruct (fs (configFilePath cm)) as [| cause | file]; cbn [snd].
    + done.
    + split; done.
    + destruct (Yaml.Decode _ _) as [c [causes|]]; split; done.
  - by intros ->.
  - intros Hno. destruct (fs (configFilePath cm)) as [| cause | file];
      [done | done |].
    by destruct (Yaml.Decode _ _) as [c [causes|]].
  - intros cause ->. by eexists.
  - intros doc -> Hunknown.
    destruct (Decode_unknown_key doc defaultConfig Hunknown) as [causes Hc].
    destruct (Yaml.Decode _ _) as [c err]. cbn [snd] in *. subst err.
    by eexists.
Qed.

Lemma load_failure_taxonomy_witness :
  (Load (onDisk NotExist) 0 threeSliders).2
    = Some (ErrConfigNotExist "config.yaml") /\
  notified (Load (onDisk NotExist) 0 threeSliders).1 =
    [("Can't find configuration!",
      "config.yaml must be in the directory. Please re-launch")] /\
  notified (Load (onDisk (Opened brokenFile)) 0 threeSliders).1 = [] /\
  (exists causes,
     (Load (onDisk (Opened brokenFile)) 0 threeSliders).2
       = Some (ErrDecodeConfig causes)) /\
  (exists causes,
     (Load (onDisk (Opened misspeltFile)) 0 threeSliders).2
       = Some (ErrDecodeConfig causes)).
Proof.
  destruct (load_failure_taxonomy (onDisk NotExist) 0 threeSliders)
    as (Habsent & Hnotified & _).
  destruct (load_failure_taxonomy (onDisk (Opened brokenFile)) 0 threeSliders)
    as (_ & _ & Hquiet & Hbroken & _).
  destruct (load_failure_taxonomy (onDisk (Opened misspeltFile)) 0 threeSliders)
    as (_ & _ & _ & _ & Hunknown).
  split; [by apply Habsent|]. split; [by apply Hnotified|].
  split; [by apply Hquiet|].
  split; [by eapply Hbroken | eapply Hunknown; reflexivity].
Defined.

(** ** float32 arithmetic on the unit interval *)

(** *** Binary digits *)

Lemma digits2_pos_bounds (p : positive) :
  2 ^ (Zpos (digits2_pos p) - 1) <= Zpos p < 2 ^ Zpos (digits2_pos p).
Proof.
  induction p as [p IH | p IH |]; cbn [digits2_pos].
  - rewrite Pos2Z.inj_succ. replace (Z.succ (Zpos (digits2_pos p)) - 1)
      with (Z.succ (Zpos (digits2_pos p) - 1)) by lia.
    rewrite !Z.pow_succ_r by lia. lia.
  - rewrite Pos2Z.inj_succ. replace (Z.succ (Zpos (digits2_pos p)) - 1)
      with (Z.succ (Zpos (digits2_pos p) - 1)) by lia.
    rewrite !Z.pow_succ_r by lia. lia.
  - cbn. lia.
Qed.

Lemma Zdigits2_bounds (m : Z) :
  0 < m -> 0 < Zdigits2 m /\ 2 ^ (Zdigits2 m - 1) <= m < 2 ^ Zdigits2 m.
Proof.
  destruct m as [|p|p]; [lia | | lia]. intros _. cbn [Zdigits2].
  split; [lia | apply digits2_pos_bounds].
Qed.

Lemma Zdigits2_unique (m d : Z) :
  0 < m -> 2 ^ (d - 1) <= m < 2 ^ d -> Zdigits2 m = d.
Proof.
  intros Hm [Hlo Hhi].
  destruct (Zdigits2_bounds m Hm) as (Hpos & Hlo' & Hhi').
  assert (0 < d) as Hd.
  { destruct (Z.lt_trichotomy d 0) as [Hneg | [-> | ?]]; [| |done].
    - rewrite Z.pow_neg_r in Hhi by done. lia.
    - cbn in Hhi. lia. }
  assert (d - 1 < Zdigits2 m) as H1.
  { apply (Z.pow_lt_mono_r_iff 2); lia. }
  assert (Zdigits2 m - 1 < d) as H2.
  { apply (Z.pow_lt_mono_r_iff 2); lia. }
  lia.
Qed.

Lemma Zdigits2_nonneg (m : Z) : 0 <= Zdigits2 m.
Proof. destruct m; cbn; lia. Qed.

Lemma Zdigits2_le (m d : Z) : 0 <= m -> 0 <= d -> m < 2 ^ d -> Zdigits2 m <= d.
Proof.
  intros Hm Hd Hlt. destruct (Z.eq_dec m 0) as [-> | Hne]; [done|].
  destruct (Zdigits2_bounds m) as (_ & Hlo & _); [lia|].
  assert (Zdigits2 m - 1 < d); [|lia].
  apply (Z.pow_lt_mono_r_iff 2); lia.
Qed.

Lemma Zdigits2_div (m n : Z) :
  0 < m -> 0 <= n < Zdigits2 m ->
  0 < m / 2 ^ n /\ Zdigits2 (m / 2 ^ n) = Zdigits2 m - n.
Proof.
  intros Hm Hn. destruct (Zdigits2_bounds m Hm) as (_ & Hlo & Hhi).
  assert (0 < 2 ^ n) as Hpow by (apply Z.pow_pos_nonneg; lia).
  assert (2 ^ (Zdigits2 m - n - 1) <= m / 2 ^ n) as Hlo'.
  { apply Z.div_le_lower_bound; [done|].
    rewrite <- Z.pow_add_r by lia.
    by replace (n + (Zdigits2 m - n - 1)) with (Zdigits2 m - 1) by lia. }
  assert (m / 2 ^ n < 2 ^ (Zdigits2 m - n)) as Hhi'.
  { apply Z.div_lt_upper_bound; [done|].
    rewrite <- Z.pow_add_r by lia.
    by replace (n + (Zdigits2 m - n)) with (Zdigits2 m) by lia. }
  assert (0 < 2 ^ (Zdigits2 m - n - 1)) by (apply Z.pow_pos_nonneg; lia).
  split; [lia|]. apply Zdigits2_unique; [lia|]. by split.
Qed.

Lemma div_pow2_small (m n : Z) :
  0 <= m -> Zdigits2 m <= n -> m / 2 ^ n = 0.
Proof.
  intros Hm Hn. destruct (Z.eq_dec m 0) as [-> | Hne];
    [apply Z.div_0_l; apply Z.pow_nonzero; [lia | pose proof (Zdigits2_nonneg 0); lia]|].
  destruct (Zdigits2_bounds m) as (Hd & _ & Hhi); [lia|].
  apply Z.div_small. split; [done|].
  eapply Z.lt_le_trans; [exact Hhi|]. apply Z.pow_le_mono_r; lia.
Qed.

Lemma Zdigits2_succ (m : Z) :
  0 <= m ->
  Zdigits2 (m + 1) = Zdigits2 m \/
  (m + 1 = 2 ^ Zdigits2 m /\ Zdigits2 (m + 1) = Zdigits2 m + 1).
Proof.
  intros Hm. destruct (Z.eq_dec m 0) as [-> | Hne]; [by right|].
  destruct (Zdigits2_bounds m) as (Hd & Hlo & Hhi); [lia|].
  destruct (Z.eq_dec (m + 1) (2 ^ Zdigits2 m)) as [Heq | Hlt].
  - right. split; [done|]. apply Zdigits2_unique; [lia|].
    replace (Zdigits2 m + 1 - 1) with (Zdigits2 m) by lia.
    rewrite Z.pow_add_r by lia. lia.
  - left. apply Zdigits2_unique; lia.
Qed.

Lemma Zdigits2_mul_pow2 (m k : Z) :
  0 < m -> 0 <= k -> Zdigits2 (m * 2 ^ k) = Zdigits2 m + k.
Proof.
  intros Hm Hk. destruct (Zdigits2_bounds m Hm) as (Hd & Hlo & Hhi).
  assert (0 < 2 ^ k) by (apply Z.pow_pos_nonneg; lia).
  apply Zdigits2_unique; [lia|].
  replace (Zdigits2 m + k - 1) with (Zdigits2 m - 1 + k) by lia.
  rewrite !Z.pow_add_r by lia. nia.
Qed.

(** *** Shifting right and rounding *)

Lemma fexp32_eq (e : Z) : fexp F32.prec F32.emax e = fexp32 e.
Proof. reflexivity. Qed.

Lemma shr_1_m (mrs : shr_record) :
  0 <= shr_m mrs -> shr_m (shr_1 mrs) = shr_m mrs / 2.
Proof.
  destruct mrs as [m r s]. cbn [shr_m]. intros Hm.
  destruct m as [|[p|p|]|p]; [| | | |lia]; cbn [shr_1 shr_m].
  - done.
  - rewrite (Pos2Z.inj_xI p). apply (Z.div_unique _ _ _ 1); lia.
  - rewrite (Pos2Z.inj_xO p). apply (Z.div_unique _ _ _ 0); lia.
  - done.
Qed.

Lemma iter_shr_1_m (n : positive) :
  forall mrs : shr_record,
  0 <= shr_m mrs ->
  shr_m (SpecFloat.iter_pos shr_1 n mrs) = shr_m mrs / 2 ^ Zpos n.
Proof.
  induction n as [n IH | n IH |]; intros mrs Hm; cbn [SpecFloat.iter_pos].
  - assert (0 <= shr_m (shr_1 mrs)) as H1
      by (rewrite shr_1_m by done; apply Z.div_pos; lia).
    assert (0 <= shr_m (SpecFloat.iter_pos shr_1 n (shr_1 mrs))) as H2
      by (rewrite IH by done; apply Z.div_pos; lia).
    rewrite IH, IH, shr_1_m by done.
    rewrite !Z.div_div by lia. f_equal.
    rewrite (Pos2Z.inj_xI n).
    replace (2 * Zpos n + 1) with (1 + Zpos n + Zpos n) by lia.
    rewrite !Z.pow_add_r, Z.pow_1_r by lia. lia.
  - assert (0 <= shr_m (SpecFloat.iter_pos shr_1 n mrs)) as H2
      by (rewrite IH by done; apply Z.div_pos; lia).
    rewrite IH, IH by done. rewrite Z.div_div by lia. f_equal.
    rewrite (Pos2Z.inj_xO n).
    replace (2 * Zpos n) with (Zpos n + Zpos n) by lia.
    rewrite Z.pow_add_r by lia. reflexivity.
  - rewrite shr_1_m by done. reflexivity.
Qed.

Lemma shr_fexp_exact (m e : Z) :
  0 <= m ->
  let n := Z.max (fexp32 (Zdigits2 m + e) - e) 0 in
  shr_m (shr_fexp F32.prec F32.emax m e loc_Exact).1 = m / 2 ^ n /\
  (shr_fexp F32.prec F32.emax m e loc_Exact).2 = e + n.
Proof.
  intros Hm n. unfold shr_fexp, shr. rewrite fexp32_eq.
  cbn [shr_record_of_loc]. subst n.
  destruct (fexp32 (Zdigits2 m + e) - e) as [|p|p] eqn:Hn; cbn [fst snd].
  - cbn [shr_m Z.max]. rewrite Z.div_1_r. lia.
  - rewrite iter_shr_1_m by done. cbn [shr_m].
    replace (Z.max (Zpos p) 0) with (Zpos p) by lia. done.
  - cbn [shr_m]. replace (Z.max (Zneg p) 0) with 0 by lia.
    rewrite Z.div_1_r. lia.
Qed.

Lemma round_nearest_even_cases (m : Z) (l : location) :
  round_nearest_even m l = m \/ round_nearest_even m l = m + 1.
Proof.
  destruct l as [|[]]; cbn [round_nearest_even]; try tauto.
  destruct (Z.even m); tauto.
Qed.

(** Rounding an integer mantissa: one shift to the format's exponent,
    the mantissa kept or increased by one, and one more shift where the
    increase has added a digit. *)
Lemma binary_round_aux_spec (sx : bool) (m e : Z) :
  0 <= m ->
  let n1 := Z.max (fexp32 (Zdigits2 m + e) - e) 0 in
  exists m1,
    (m1 = m / 2 ^ n1 \/ m1 = m / 2 ^ n1 + 1) /\
    let n2 := Z.max (fexp32 (Zdigits2 m1 + (e + n1)) - (e + n1)) 0 in
    binary_round_aux F32.prec F32.emax sx m e loc_Exact
      = finish sx (m1 / 2 ^ n2) (e + n1 + n2).
Proof.
  intros Hm n1. unfold binary_round_aux.
  destruct (shr_fexp_exact m e Hm) as [H1 H2]. fold n1 in H1, H2.
  destruct (shr_fexp F32.prec F32.emax m e loc_Exact) as [mrs' e'].
  cbn [fst snd] in H1, H2. subst e'.
  set (m1 := round_nearest_even (shr_m mrs') (loc_of_shr_record mrs')).
  assert (0 <= m / 2 ^ n1) as Hdiv by (apply Z.div_pos; lia).
  assert (m1 = m / 2 ^ n1 \/ m1 = m / 2 ^ n1 + 1) as Hm1.
  { rewrite <- H1. apply round_nearest_even_cases. }
  exists m1. split; [done|]. cbv zeta.
  assert (0 <= m1) as Hm1' by lia.
  destruct (shr_fexp_exact m1 (e + n1) Hm1') as [H3 H4].
  destruct (shr_fexp F32.prec F32.emax m1 (e + n1) loc_Exact) as [mrs'' e''].
  cbn [fst snd] in H3, H4. subst e''. rewrite H3. reflexivity.
Qed.

Lemma shl_align_spec (mx : positive) (ex ex' : Z) :
  let k := Z.max (ex - ex') 0 in
  Zpos (shl_align mx ex ex').1 = Zpos mx * 2 ^ k /\
  (shl_align mx ex ex').2 = ex - k.
Proof.
  intros k. subst k. unfold shl_align.
  destruct (ex' - ex) as [|d|d] eqn:Hd; cbn [fst snd].
  - replace (Z.max (ex - ex') 0) with 0 by lia. cbn. lia.
  - replace (Z.max (ex - ex') 0) with 0 by lia. cbn. lia.
  - replace (Z.max (ex - ex') 0) with (Zpos d) by lia.
    pose proof (shift_pos_correct d mx) as Hs. unfold shift_pos in Hs.
    rewrite Hs. change (Z.pow_pos 2 d) with (2 ^ Zpos d). lia.
Qed.

(** Rounding the number [mx * 2^ex] to float32. *)
Lemma binary_round_spec (sx : bool) (mx : positive) (ex : Z) :
  let s := Zdigits2 (Zpos mx) + ex in
  let e1 := fexp32 s in
  let e := Z.min ex e1 in
  let m' := Zpos mx * 2 ^ (ex - e) / 2 ^ (e1 - e) in
  exists m1,
    (m1 = m' \/ m1 = m' + 1) /\
    ((0 < m' /\ Zdigits2 m' + e1 = s) \/ (m' = 0 /\ s <= e1)) /\
    let n2 := Z.max (fexp32 (Zdigits2 m1 + e1) - e1) 0 in
    binary_round F32.prec F32.emax sx mx ex
      = finish sx (m1 / 2 ^ n2) (e1 + n2).
Proof.
  intros s e1 e m'. unfold binary_round. rewrite fexp32_eq.
  change (Zpos (digits2_pos mx)) with (Zdigits2 (Zpos mx)). fold s e1.
  destruct (shl_align_spec mx ex e1) as [Hm He].
  destruct (shl_align mx ex e1) as [mz ez]. cbn [fst snd] in Hm, He.
  assert (ez = e) as -> by (subst e; lia).
  assert (Z.max (ex - e1) 0 = ex - e) as Hk by (subst e; lia).
  rewrite Hk in Hm.
  assert (Zdigits2 (Zpos mz) + e = s) as Hs.
  { rewrite Hm, Zdigits2_mul_pow2 by lia. subst s. lia. }
  assert (0 <= Zpos mz) as Hpos by lia.
  destruct (binary_round_aux_spec sx (Zpos mz) e Hpos) as (m1 & Hm1 & Hrun).
  cbv zeta in Hrun. rewrite Hs in Hrun, Hm1. fold e1 in Hrun, Hm1.
  assert (Z.max (e1 - e) 0 = e1 - e) as Hn1 by (subst e; lia).
  rewrite Hn1 in Hrun, Hm1. rewrite Hm in Hm1. fold m' in Hm1.
  replace (e + (e1 - e)) with e1 in Hrun by lia.
  exists m1. split; [done|]. split; [|exact Hrun].
  subst m'. rewrite <- Hm.
  destruct (Z_lt_le_dec (e1 - e) (Zdigits2 (Zpos mz))) as [Hlt | Hge].
  - left. destruct (Zdigits2_div (Zpos mz) (e1 - e)) as [H1 H2]; [lia | lia |].
    split; [done|]. lia.
  - right. split; [apply div_pow2_small; lia | lia].
Qed.

(** The result of a rounding is a float32 of the sign asked for. *)
Lemma binary_round_valid (sx : bool) (mx : positive) (ex : Z) :
  F32.valid (binary_round F32.prec F32.emax sx mx ex) = true /\
  signed sx (binary_round F32.prec F32.emax sx mx ex).
Proof.
  destruct (binary_round_spec sx mx ex) as (m1 & Hm1 & Hm' & ->).
  set (s := Zdigits2 (Zpos mx) + ex) in *.
  set (e1 := fexp32 s) in *.
  set (m' := Zpos mx * 2 ^ (ex - Z.min ex e1) / 2 ^ (e1 - Z.min ex e1)) in *.
  set (n2 := Z.max (fexp32 (Zdigits2 m1 + e1) - e1) 0).
  assert (0 <= m') as Hm'0 by (destruct Hm' as [[? _] | [-> _]]; lia).
  assert (0 <= m1) as Hm10 by lia.
  assert (0 <= n2) as Hn2 by (subst n2; lia).
  assert (0 <= m1 / 2 ^ n2) as Hmf by (apply Z.div_pos; lia).
  unfold finish. destruct (m1 / 2 ^ n2) as [|p|p] eqn:Hp; [done | | lia].
  destruct (_ <=? _) eqn:Hle; [|done]. split; [|done].
  unfold F32.valid, valid_binary, bounded, canonical_mantissa.
  rewrite Hle, andb_true_r, fexp32_eq. apply Z.eqb_eq.
  change (Zpos (digits2_pos p)) with (Zdigits2 (Zpos p)). rewrite <- Hp.
  assert (0 < m1) as Hm1pos.
  { destruct (Z.eq_dec m1 0) as [H0 | ?]; [|lia].
    rewrite H0, Z.div_0_l in Hp by lia. done. }
  assert (Zdigits2 m1 = Zdigits2 m' \/
          Zdigits2 m1 = Zdigits2 m' + 1) as Hd1.
  { destruct Hm1 as [-> | ->]; [by left|].
    destruct (Zdigits2_succ m' Hm'0) as [? | [_ ?]]; [by left | by right]. }
  assert (0 < Zdigits2 m1) as Hd1pos by (by apply Zdigits2_bounds).
  assert (m' = 0 -> Zdigits2 m' = 0) as Hzero by (by intros ->).
  assert (n2 < Zdigits2 m1) as Hlt.
  { subst n2 e1. unfold fexp32 in *.
    destruct Hm' as [[Hpos Hs] | [H0 Hs]]; [|specialize (Hzero H0)]; lia. }
  destruct (Zdigits2_div m1 n2) as [_ ->]; [done | lia |].
  subst n2 e1. unfold fexp32 in *.
  destruct Hm' as [[Hpos Hs] | [H0 Hs]]; [|specialize (Hzero H0)]; lia.
Qed.

(** A positive multiple of [2^-30] that is at most one minus a hundredth
    rounds to a float32 below one. *)
Lemma binary_round_below_one (mx : positive) :
  Zpos mx <= 2 ^ 30 - 10737418 ->
  binary_round F32.prec F32.emax false mx (-30) = S754_zero false \/
  exists m e,
    binary_round F32.prec F32.emax false mx (-30) = S754_finite false m e /\
    e <= -24.
Proof.
  intros Hmx.
  destruct (binary_round_spec false mx (-30)) as (m1 & Hm1 & Hm' & ->).
  cbv zeta in *.
  set (s := Zdigits2 (Zpos mx) + -30) in *.
  set (e1 := fexp32 s) in *.
  set (n2 := Z.max (fexp32 (Zdigits2 m1 + e1) - e1) 0).
  assert (0 < Zdigits2 (Zpos mx) <= 30) as Hd.
  { split; [by apply Zdigits2_bounds|]. apply Zdigits2_le; lia. }
  assert (e1 + n2 <= -24) as Hef.
  { destruct (Z.eq_dec s 0) as [Hs0 | Hs].
    - assert (e1 = -24) as He1 by (subst e1; rewrite Hs0; reflexivity).
      rewrite He1 in *.
      change (Z.min (-30) (-24)) with (-30) in *.
      change (-30 - -30) with 0 in *. change (-24 - -30) with 6 in *.
      rewrite Z.pow_0_r, Z.mul_1_r in *.
      assert (Zpos mx / 2 ^ 6 <= (2 ^ 30 - 10737418) / 2 ^ 6) as Hdiv
        by (apply Z.div_le_mono; lia).
      change ((2 ^ 30 - 10737418) / 2 ^ 6) with 16609443 in Hdiv.
      assert (0 <= Zpos mx / 2 ^ 6) by (apply Z.div_pos; lia).
      assert (Zdigits2 m1 <= 24) as Hd1
        by (apply Zdigits2_le; [lia | lia | change (2 ^ 24) with 16777216; lia]).
      pose proof (Zdigits2_nonneg m1).
      subst n2. unfold fexp32. lia.
    - assert (0 <= Zpos mx * 2 ^ (-30 - Z.min (-30) e1) / 2 ^ (e1 - Z.min (-30) e1))
        as Hm'0 by (destruct Hm' as [[? _] | [Heq _]]; [lia | by rewrite Heq]).
      assert (Zdigits2 m1 <=
              Zdigits2 (Zpos mx * 2 ^ (-30 - Z.min (-30) e1)
                        / 2 ^ (e1 - Z.min (-30) e1)) + 1) as Hd1.
      { destruct Hm1 as [-> | ->]; [lia|].
        destruct (Zdigits2_succ _ Hm'0) as [-> | [_ ->]]; lia. }
      assert (Zdigits2 0 = 0) as Hz by reflexivity.
      subst n2 e1 s. unfold fexp32 in *.
      destruct Hm' as [[Hpos Hs'] | [H0 Hs']]; [|rewrite H0, Hz in Hd1]; lia. }
  unfold finish. destruct (m1 / 2 ^ n2) as [|p|p] eqn:Hp.
  - by left.
  - right. exists p, (e1 + n2).
    assert ((e1 + n2 <=? F32.emax - F32.prec) = true) as ->
      by (apply Z.leb_le; unfold F32.emax, F32.prec; lia).
    done.
  - exfalso.
    assert (0 <= m1 / 2 ^ n2); [|lia].
    apply Z.div_pos; [|apply Z.pow_pos_nonneg; subst n2; lia].
    destruct Hm' as [[? _] | [Heq _]]; destruct Hm1 as [-> | ->]; lia.
Qed.

(** *** One step down and one step up *)

Lemma hundredth_eq : F32.hundredth = S754_finite false 10737418 (-30).
Proof. reflexivity. Qed.

Lemma one_eq : F32.one = S754_finite false 8388608 (-23).
Proof. reflexivity. Qed.

Lemma compare_cont_Eq_le (p q : positive) :
  Pos.compare_cont Eq p q <> Gt -> (p <= q)%positive.
Proof. intros H. exact H. Qed.

(** The shape of a float32 between 0.0 and 1.0. *)
Lemma inUnit_shape (v : float32) :
  F32.inUnit v = true ->
  (exists s, v = S754_zero s) \/
  exists mx ex,
    v = S754_finite false mx ex /\
    Zpos mx < 2 ^ 24 /\ ex <= -23 /\
    (-30 <= ex -> Zpos mx * 2 ^ (ex + 30) <= 2 ^ 30).
Proof.
  unfold F32.inUnit. rewrite !andb_true_iff. intros [[Hvalid H0] H1].
  destruct v as [s | s | | s mx ex]; [by left; exists s | by destruct s | done |].
  destruct s; [done|]. right. exists mx, ex. split; [done|].
  unfold F32.valid, valid_binary, bounded, canonical_mantissa in Hvalid.
  apply andb_true_iff in Hvalid as [Hcanon _]. apply Z.eqb_eq in Hcanon.
  rewrite fexp32_eq in Hcanon.
  change (Zpos (digits2_pos mx)) with (Zdigits2 (Zpos mx)) in Hcanon.
  destruct (Zdigits2_bounds (Zpos mx)) as (Hd & _ & Hhi); [lia|].
  assert (Zpos mx < 2 ^ 24) as Hmx.
  { eapply Z.lt_le_trans; [exact Hhi|]. apply Z.pow_le_mono_r; [lia|].
    unfold fexp32 in Hcanon. lia. }
  split; [done|].
  rewrite one_eq in H1. unfold F32.leb, SFleb, SFcompare in H1.
  destruct (Z.compare_spec ex (-23)) as [-> | Hlt | Hgt]; [| |done].
  - split; [lia|]. intros _.
    assert (2 ^ (-23 + 30) = 128) as -> by reflexivity.
    assert (2 ^ 30 = 1073741824) as -> by reflexivity.
    assert (Zpos mx <= 8388608) as Hle; [|lia].
    apply Pos2Z.pos_le_pos, compare_cont_Eq_le.
    intros Hc. by rewrite Hc in H1.
  - split; [lia|]. intros Hex.
    assert (2 ^ (ex + 30) <= 2 ^ 6) as Hpow by (apply Z.pow_le_mono_r; lia).
    assert (0 < 2 ^ (ex + 30)) by (apply Z.pow_pos_nonneg; lia).
    assert (2 ^ 24 = 16777216) as E24 by reflexivity.
    assert (2 ^ 6 = 64) as E6 by reflexivity.
    assert (2 ^ 30 = 1073741824) as E30 by reflexivity.
    rewrite E24 in Hmx. rewrite E6 in Hpow. rewrite E30. nia.
Qed.

Lemma leb_finite_total (m1 m2 : positive) (e1 e2 : Z) :
  SFltb (S754_finite false m2 e2) (S754_finite false m1 e1) = false ->
  SFleb (S754_finite false m1 e1) (S754_finite false m2 e2) = true.
Proof.
  unfold SFltb, SFleb, SFcompare.
  rewrite (Z.compare_antisym e1 e2).
  destruct (e1 ?= e2); cbn [CompOpp]; try done.
  pose proof (Pos.compare_cont_antisym m1 m2 Eq) as Ha.
  change (CompOpp Eq) with Eq in Ha. rewrite <- Ha.
  by destruct (Pos.compare_cont Eq m1 m2).
Qed.

Lemma leb_below_one (m : positive) (e : Z) :
  e <= -24 -> F32.leb (S754_finite false m e) F32.one = true.
Proof.
  intros He. rewrite one_eq. unfold F32.leb, SFleb, SFcompare.
  by rewrite (proj2 (Z.compare_lt_iff e (-23))) by lia.
Qed.

(** A step down keeps a volume between 0.0 and 1.0. *)
Lemma lower_inUnit (v : float32) :
  F32.inUnit v = true -> F32.inUnit (lower v) = true.
Proof.
  intros Hv.
  destruct (inUnit_shape v Hv) as [[s ->] | (mx & ex & -> & Hmx & Hex & Hval)].
  { by destruct s. }
  unfold lower. rewrite hundredth_eq. unfold F32.sub, SFsub. cbv zeta.
  cbn [cond_Zopp].
  destruct (shl_align_spec mx ex (Z.min ex (-30))) as [-> _].
  destruct (shl_align_spec 10737418 (-30) (Z.min ex (-30))) as [-> _].
  set (M := Zpos mx * _ - _).
  assert (0 < M -> Z.min ex (-30) = -30 /\ M <= 2 ^ 30 - 10737418) as HM.
  { intros Hpos. destruct (Z_lt_le_dec ex (-30)) as [Hlt | Hge].
    - exfalso. subst M.
      replace (Z.max (ex - Z.min ex (-30)) 0) with 0 in Hpos by lia.
      replace (Z.max (-30 - Z.min ex (-30)) 0) with (-30 - ex) in Hpos by lia.
      assert (2 ^ 1 <= 2 ^ (-30 - ex)) as Hpow
        by (apply Z.pow_le_mono_r; lia).
      assert (2 ^ 24 = 16777216) as E24 by reflexivity.
      rewrite E24 in Hmx. rewrite Z.pow_1_r, Z.pow_0_r in *. nia.
    - split; [lia|]. subst M.
      replace (Z.min ex (-30)) with (-30) by lia.
      replace (Z.max (ex - -30) 0) with (ex + 30) by lia.
      replace (Z.max (-30 - -30) 0) with 0 by lia.
      rewrite Z.pow_0_r. specialize (Hval Hge). lia. }
  unfold binary_normalize. destruct M as [|m|m] eqn:HMeq.
  - reflexivity.
  - destruct HM as [-> HM]; [lia|].
    pose proof (binary_round_valid false m (-30)) as [Hvalid _].
    destruct (binary_round_below_one m HM) as [-> | (m' & e' & Hr & He')];
      [reflexivity|].
    rewrite Hr in *.
    assert (F32.ltb (S754_finite false m' e') F32.zero = false) as ->
      by reflexivity.
    unfold F32.inUnit. rewrite Hvalid, (leb_below_one m' e' He'). reflexivity.
  - pose proof (binary_round_valid true m (Z.min ex (-30))) as [_ Hsigned].
    destruct (binary_round _ _ _ _ _) as [s | s | | s m' e'];
      cbn [signed] in Hsigned; [subst s.. | done | subst s]; reflexivity.
Qed.

(** A step up keeps a volume between 0.0 and 1.0. *)
Lemma raise_inUnit (v : float32) :
  F32.inUnit v = true -> F32.inUnit (raise v) = true.
Proof.
  intros Hv.
  destruct (inUnit_shape v Hv) as [[s ->] | (mx & ex & -> & Hmx & Hex & Hval)].
  { by destruct s. }
  unfold raise. rewrite hundredth_eq. unfold F32.add, SFadd. cbv zeta.
  cbn [cond_Zopp].
  destruct (shl_align_spec mx ex (Z.min ex (-30))) as [-> _].
  destruct (shl_align_spec 10737418 (-30) (Z.min ex (-30))) as [-> _].
  set (M := Zpos mx * _ + _).
  assert (0 < M) as HM.
  { subst M.
    assert (0 < 2 ^ Z.max (ex - Z.min ex (-30)) 0)
      by (apply Z.pow_pos_nonneg; lia).
    assert (0 < 2 ^ Z.max (-30 - Z.min ex (-30)) 0)
      by (apply Z.pow_pos_nonneg; lia).
    nia. }
  unfold binary_normalize. destruct M as [|m|m]; [lia | | lia].
  pose proof (binary_round_valid false m (Z.min ex (-30))) as [Hvalid Hsigned].
  destruct (F32.gtb _ F32.one) eqn:Hgt; [reflexivity|].
  destruct (binary_round _ _ _ _ _) as [s | s | | s m' e'];
    cbn [signed] in Hsigned; [subst s.. | done | subst s].
  - reflexivity.
  - done.
  - unfold F32.inUnit. rewrite Hvalid. cbn [andb F32.leb F32.zero SFleb SFcompare].
    rewrite one_eq in *. by apply leb_finite_total.
Qed.

(** ** The volume range *)

Lemma target_inUnit (right : bool) (v : float32) :
  F32.inUnit v = true -> F32.inUnit (target right v) = true.
Proof. destruct right; [apply raise_inUnit | apply lower_inUnit]. Qed.

Lemma mappingOf_inUnit (cm : ConfigManager) (key : string) :
  volumesInUnit cm -> F32.inUnit (Volume (mappingOf cm key)) = true.
Proof.
  intros Hcm. unfold mappingOf.
  destruct (stored cm key) as [sm|] eqn:Hst; [by apply (Hcm key)|reflexivity].
Qed.

(** Delivery keeps the volumes in range when the wanted value is. *)
Lemma deliver_inUnit (w : World) :
  inVolumeMode w ->
  F32.inUnit (wantedValue w) = true ->
  inVolumeMode (deliver w).2 /\
  wantedValue (deliver w).2 = wantedValue w /\
  exists tr,
    trace (deliver w).2 = (trace w ++ tr)%list /\ Forall effectInUnit tr.
Proof.
  intros ([c Hc] & Hheld & Hvol) Hwanted.
  destruct (emits w) eqn:He.
  - destruct (SliderMappings c) as [m|] eqn:Hm.
    + rewrite (deliver_emits w c m Hc Hm He). cbn [snd].
      split; [|split; [reflexivity|]].
      * split; [|split; [exact Hheld|]].
        { cbn [withEffects configManager]. unfold afterWriteBacks.
          destruct (sliderMoveConsumers w); [by exists c | by eexists]. }
        cbn [withEffects configManager]. unfold afterWriteBacks.
        destruct (sliderMoveConsumers w); [exact Hvol|].
        intros key sm. rewrite stored_storeMapping.
        destruct (decide (currentSliderName w = key)) as [<- | Hne].
        -- rewrite lookup_insert_eq. by intros [= <-].
        -- rewrite lookup_insert_ne by done. intros Hk. apply (Hvol key).
           unfold stored. by rewrite Hc, Hm.
      * exists (deliveryTrace w). split; [reflexivity|].
        unfold deliveryTrace. induction (sliderMoveConsumers w) as [|ch l IH];
          cbn [flat_map app]; [constructor|].
        constructor; [exact Hwanted|]. constructor; [exact Hwanted | exact IH].
    + rewrite (deliver_nil_map w c Hc Hm He).
      split; [by split; [exists c|]|]. split; [reflexivity|].
      eexists. split; [reflexivity|].
      destruct (sliderMoveConsumers w); repeat constructor. exact Hwanted.
  - rewrite (deliver_quiet w c Hc He). cbn [snd].
    split; [by split; [exists c|]|]. split; [reflexivity|].
    exists []. by rewrite app_nil_r.
Qed.

(** One rotation token outside channel selection. *)
Lemma rotation_inUnit (right : bool) (w : World) :
  inVolumeMode w ->
  let w' := (handleLine (rotation right) w).2 in
  inVolumeMode w' /\
  F32.inUnit (wantedValue w') = true /\
  wantedValue w' =
    target right (Volume (mappingOf (configManager w) (currentSliderName w))) /\
  exists tr, trace w' = (trace w ++ tr)%list /\ Forall effectInUnit tr.
Proof.
  intros Hmode. pose proof Hmode as ([c Hc] & Hheld & Hvol). intros w'.
  set (w1 := withInterp w (currentSliderIndex w) (currentSliderName w)
               (target right
                  (Volume (mappingOf (configManager w) (currentSliderName w))))
               false true).
  assert (handleLine (rotation right) w = deliver w1) as Hrun.
  { unfold rotation, target in *. destruct right.
    - rewrite handleLine_r. unfold bind.
      by rewrite (rotateRight_volume w c Hc Hheld).
    - rewrite handleLine_l. unfold bind.
      by rewrite (rotateLeft_volume w c Hc Hheld). }
  subst w'. rewrite Hrun.
  assert (F32.inUnit (wantedValue w1) = true) as Hwanted
    by (apply target_inUnit, mappingOf_inUnit, Hvol).
  assert (inVolumeMode w1) as Hmode1 by (split; [by exists c | done]).
  destruct (deliver_inUnit w1 Hmode1 Hwanted) as (Hmode' & Hsame & Htr).
  split; [exact Hmode'|]. rewrite Hsame. done.
Qed.

(** C5, as the code has it.  Outside channel selection, on a loaded
    configuration whose stored volumes lie between 0.0 and 1.0: a left
    turn computes the stored
    volume of the current name minus 0.01, or 0.0 where that is below
    0.0, and a right turn the stored volume plus 0.01, or 1.0 where that
    is above 1.0; and after any sequence of such turns the value computed
    last lies between 0.0 and 1.0, as do every value sent and every value
    written back on the way and every stored volume at the end. *)
Theorem volume_stays_in_unit (tokens : list bool) (w : World) :
  inVolumeMode w ->
  (forall right,
     wantedValue (handleLine (rotation right) w).2 =
       let v := Volume (mappingOf (configManager w) (currentSliderName w)) in
       if right
       then (let x := F32.add v (F32.dec 1 100) in
             if F32.gtb x (F32.dec 1 1) then F32.dec 1 1 else x)
       else (let x := F32.sub v (F32.dec 1 100) in
             if F32.ltb x F32.zero then F32.zero else x)) /\
  let w' := (handleLines (rotation <$> tokens) w).2 in
  inVolumeMode w' /\
  (tokens <> [] -> F32.inUnit (wantedValue w') = true) /\
  exists tr, trace w' = (trace w ++ tr)%list /\ Forall effectInUnit tr.
Proof.
  intros Hmode. split.
  { intros right.
    destruct (rotation_inUnit right w Hmode) as (_ & _ & -> & _).
    by destruct right. }
  revert w Hmode. induction tokens as [|right tokens IH]; intros w Hmode.
  - cbn. split; [done|]. split; [done|]. exists []. by rewrite app_nil_r.
  - cbn [fmap list_fmap handleLines]. unfold bind.
    destruct (rotation_inUnit right w Hmode) as (Hmode1 & Hwanted & _ & tr1 & Htr1 & Hin1).
    destruct (handleLine (rotation right) w) as [[[]|p] w1]; cbn [snd] in *.
    + destruct (IH w1 Hmode1) as (Hmode' & Hwanted' & tr & Htr & Hin).
      split; [exact Hmode'|]. split.
      * intros _. destruct tokens as [|right' tokens']; [exact Hwanted|].
        by apply Hwanted'.
      * exists (tr1 ++ tr)%list. rewrite Htr, Htr1, app_assoc.
        split; [done|]. by apply Forall_app.
    + split; [exact Hmode1|]. split; [done|]. by exists tr1.
Qed.

Lemma masterAt_inUnit (v : float32) :
  F32.inUnit v = true -> volumesInUnit (masterAt v).
Proof.
  intros Hv key sm. unfold stored, masterAt.
  cbn [cmConfig SliderMappings withSliderMappings mapGet].
  rewrite !lookup_insert. repeat case_decide; try done; by intros [= <-].
Qed.

Lemma volume_stays_in_unit_witness :
  let w := withInterp (startWorld (masterAt (F32.dec 995 1000)) [0%nat])
             0 "master" F32.zero false false in
  let w' := (handleLines (rotation <$> [true; true; false]) w).2 in
  wantedValue (handleLine (rotation true) w).2 = F32.dec 1 1 /\
  wantedValue w' = F32.dec 99 100 /\
  F32.inUnit (wantedValue w') = true /\
  sends (trace w') =
    [(0%nat, {| SliderID := "master"; PercentValue := F32.dec 1 1 |});
     (0%nat, {| SliderID := "master"; PercentValue := F32.dec 99 100 |})].
Proof.
  intros w w'.
  assert (inVolumeMode w) as Hmode.
  { split; [by eexists|]. split; [reflexivity|].
    by apply masterAt_inUnit. }
  destruct (volume_stays_in_unit [true; true; false] w Hmode)
    as (Hstep & _ & Hwanted & _).
  split; [rewrite (Hstep true); vm_compute; reflexivity|].
  split; [vm_compute; reflexivity|].
  split; [apply Hwanted; discriminate | vm_compute; reflexivity].
Defined.

(** C5 as the specification words it fails on the code: nothing keeps a
    stored volume within the range.  With master stored at 1.5 a left
    turn computes 1.49, which is above 1.0: only the floor is applied to a
    left turn.  The value is sent and stored.  The same happens in a
    session on a loaded file that stores 1.5, once a press and a release
    have resolved the name. *)
Lemma stored_volume_above_one_stays_above :
  (let w := withInterp (startWorld (masterAt (F32.dec 3 2)) [0%nat])
              0 "master" F32.zero false false in
   let w' := (handleLine (rotation false) w).2 in
   let computed := F32.sub (F32.dec 3 2) (F32.dec 1 100) in
   (handleLine (rotation false) w).1 = Ok tt /\
   isButtonHeld w = false /\
   wantedValue w' = computed /\
   F32.gtb computed (F32.dec 1 1) = true /\
   F32.inUnit computed = false /\
   sends (trace w')
     = [(0%nat, {| SliderID := "master"; PercentValue := computed |})] /\
   stored (configManager w') "master" = Some (withVolume half computed)) /\
  (let cm := (Load (onDisk (Opened loudFile)) 0
                (NewConfigManager "config.yaml")).1 in
   let w' := (handleLines [tokenLine "d"; tokenLine "u"; tokenLine "l"]
                (startWorld cm [0%nat])).2 in
   let computed := F32.sub (F32.dec 3 2) (F32.dec 1 100) in
   (Load (onDisk (Opened loudFile)) 0 (NewConfigManager "config.yaml")).2
     = None /\
   isButtonHeld w' = false /\
   wantedValue w' = computed /\
   F32.inUnit computed = false /\
   sends (trace w')
     = [(0%nat, {| SliderID := "master"; PercentValue := computed |})]).
Proof. vm_compute. repeat split; reflexivity. Qed.

(** * More properties of the code *)

(** ** The queries and updates of the manager *)

Lemma index_in_range (keys : list string) (index : Z) :
  0 <= index < Z.of_nat (length keys) ->
  (index <? 0) || (index >=? Z.of_nat (length keys)) = false.
Proof. intros H. apply orb_false_intro; lia. Qed.

Lemma index_out_of_range (keys : list string) (index : Z) :
  index < 0 \/ Z.of_nat (length keys) <= index ->
  (index <? 0) || (index >=? Z.of_nat (length keys)) = true.
Proof. intros H. apply orb_true_iff. lia. Qed.

(** An index of the sequence names a key. *)
Lemma index_names_key (cm : ConfigManager) (index : Z) :
  0 <= index < Z.of_nat (length (orderedSliderKeys cm)) ->
  exists key,
    orderedSliderKeys cm !! Z.to_nat index = Some key /\
    getSliderMappingKeyByIndex cm index = Ok (key, None).
Proof.
  intros Hin. pose proof (index_in_range _ _ Hin) as Hr.
  destruct (keys_lookup_in_range _ _ Hr) as [key Hkey]. exists key.
  split; [done|]. unfold getSliderMappingKeyByIndex. by rewrite Hr, Hkey.
Qed.

(** X1. The two queries by index answer with an error, the zero mapping
    and the empty key, exactly for an index below 0 or not below the
    length of the ordered key sequence, and then without looking at the
    [Config].  For an index of the sequence on a loaded manager they
    answer without an error with the key at the index and with what the
    query by key answers for that key; only the query by key reports a
    key of the sequence that the slider map lacks. *)
Theorem queries_by_index (cm : ConfigManager) (index : Z) :
  let n := Z.of_nat (length (orderedSliderKeys cm)) in
  (index < 0 \/ n <= index ->
     getSliderMappingByIndex cm index
       = Ok (zeroSliderMapping, Some (ErrInvalidIndex index)) /\
     getSliderMappingKeyByIndex cm index
       = Ok ("", Some (ErrIndexOutOfRange index))) /\
  (0 <= index < n ->
     exists key,
       orderedSliderKeys cm !! Z.to_nat index = Some key /\
       getSliderMappingKeyByIndex cm index = Ok (key, None) /\
       forall c, cmConfig cm = Some c ->
         exists e,
           getSliderMappingByKey cm key = Ok (mappingOf cm key, e) /\
           getSliderMappingByIndex cm index = Ok (mappingOf cm key, None) /\
           (e = None <-> is_Some (stored cm key))).
Proof.
  intros n. subst n. split.
  - intros Hout. unfold getSliderMappingByIndex, getSliderMappingKeyByIndex.
    by rewrite (index_out_of_range _ _ Hout).
  - intros Hin. pose proof (index_in_range _ _ Hin) as Hr.
    destruct (keys_lookup_in_range _ _ Hr) as [key Hkey]. exists key.
    split; [done|].
    unfold getSliderMappingByIndex, getSliderMappingKeyByIndex.
    rewrite Hr, Hkey. split; [done|]. intros c Hc.
    unfold getSliderMappingByKey, mappingOf, stored. rewrite Hc.
    destruct (mapGet (SliderMappings c) key) as [sm|]; eexists;
      (split; [reflexivity|]); (split; [reflexivity|]).
    + split; [by eexists | done].
    + split; [done | by intros [? ?]].
Qed.

Lemma queries_by_index_witness :
  getSliderMappingByIndex threeSliders 3
    = Ok (zeroSliderMapping, Some (ErrInvalidIndex 3)) /\
  getSliderMappingKeyByIndex threeSliders (-1)
    = Ok ("", Some (ErrIndexOutOfRange (-1))) /\
  getSliderMappingKeyByIndex threeSliders 2 = Ok ("chat", None).
Proof.
  destruct (queries_by_index threeSliders 3) as [Hout3 _].
  destruct (queries_by_index threeSliders (-1)) as [Hout _].
  destruct (queries_by_index threeSliders 2) as [_ Hin].
  split; [apply Hout3; right; vm_compute; discriminate|].
  split; [apply Hout; left; reflexivity|].
  destruct Hin as (key & Hkey & Hq & _); [vm_compute; split; [discriminate | reflexivity]|].
  vm_compute in Hkey. by injection Hkey as <-.
Defined.

(** X2. [UpdateSliderMappingByKey] panics exactly on a manager without a
    [Config] or with a nil slider map.  Otherwise the query by key
    afterwards answers with the mapping just stored and no error, every
    other key is answered as before, the count grows by one if the key
    was not stored and stays otherwise, the ordered key sequence is the
    same and the manager is marked modified. *)
Theorem update_then_query_by_key (cm : ConfigManager) (key : string)
    (mapping : SliderMapping) :
  ((exists p, UpdateSliderMappingByKey cm key mapping = Panicked p) <->
   forall c, cmConfig cm = Some c -> SliderMappings c = None) /\
  forall cm',
    UpdateSliderMappingByKey cm key mapping = Ok cm' ->
    getSliderMappingByKey cm' key = Ok (mapping, None) /\
    (forall other, other <> key ->
       getSliderMappingByKey cm' other = getSliderMappingByKey cm other) /\
    (exists count,
       getSliderMappingCount cm = Ok count /\
       getSliderMappingCount cm' =
         Ok (match stored cm key with
             | Some _ => count
             | None => count + 1
             end)) /\
    orderedSliderKeys cm' = orderedSliderKeys cm /\
    configModified cm' = true.
Proof.
  unfold UpdateSliderMappingByKey. split.
  - destruct (cmConfig cm) as [c|]; [|split; [done | by eexists]].
    destruct (SliderMappings c) as [m|] eqn:Hm.
    + split; [by intros [? ?]|]. intros H. specialize (H c eq_refl). congruence.
    + split; [by intros _ ? [= <-] | by eexists].
  - intros cm'. destruct (cmConfig cm) as [c|] eqn:Hc; [|done].
    destruct (SliderMappings c) as [m|] eqn:Hm; [|done]. intros [= <-].
    unfold getSliderMappingByKey, getSliderMappingCount, stored, storeMapping.
    cbn [cmConfig SliderMappings withSliderMappings mapGet mapLen
         orderedSliderKeys configModified].
    rewrite Hc, Hm. cbn [mapGet mapLen].
    split; [by rewrite lookup_insert_eq|].
    split; [intros other Hne; by rewrite lookup_insert_ne|].
    split; [|done]. eexists. split; [reflexivity|].
    destruct (m !! key) as [old|] eqn:Hold.
    + rewrite map_size_insert_Some by done. reflexivity.
    + rewrite map_size_insert_None by done. f_equal. lia.
Qed.

Lemma update_then_query_by_key_witness :
  exists cm',
    UpdateSliderMappingByKey threeSliders "game" zeroSliderMapping = Ok cm' /\
    getSliderMappingByKey cm' "game" = Ok (zeroSliderMapping, None) /\
    getSliderMappingByKey cm' "chat" = Ok (half, None) /\
    getSliderMappingCount cm' = Ok 3.
Proof.
  eexists. split; [reflexivity|].
  destruct (proj2 (update_then_query_by_key threeSliders "game"
                     zeroSliderMapping) _ eq_refl)
    as (Hget & Hothers & (count & Hcount & Hcount') & _).
  split; [exact Hget|].
  split; [rewrite (Hothers "chat") by discriminate; vm_compute; reflexivity|].
  rewrite Hcount'. vm_compute in Hcount. injection Hcount as <-.
  vm_compute. reflexivity.
Defined.

(** X3. [UpdateSliderMappingByIndex] does not check its index: below 0 or
    not below the length of the ordered key sequence it panics where the
    query by index answers with an error.  For an index of the sequence,
    on a manager with a slider map, it stores the mapping under the key
    at the index: the query by the same index then answers with that
    mapping, the query by an index with another key answers as before,
    and the manager is marked modified. *)
Theorem update_then_query_by_index (cm : ConfigManager) (index : Z)
    (mapping : SliderMapping) :
  let n := Z.of_nat (length (orderedSliderKeys cm)) in
  (index < 0 \/ n <= index ->
     UpdateSliderMappingByIndex cm index mapping = Panicked IndexOutOfRange /\
     exists e, getSliderMappingByIndex cm index = Ok (zeroSliderMapping, Some e)) /\
  (0 <= index < n ->
     forall c m, cmConfig cm = Some c -> SliderMappings c = Some m ->
     exists cm',
       UpdateSliderMappingByIndex cm index mapping = Ok cm' /\
       getSliderMappingByIndex cm' index = Ok (mapping, None) /\
       (forall other,
          keyAt cm other <> keyAt cm index ->
          getSliderMappingByIndex cm' other = getSliderMappingByIndex cm other) /\
       orderedSliderKeys cm' = orderedSliderKeys cm /\
       configModified cm' = true).
Proof.
  intros n. subst n. split.
  - intros Hout. unfold UpdateSliderMappingByIndex, getSliderMappingByIndex.
    rewrite (index_out_of_range _ _ Hout). by eauto.
  - intros Hin c m Hc Hm. pose proof (index_in_range _ _ Hin) as Hr.
    destruct (keys_lookup_in_range _ _ Hr) as [key Hkey].
    unfold UpdateSliderMappingByIndex, UpdateSliderMappingByKey.
    rewrite Hr, Hkey, Hc, Hm. eexists. split; [reflexivity|].
    assert (keyAt cm index = key) as Hat.
    { unfold keyAt, getSliderMappingKeyByIndex. by rewrite Hr, Hkey. }
    split; [|split; [|done]].
    + unfold getSliderMappingByIndex, storeMapping.
      cbn [orderedSliderKeys cmConfig SliderMappings withSliderMappings mapGet].
      rewrite Hr, Hkey. by rewrite lookup_insert_eq.
    + intros other Hother. rewrite Hat in Hother.
      unfold getSliderMappingByIndex, storeMapping.
      cbn [orderedSliderKeys cmConfig SliderMappings withSliderMappings mapGet].
      destruct ((other <? 0) || _) eqn:Hr'; [done|].
      destruct (keys_lookup_in_range _ _ Hr') as [key' Hkey'].
      rewrite Hkey', Hc, Hm. cbn [mapGet].
      assert (keyAt cm other = key') as Hat'.
      { unfold keyAt, getSliderMappingKeyByIndex. by rewrite Hr', Hkey'. }
      rewrite lookup_insert_ne by congruence. done.
Qed.

Lemma update_then_query_by_index_witness :
  UpdateSliderMappingByIndex threeSliders 3 zeroSliderMapping
    = Panicked IndexOutOfRange /\
  exists cm',
    UpdateSliderMappingByIndex threeSliders 1 zeroSliderMapping = Ok cm' /\
    getSliderMappingByIndex cm' 1 = Ok (zeroSliderMapping, None) /\
    getSliderMappingByIndex cm' 0 = Ok (half, None).
Proof.
  destruct (update_then_query_by_index threeSliders 3 zeroSliderMapping)
    as [Hout _].
  destruct (update_then_query_by_index threeSliders 1 zeroSliderMapping)
    as [_ Hin].
  split; [apply Hout; right; vm_compute; discriminate|].
  destruct (Hin ltac:(vm_compute; split; [discriminate | reflexivity])
              _ _ eq_refl eq_refl) as (cm' & Hrun & Hget & Hothers & _).
  exists cm'. split; [exact Hrun|]. split; [exact Hget|].
  rewrite (Hothers 0) by (vm_compute; discriminate).
  vm_compute. reflexivity.
Defined.

Lemma collectMappings_all (m : option (gmap string SliderMapping))
    (keys : list string) :
  Forall (fun key => is_Some (mapGet m key)) keys ->
  collectMappings m keys
    = inl ((fun key => default zeroSliderMapping (mapGet m key)) <$> keys).
Proof.
  induction 1 as [|key keys [sm Hsm] _ IH]; [reflexivity|].
  cbn [collectMappings fmap list_fmap]. by rewrite Hsm, IH.
Qed.

Lemma collectMappings_missing (m : option (gmap string SliderMapping))
    (before after : list string) (key : string) :
  Forall (fun key => is_Some (mapGet m key)) before ->
  mapGet m key = None ->
  collectMappings m (before ++ key :: after) = inr (ErrMappingMissing key).
Proof.
  induction 1 as [|k keys [sm Hsm] _ IH]; intros Hkey; cbn [app collectMappings].
  - by rewrite Hkey.
  - by rewrite Hsm, IH.
Qed.

(** [getSliderMappings] where every key of the sequence is stored. *)
Lemma all_mappings_total (cm : ConfigManager) (c : Config) :
  cmConfig cm = Some c ->
  orderedSliderKeys cm <> [] ->
  Forall (fun key => is_Some (stored cm key)) (orderedSliderKeys cm) ->
  getSliderMappings cm = Ok (inl (mappingOf cm <$> orderedSliderKeys cm)).
Proof.
  intros Hc Hne Hall.
  unfold getSliderMappings, mappingOf, stored in *. rewrite Hc in *.
  destruct (orderedSliderKeys cm) as [|k keys]; [done|].
  cbn [length Nat.eqb]. by rewrite collectMappings_all.
Qed.

(** X4. [getSliderMappings] fails with its own error on an empty key
    sequence, without looking at the [Config].  On a loaded manager with
    keys it answers with the stored mappings in the order of the
    sequence when every key of the sequence is stored, and fails naming
    the first key of the sequence that is not stored otherwise. *)
Theorem all_mappings_in_order (cm : ConfigManager) (c : Config) :
  cmConfig cm = Some c ->
  (orderedSliderKeys cm = [] -> getSliderMappings cm = Ok (inr ErrNoMappings)) /\
  (orderedSliderKeys cm <> [] ->
     Forall (fun key => is_Some (stored cm key)) (orderedSliderKeys cm) ->
     getSliderMappings cm = Ok (inl (mappingOf cm <$> orderedSliderKeys cm))) /\
  (forall before key after,
     orderedSliderKeys cm = (before ++ key :: after)%list ->
     Forall (fun key => is_Some (stored cm key)) before ->
     stored cm key = None ->
     getSliderMappings cm = Ok (inr (ErrMappingMissing key))).
Proof.
  intros Hc. unfold getSliderMappings, mappingOf, stored. rewrite Hc.
  split; [by intros ->|]. split.
  - intros Hne Hall. destruct (orderedSliderKeys cm) as [|k keys]; [done|].
    cbn [length Nat.eqb]. by rewrite collectMappings_all.
  - intros before key after -> Hall Hkey.
    rewrite length_app. cbn [length].
    replace (length before + S (length after))%nat
      with (S (length before + length after)) by lia.
    cbn [Nat.eqb]. by rewrite collectMappings_missing.
Qed.

Lemma all_mappings_in_order_witness :
  getSliderMappings threeSliders = Ok (inl [half; half; half]) /\
  getSliderMappings (setOrderedSliderKeys threeSliders ["master"; "aux"; "chat"])
    = Ok (inr (ErrMappingMissing "aux")).
Proof.
  destruct (all_mappings_in_order threeSliders _ eq_refl) as (_ & Hall & _).
  destruct (all_mappings_in_order
              (setOrderedSliderKeys threeSliders ["master"; "aux"; "chat"])
              _ eq_refl) as (_ & _ & Hmissing).
  split.
  - rewrite Hall; [vm_compute; reflexivity | discriminate |].
    repeat constructor; vm_compute; by eexists.
  - apply (Hmissing ["master"] "aux" ["chat"]); [reflexivity | | reflexivity].
    repeat constructor. vm_compute. by eexists.
Defined.

(** ** A manager after a load *)

Lemma mapLen_mapKeys {V} (m : option (gmap string V)) :
  mapLen m = Z.of_nat (length (mapKeys m)).
Proof.
  destruct m as [g|]; cbn [mapLen mapKeys]; [|reflexivity].
  by rewrite length_fmap, length_map_to_list.
Qed.

Lemma Load_keys_stored (fs : FileSystem) (seed : nat) (cm cm' : ConfigManager) :
  Load fs seed cm = (cm', None) ->
  exists c,
    cmConfig cm' = Some c /\
    mapLen (SliderMappings c) = Z.of_nat (length (orderedSliderKeys cm')) /\
    NoDup (orderedSliderKeys cm') /\
    forall key, key ∈ orderedSliderKeys cm' <-> is_Some (stored cm' key).
Proof.
  intros Hload.
  destruct (Load_done _ _ _ _ Hload) as (file & c & _ & _ & Hc & Hkeys).
  exists c. split; [done|]. rewrite Hkeys.
  split; [by rewrite mapRange_perm, mapLen_mapKeys|].
  split; [rewrite mapRange_perm; apply mapKeys_NoDup|].
  intros key. unfold stored. by rewrite Hc, mapRange_perm, elem_of_mapKeys.
Qed.

(** X5. After a [Load] that succeeds the manager is coherent: the count
    of sliders is the length of the ordered key sequence; every index
    below the count names, without an error, a key whose mapping the
    queries by key and by index both answer with; every stored slider has
    exactly one index; the index equal to the count is an error; and
    [getSliderMappings] answers with as many mappings as the count when
    there is a slider, and with an error when there is none. *)
Theorem load_leaves_coherent_manager (fs : FileSystem) (seed : nat)
    (cm cm' : ConfigManager) :
  Load fs seed cm = (cm', None) ->
  exists count,
    getSliderMappingCount cm' = Ok count /\
    count = Z.of_nat (length (orderedSliderKeys cm')) /\
    (forall index, 0 <= index < count ->
       exists key sm,
         getSliderMappingKeyByIndex cm' index = Ok (key, None) /\
         getSliderMappingByKey cm' key = Ok (sm, None) /\
         getSliderMappingByIndex cm' index = Ok (sm, None)) /\
    (forall key sm, stored cm' key = Some sm ->
       exists index,
         0 <= index < count /\
         forall other,
           getSliderMappingKeyByIndex cm' other = Ok (key, None) <->
           other = index) /\
    (exists e, getSliderMappingKeyByIndex cm' count = Ok ("", Some e)) /\
    (count <> 0 ->
       exists mappings,
         getSliderMappings cm' = Ok (inl mappings) /\
         Z.of_nat (length mappings) = count) /\
    (count = 0 -> getSliderMappings cm' = Ok (inr ErrNoMappings)).
Proof.
  intros Hload.
  destruct (Load_keys_stored _ _ _ _ Hload) as (c & Hc & Hlen & Hnodup & Hkeys).
  exists (mapLen (SliderMappings c)).
  split; [unfold getSliderMappingCount; by rewrite Hc|]. split; [done|].
  rewrite Hlen. split; [|split; [|split; [|split]]].
  - intros index Hin.
    destruct (index_names_key cm' index Hin) as (key & Hkey & Hq).
    assert (is_Some (stored cm' key)) as [sm Hsm].
    { apply Hkeys. by eapply list_elem_of_lookup_2. }
    exists key, sm. split; [done|].
    unfold getSliderMappingByKey, getSliderMappingByIndex.
    rewrite (index_in_range _ _ Hin), Hkey, Hc.
    unfold stored in Hsm. rewrite Hc in Hsm. by rewrite Hsm.
  - intros key sm Hsm.
    assert (key ∈ orderedSliderKeys cm') as Hin by (apply Hkeys; by eexists).
    apply list_elem_of_lookup_1 in Hin as [i Hi].
    pose proof (lookup_lt_Some _ _ _ Hi) as Hlt.
    exists (Z.of_nat i). split; [lia|]. intros other. split.
    + intros Hother. unfold getSliderMappingKeyByIndex in Hother.
      destruct ((other <? 0) || _) eqn:Hr; [done|].
      destruct (keys_lookup_in_range _ _ Hr) as [key' Hkey'].
      rewrite Hkey' in Hother. injection Hother as ->.
      apply orb_false_elim in Hr as [Hr _].
      pose proof (NoDup_lookup _ _ _ _ Hnodup Hkey' Hi). lia.
    + intros ->. unfold getSliderMappingKeyByIndex.
      rewrite index_in_range by lia. by rewrite Nat2Z.id, Hi.
  - eexists. unfold getSliderMappingKeyByIndex.
    by rewrite index_out_of_range by lia.
  - intros Hne.
    exists (mappingOf cm' <$> orderedSliderKeys cm').
    split; [|by rewrite length_fmap].
    apply (all_mappings_total cm' c Hc).
    + destruct (orderedSliderKeys cm'); [done | discriminate].
    + apply Forall_forall. intros key Hin. by apply Hkeys.
  - intros H0. unfold getSliderMappings.
    destruct (orderedSliderKeys cm'); [done | cbn in H0; lia].
Qed.

Lemma load_leaves_coherent_manager_witness :
  let cm' := (Load (onDisk (Opened scenarioFile)) 0
                (NewConfigManager "config.yaml")).1 in
  getSliderMappingCount cm' = Ok 3 /\
  exists e, getSliderMappingKeyByIndex cm' 3 = Ok ("", Some e).
Proof.
  intros cm'.
  destruct (load_leaves_coherent_manager (onDisk (Opened scenarioFile)) 0
              (NewConfigManager "config.yaml") cm')
    as (count & Hcount & Hlen & _ & _ & Hceiling & _);
    [vm_compute; reflexivity|].
  vm_compute in Hlen. subst count. split; [exact Hcount | exact Hceiling].
Defined.

(** X6. A [Load] that opens the file takes nothing of the [Config] from
    memory: two managers on the same path end with the same [Config] and
    the same error, whatever they held before; so slider updates that
    were not saved are gone.  When the decoding succeeds their ordered
    keys are the same keys, each once, in the order the runtime happens
    to range over the map at each [Load], which need not be the same;
    when it fails each keeps the ordered keys it had.  The mark of a
    modified [Config] and the path are left as they were, so a manager
    marked modified stays marked. *)
Theorem reload_discards_memory (fs : FileSystem) (seed seed' : nat)
    (cm cm' : ConfigManager) (file : Yaml.content) :
  fs (configFilePath cm) = Opened file ->
  configFilePath cm' = configFilePath cm ->
  cmConfig (Load fs seed' cm').1 = cmConfig (Load fs seed cm).1 /\
  (Load fs seed' cm').2 = (Load fs seed cm).2 /\
  ((Load fs seed cm).2 = None ->
     orderedSliderKeys (Load fs seed' cm').1
       ≡ₚ orderedSliderKeys (Load fs seed cm).1 /\
     NoDup (orderedSliderKeys (Load fs seed cm).1)) /\
  ((Load fs seed cm).2 <> None ->
     orderedSliderKeys (Load fs seed' cm').1 = orderedSliderKeys cm') /\
  configModified (Load fs seed' cm').1 = configModified cm' /\
  configFilePath (Load fs seed' cm').1 = configFilePath cm'.
Proof.
  intros Hfile Hpath. unfold Load. rewrite Hpath, Hfile.
  destruct (Yaml.Decode _ _) as [c [causes|]]; cbn; repeat split; try done.
  - by rewrite !mapRange_perm.
  - rewrite mapRange_perm. apply mapKeys_NoDup.
Qed.

Lemma reload_discards_memory_witness :
  exists cm',
    UpdateSliderMappingByKey threeSliders "extra" half = Ok cm' /\
    stored cm' "extra" = Some half /\
    stored (Load (onDisk (Opened scenarioFile)) 4 cm').1 "extra" = None /\
    configModified (Load (onDisk (Opened scenarioFile)) 4 cm').1 = true /\
    orderedSliderKeys (Load (onDisk (Opened scenarioFile)) 4 cm').1
      ≡ₚ orderedSliderKeys (Load (onDisk (Opened scenarioFile)) 0 threeSliders).1 /\
    orderedSliderKeys (Load (onDisk (Opened scenarioFile)) 4 cm').1
      <> orderedSliderKeys (Load (onDisk (Opened scenarioFile)) 0 threeSliders).1.
Proof.
  eexists. split; [reflexivity|]. split; [vm_compute; reflexivity|].
  match goal with
  | |- stored (Load _ _ ?cm').1 _ = _ /\ _ =>
      destruct (reload_discards_memory (onDisk (Opened scenarioFile)) 0 4
                  threeSliders cm' scenarioFile eq_refl eq_refl)
        as (Hc & _ & Hkeys & _ & Hmod & _)
  end.
  split; [unfold stored; rewrite Hc; vm_compute; reflexivity|].
  split; [exact Hmod|].
  split; [apply Hkeys; vm_compute; reflexivity|].
  vm_compute. discriminate.
Defined.

(** ** Saving *)

Section SavingFacts.

Variable Encode : option Config -> Yaml.content * option string.

Lemma saveTick_clean (d : Disk) (cm : ConfigManager) :
  configModified cm = false -> saveTick Encode d cm = (d, cm).
Proof. unfold saveTick. by intros ->. Qed.

Lemma saver_clean (inputs : list saverInput) (d : Disk) (cm : ConfigManager) :
  configModified cm = false ->
  PeriodicallySaveConfig Encode inputs d cm = (d, cm).
Proof.
  intros Hclean. induction inputs as [|[|] inputs IH]; cbn; [done | | done].
  by rewrite saveTick_clean.
Qed.

(** X7. [SaveConfig] never changes the [Config], the ordered keys or the
    path, and touches no file but the manager's.  It clears the mark of
    a modified [Config] exactly when it returns no error.  When the file
    cannot be created the disk is as before; once it is created it holds
    what the encoder has written, also when the encoder then fails, so a
    failed save can leave the file changed with the manager still
    marked modified. *)
Theorem save_config (d d' : Disk) (cm cm' : ConfigManager)
    (err : option saveError) :
  SaveConfig Encode d cm = (d', cm', err) ->
  cmConfig cm' = cmConfig cm /\
  orderedSliderKeys cm' = orderedSliderKeys cm /\
  configFilePath cm' = configFilePath cm /\
  configModified cm'
    = match err with Some _ => configModified cm | None => false end /\
  (forall path, path <> configFilePath cm -> reads d' path = reads d path) /\
  match err with
  | Some (ErrCreateConfig cause) =>
      createFails d (configFilePath cm) = Some cause /\ d' = d
  | Some (ErrEncodeConfig cause) =>
      createFails d (configFilePath cm) = None /\
      (Encode (cmConfig cm)).2 = Some cause /\
      reads d' (configFilePath cm) = Opened (Encode (cmConfig cm)).1
  | None =>
      createFails d (configFilePath cm) = None /\
      (Encode (cmConfig cm)).2 = None /\
      reads d' (configFilePath cm) = Opened (Encode (cmConfig cm)).1
  end.
Proof.
  unfold SaveConfig.
  destruct (createFails d (configFilePath cm)) as [cause|] eqn:Hcreate.
  { intros [= <- <- <-]. done. }
  destruct (Encode (cmConfig cm)) as [written [cause|]] eqn:Hencode;
    intros [= <- <- <-]; cbn [fst snd cmConfig orderedSliderKeys
      configFilePath configModified setModified writeFile reads];
    rewrite String.eqb_refl;
    (repeat split; try done);
    intros path Hpath; by apply String.eqb_neq in Hpath as ->.
Qed.

(** X8. The periodic saver does nothing, whatever the ticks, for a
    manager that is not marked modified.  For one that is, on a disk where
    the file can be created and with an encoder that succeeds, the first
    tick writes the encoding of the [Config] and clears the mark, and the
    ticks after it write nothing more.  Where the file cannot be created
    every tick fails the same way: disk and manager stay as they are, the
    mark included.  Nothing after the stop signal is looked at. *)
Theorem periodic_save (inputs rest : list saverInput) (d : Disk)
    (cm : ConfigManager) :
  (configModified cm = false ->
     PeriodicallySaveConfig Encode inputs d cm = (d, cm)) /\
  (configModified cm = true ->
   createFails d (configFilePath cm) = None ->
   (Encode (cmConfig cm)).2 = None ->
     PeriodicallySaveConfig Encode (Tick :: inputs) d cm
       = (writeFile d (configFilePath cm) (Encode (cmConfig cm)).1,
          setModified cm false)) /\
  (is_Some (createFails d (configFilePath cm)) ->
     PeriodicallySaveConfig Encode inputs d cm = (d, cm)) /\
  PeriodicallySaveConfig Encode (inputs ++ StopSaver :: rest)%list d cm
    = PeriodicallySaveConfig Encode inputs d cm.
Proof.
  split; [apply saver_clean|]. split; [|split].
  - intros Hmod Hcreate Hencode. cbn [PeriodicallySaveConfig].
    unfold saveTick, SaveConfig. rewrite Hmod, Hcreate.
    destruct (Encode (cmConfig cm)) as [written err]. cbn in Hencode.
    subst err. cbn [fst]. by apply saver_clean.
  - intros [cause Hcreate].
    induction inputs as [|[|] inputs IH]; cbn; [done | | done].
    unfold saveTick, SaveConfig. rewrite Hcreate.
    by destruct (configModified cm).
  - revert d cm. induction inputs as [|[|] inputs IH]; intros d cm;
      cbn [app PeriodicallySaveConfig]; [done | | done].
    destruct (saveTick Encode d cm) as [d1 cm1]. apply IH.
Qed.

End SavingFacts.

Lemma save_config_witness :
  let encode := fun _ : option Config => (scenarioFile, @None string) in
  let d := {| reads := onDisk NotExist; createFails := fun _ => None |} in
  exists d' cm',
    SaveConfig encode d (setModified threeSliders true) = (d', cm', None) /\
    configModified cm' = false /\
    reads d' "config.yaml" = Opened scenarioFile.
Proof.
  intros encode d. eexists _, _. split; [reflexivity|].
  match goal with
  | |- configModified ?cm' = _ /\ reads ?d' _ = _ =>
      destruct (save_config encode d d' (setModified threeSliders true) cm'
                  None eq_refl)
        as (_ & _ & _ & Hmod & _ & _ & _ & Hfile)
  end.
  split; [exact Hmod | exact Hfile].
Defined.

Lemma periodic_save_witness :
  let encode := fun _ : option Config => (scenarioFile, @None string) in
  let d := {| reads := onDisk NotExist; createFails := fun _ => None |} in
  let locked := {| reads := onDisk NotExist;
                   createFails := fun _ => Some "permission denied" |} in
  exists cm,
    UpdateSliderMappingByKey threeSliders "game" zeroSliderMapping = Ok cm /\
    PeriodicallySaveConfig encode [Tick; Tick; StopSaver] d threeSliders
      = (d, threeSliders) /\
    PeriodicallySaveConfig encode [Tick; Tick; StopSaver] d cm
      = (writeFile d "config.yaml" scenarioFile, setModified cm false) /\
    PeriodicallySaveConfig encode [Tick; Tick] locked cm = (locked, cm).
Proof.
  intros encode d locked. eexists. split; [reflexivity|].
  match goal with
  | |- _ /\ PeriodicallySaveConfig _ _ _ ?cm = _ /\ _ =>
      destruct (periodic_save encode [Tick; StopSaver] [] d cm)
        as (_ & Hsave & _ & _);
      destruct (periodic_save encode [Tick; Tick] [] locked cm)
        as (_ & _ & Hlocked & _)
  end.
  destruct (periodic_save encode [Tick; Tick; StopSaver] [] d threeSliders)
    as (Hclean & _ & _ & _).
  split; [apply Hclean; reflexivity|].
  split; [apply Hsave; reflexivity|].
  apply Hlocked. by eexists.
Defined.

(** ** The watcher *)

Section WatcherFacts.

Variable Write : Z.

Lemma apart_snoc (gap : Z) (times : list Z) (first now : Z) :
  apart gap (first :: times) ->
  default first (last times) + gap < now ->
  apart gap (first :: times ++ [now]).
Proof.
  revert first. induction times as [|next times IH]; intros first.
  - cbn. tauto.
  - intros [Hnext Hrest] Hlast. split; [done|]. apply IH; [done|].
    rewrite last_cons in Hlast. by destruct (last times).
Qed.

Lemma onEvent_cases (s : Watch.State) (op now : Z) (fs : FileSystem)
    (seed : nat) :
  (honoured Write s op now /\
   Watch.onEvent Write s op now fs seed = Watch.reload s now fs seed) \/
  (~ honoured Write s op now /\ Watch.onEvent Write s op now fs seed = s).
Proof.
  unfold Watch.onEvent, honoured.
  destruct (Z.eqb_spec (Z.land op Write) Write) as [Hop|Hop];
    [|right; tauto].
  destruct (Z.ltb_spec (Watch.lastReload s + Watch.minTimeBetweenReloads) now)
    as [Hlate|Hsoon]; [left; tauto | right; split; [lia | done]].
Qed.

Lemma reload_fields (s : Watch.State) (now : Z) (fs : FileSystem) (seed : nat) :
  let s' := Watch.reload s now fs seed in
  Watch.lastReload s' = now /\
  Watch.loadedAt s' = (Watch.loadedAt s ++ [now])%list /\
  Watch.reloadConsumers s' = Watch.reloadConsumers s /\
  match (Load fs seed (Watch.manager s)).2 with
  | None =>
      Watch.signals s' = (Watch.signals s ++ Watch.reloadConsumers s)%list /\
      Watch.manager s'
        = Notify (Load fs seed (Watch.manager s)).1 "Configuration reloaded!"
            "Your changes have been applied."
  | Some _ =>
      Watch.signals s' = Watch.signals s /\
      Watch.manager s' = (Load fs seed (Watch.manager s)).1
  end.
Proof.
  unfold Watch.reload.
  by destruct (Load fs seed (Watch.manager s)) as [cm [err|]].
Qed.

Lemma onEvent_watched (start : Z) (s : Watch.State)
    (op now : Z) (fs : FileSystem) (seed : nat) :
  watched start s ->
  watched start (Watch.onEvent Write s op now fs seed) /\
  (length (Watch.loadedAt (Watch.onEvent Write s op now fs seed))
   <= S (length (Watch.loadedAt s)))%nat.
Proof.
  intros (Happart & Hlast).
  destruct (onEvent_cases s op now fs seed) as [[[_ Hlate] ->]|[_ ->]].
  2: { split; [done | lia]. }
  destruct (reload_fields s now fs seed) as (Hnow & Hat & _ & _).
  cbn zeta in *. unfold watched. rewrite Hnow, Hat, length_app.
  cbn [length]. split; [|lia].
  split; [apply apart_snoc; [done | by rewrite <- Hlast]|].
  by rewrite last_snoc.
Qed.

Lemma loop_watched (start : Z) (inputs : list Watch.input) (s : Watch.State) :
  watched start s ->
  watched start (Watch.loop Write inputs s) /\
  (length (Watch.loadedAt (Watch.loop Write inputs s))
   <= length (Watch.loadedAt s) + length inputs)%nat.
Proof.
  revert s. induction inputs as [|[op now fs seed| |] inputs IH]; intros s Hs;
    cbn [Watch.loop length]; try (split; [done | lia]).
  destruct (onEvent_watched start s op now fs seed Hs) as [Hs' Hlen].
  destruct (IH _ Hs') as [Hend Hlen']. split; [done | lia].
Qed.

(** Whether [Load] fails depends on the disk and the path alone. *)
Lemma Load_error_by_path (fs : FileSystem) (seed : nat)
    (cm cm' : ConfigManager) :
  configFilePath cm' = configFilePath cm ->
  (Load fs seed cm').2 = (Load fs seed cm).2.
Proof.
  intros Hpath. unfold Load. rewrite Hpath.
  destruct (fs (configFilePath cm)); [done | done|].
  by destruct (Yaml.Decode _ _) as [c [causes|]].
Qed.

Lemma Load_path (fs : FileSystem) (seed : nat) (cm : ConfigManager) :
  configFilePath (Load fs seed cm).1 = configFilePath cm.
Proof.
  unfold Load. destruct (fs (configFilePath cm)); [done | done|].
  by destruct (Yaml.Decode _ _) as [c [causes|]].
Qed.

Lemma reload_path (s : Watch.State) (now : Z) (fs : FileSystem) (seed : nat) :
  configFilePath (Watch.manager (Watch.reload s now fs seed))
  = configFilePath (Watch.manager s).
Proof.
  destruct (reload_fields s now fs seed) as (_ & _ & _ & Hload).
  cbn zeta in Hload.
  destruct ((Load fs seed (Watch.manager s)).2);
    destruct Hload as [_ ->]; [|cbn [Notify configFilePath]]; apply Load_path.
Qed.

Lemma owed_by_path (cm cm' : ConfigManager) (consumers : list Chan)
    (events : list (Z * FileSystem * nat)) :
  configFilePath cm' = configFilePath cm ->
  owed cm' consumers <$> events = owed cm consumers <$> events.
Proof.
  intros Hpath. apply list_fmap_ext. intros _ [[now fs] seed] _.
  unfold owed. cbn [fst snd]. by rewrite (Load_error_by_path _ _ cm cm').
Qed.

(** The loop reloads on the honoured events, and on no other. *)
Lemma loop_honoured (inputs : list Watch.input) (s : Watch.State) :
  let events := honouredEvents Write (Watch.lastReload s) inputs in
  let s' := Watch.loop Write inputs s in
  Watch.loadedAt s' = (Watch.loadedAt s ++ events.*1.*1)%list /\
  Watch.signals s'
    = (Watch.signals s
       ++ concat (owed (Watch.manager s) (Watch.reloadConsumers s) <$> events))%list.
Proof.
  revert s. induction inputs as [|[op now fs seed| |] inputs IH]; intros s;
    cbn [Watch.loop honouredEvents fmap list_fmap concat];
    try by rewrite !app_nil_r.
  destruct (onEvent_cases s op now fs seed) as [[[Hop Hlate] Hrun]|[Hno Hrun]];
    rewrite Hrun.
  - assert ((Z.land op Write =? Write)
            && (Watch.lastReload s + 500 * 1000000 <? now) = true) as ->.
    { apply andb_true_intro. split; [by apply Z.eqb_eq|].
      apply Z.ltb_lt. exact Hlate. }
    destruct (reload_fields s now fs seed) as (Hnow & Hat & Hcons & Hload).
    destruct (IH (Watch.reload s now fs seed)) as [Hats Hsignals].
    cbn zeta in *. rewrite Hnow in Hats, Hsignals.
    rewrite Hats, Hsignals, Hat, Hcons.
    rewrite (owed_by_path (Watch.manager s) _ _ _ (reload_path s now fs seed)).
    cbn [fmap list_fmap concat fst snd]. rewrite <- !app_assoc.
    split; [done|]. unfold owed at 2. cbn [fst snd].
    destruct ((Load fs seed (Watch.manager s)).2);
      destruct Hload as [-> _]; by rewrite <- ?app_assoc.
  - assert ((Z.land op Write =? Write)
            && (Watch.lastReload s + 500 * 1000000 <? now) = false) as ->.
    { apply not_true_is_false. intros [Hop Hlate]%andb_true_iff.
      apply Hno. split; [by apply Z.eqb_eq | by apply Z.ltb_lt]. }
    apply IH.
Qed.

(** X9. The watcher reloads on exactly the writes that come more than
    500 ms after the reload before (the first: after the set-up of the
    watcher), up to the closing of the event channel or the stop signal:
    the readings of the clock at which [WatchConfigFileChanges] calls
    [Load] are those of these events, so each is more than 500 ms after
    the one before, there is at most one per event, and [lastReload] is
    the last of them.  The signals sent are, reload by reload, one to
    each subscriber in the order of subscription where the file loads,
    and none where it does not. *)
Theorem watcher_spaces_reloads (start : Z) (inputs : list Watch.input)
    (cm : ConfigManager) (consumers : list Chan) :
  let s := Watch.WatchConfigFileChanges Write start inputs cm consumers in
  let events := honouredEvents Write start inputs in
  Watch.loadedAt s = events.*1.*1 /\
  apart (500 * 1000000) (start :: Watch.loadedAt s) /\
  Watch.lastReload s = default start (last (Watch.loadedAt s)) /\
  (length (Watch.loadedAt s) <= length inputs)%nat /\
  Watch.signals s = concat (owed cm consumers <$> events).
Proof.
  intros s events. subst s events. unfold Watch.WatchConfigFileChanges.
  match goal with
  | |- context [Watch.loop _ _ ?s0] =>
      destruct (loop_watched start inputs s0) as [(Happart & Hlast) Hlen];
        [by split|];
      destruct (loop_honoured inputs s0) as [Hat Hsignals]
  end.
  cbn zeta in *. cbn [Watch.loadedAt Watch.signals Watch.lastReload
                      Watch.manager Watch.reloadConsumers app] in *.
  done.
Qed.

(** X10. An event is honoured exactly when it has the write bit and comes
    more than 500 ms after the last reload; any other event changes
    nothing.  An honoured event reloads: a successful load signals every
    subscriber once, in order, and tells the user; a failed one signals
    nobody, yet the manager is the one the failed load has left.  Either
    way the half second starts again, so that an event up to 500 ms
    later is ignored, also one that follows a failed reload and would
    find a good file. *)
Theorem reload_starts_quiet_period (s : Watch.State) (op now : Z)
    (fs : FileSystem) (seed : nat) :
  let s' := Watch.onEvent Write s op now fs seed in
  (~ honoured Write s op now -> s' = s) /\
  (honoured Write s op now ->
     Watch.loadedAt s' = (Watch.loadedAt s ++ [now])%list /\
     match (Load fs seed (Watch.manager s)).2 with
     | None =>
         Watch.signals s'
           = (Watch.signals s ++ Watch.reloadConsumers s)%list /\
         Watch.manager s'
           = Notify (Load fs seed (Watch.manager s)).1
               "Configuration reloaded!" "Your changes have been applied."
     | Some _ =>
         Watch.signals s' = Watch.signals s /\
         Watch.manager s' = (Load fs seed (Watch.manager s)).1
     end /\
     forall op' now' fs' seed',
       now' <= now + 500 * 1000000 ->
       Watch.onEvent Write s' op' now' fs' seed' = s').
Proof.
  intros s'. subst s'.
  destruct (onEvent_cases s op now fs seed) as [[Hyes ->]|[Hno ->]];
    (split; [done|]); [|done]. intros _.
  destruct (reload_fields s now fs seed) as (Hnow & Hat & _ & Hload).
  cbn zeta in *. split; [done|]. split; [done|].
  intros op' now' fs' seed' Hsoon.
  destruct (onEvent_cases (Watch.reload s now fs seed) op' now' fs' seed')
    as [[[_ Hlate] _]|[_ ->]]; [|done].
  rewrite Hnow in Hlate. unfold Watch.minTimeBetweenReloads, Watch.Millisecond in Hlate. lia.
Qed.

End WatcherFacts.

Lemma reload_starts_quiet_period_witness :
  let s := {| Watch.manager := threeSliders; Watch.reloadConsumers := [0; 1]%nat;
              Watch.lastReload := 0; Watch.signals := [];
              Watch.loadedAt := [] |} in
  let s' := Watch.onEvent 2 s 2 600000000 (onDisk (Opened brokenFile)) 0 in
  Watch.loadedAt s' = [600000000] /\
  Watch.signals s' = [] /\
  Watch.onEvent 2 s' 2 1100000000 (onDisk (Opened scenarioFile)) 0 = s'.
Proof.
  intros s s'.
  destruct (reload_starts_quiet_period 2 s 2 600000000
              (onDisk (Opened brokenFile)) 0) as [_ Hyes].
  destruct Hyes as (Hat & Hload & Hquiet);
    [split; [reflexivity | vm_compute; reflexivity]|].
  split; [exact Hat|]. split; [exact (proj1 Hload)|].
  apply Hquiet. vm_compute. discriminate.
Defined.

(** ** The reader of the serial connection *)

Lemma append_cons (c : ascii) (s1 s2 : string) :
  String c s1 +:+ s2 = String c (s1 +:+ s2).
Proof. reflexivity. Qed.

Lemma append_nil_r (s : string) : s +:+ "" = s.
Proof.
  induction s as [|c s IH]; [done|]. by rewrite append_cons, IH.
Qed.

Lemma append_assoc (s1 s2 s3 : string) : (s1 +:+ s2) +:+ s3 = s1 +:+ (s2 +:+ s3).
Proof.
  induction s1 as [|c s1 IH]; [done|]. by rewrite !append_cons, IH.
Qed.

Lemma hasLF_append (s1 s2 : string) :
  hasLF (s1 +:+ s2) = hasLF s1 || hasLF s2.
Proof.
  induction s1 as [|c s1 IH]; [done|].
  rewrite append_cons. cbn [hasLF]. by rewrite IH, orb_assoc.
Qed.

Lemma readFrom_frames (pending stream : string) :
  hasLF pending = false ->
  Forall (fun line => exists body, line = terminated body /\ hasLF body = false)
    (Serial.readFrom pending stream) /\
  exists dropped,
    pending +:+ stream = joined (Serial.readFrom pending stream) +:+ dropped /\
    hasLF dropped = false.
Proof.
  revert pending. induction stream as [|c stream IH]; intros pending Hpending.
  - cbn [Serial.readFrom]. split; [constructor|]. exists pending.
    split; [apply append_nil_r | done].
  - cbn [Serial.readFrom].
    destruct (Ascii.eqb_spec c LF) as [->|Hc]; cbn [Serial.readFrom].
    + destruct (IH "" eq_refl) as (Hlines & dropped & Hsplit & Hdropped).
      split; [constructor; [by exists pending | done]|].
      exists dropped. split; [|done]. cbn [joined foldr].
      fold (joined (Serial.readFrom "" stream)).
      rewrite !append_assoc, append_cons. f_equal. f_equal. exact Hsplit.
    + destruct (IH (pending +:+ String c "")) as (Hlines & dropped & Hsplit & Hdropped).
      { rewrite hasLF_append, Hpending. cbn.
        by apply Ascii.eqb_neq in Hc as ->. }
      split; [done|]. exists dropped. split; [|done].
      rewrite <- Hsplit. by rewrite append_assoc.
Qed.

Lemma readFrom_partial (pending partial : string) :
  hasLF partial = false -> Serial.readFrom pending partial = [].
Proof.
  revert pending. induction partial as [|c partial IH]; intros pending; [done|].
  cbn [hasLF Serial.readFrom]. intros [-> Hpartial]%orb_false_elim.
  by apply IH.
Qed.

Lemma readFrom_line (pending body rest : string) :
  hasLF body = false ->
  Serial.readFrom pending (terminated body +:+ rest)
    = terminated (pending +:+ body) :: Serial.readFrom "" rest.
Proof.
  revert pending. induction body as [|c body IH]; intros pending.
  - intros _. unfold terminated. by rewrite append_nil_r.
  - cbn [hasLF]. intros [Hc Hbody]%orb_false_elim.
    unfold terminated in *. rewrite !append_cons. cbn [Serial.readFrom].
    rewrite Hc, IH by done.
    by rewrite (append_assoc pending (String c "") body).
Qed.

(** X11. [readLine] frames the stream at the line feeds: every line it
    hands over ends with a line feed and has no other one, the lines
    handed over are, one after the other, the stream up to its last line
    feed, and the bytes dropped after it hold no line feed. *)
Theorem read_line_frames (stream : string) :
  Forall (fun line => exists body, line = terminated body /\ hasLF body = false)
    (Serial.readLine stream) /\
  exists dropped,
    stream = joined (Serial.readLine stream) +:+ dropped /\
    hasLF dropped = false.
Proof. apply (readFrom_frames "" stream eq_refl). Qed.

(** X12. Reading is the inverse of printing line by line: for bodies
    without a line feed, each printed with a line feed after it, and a
    last partial line without one, [readLine] hands over exactly the
    printed lines, in order, and drops the partial line. *)
Theorem read_line_round_trip (bodies : list string) (partial : string) :
  Forall (fun body => hasLF body = false) bodies ->
  hasLF partial = false ->
  Serial.readLine (joined (terminated <$> bodies) +:+ partial)
    = terminated <$> bodies.
Proof.
  intros Hbodies Hpartial. unfold Serial.readLine.
  induction Hbodies as [|body bodies Hbody _ IH]; cbn [fmap list_fmap joined foldr].
  - by apply readFrom_partial.
  - fold (joined (list_fmap _ _ terminated bodies)).
    rewrite append_assoc, readFrom_line by done. cbn [String.append].
    f_equal. apply IH.
Qed.

Lemma read_line_round_trip_witness :
  Serial.readLine "r
r
d
l" = [tokenLine "r"; tokenLine "r"; tokenLine "d"].
Proof.
  apply (read_line_round_trip ["r"; "r"; "d"] "l"); [|reflexivity].
  repeat constructor.
Defined.

(** ** The serial connection *)

(** X13. [Start] on a connected [SerialIO] is refused and changes
    nothing.  On one that is not connected, with a loaded manager, it
    records the options it opens the port with (the port and the baud
    rate of the [Config], 8 data bits, 1 stop bit) whether the port opens
    or not, and is connected afterwards exactly when it returns no error,
    which is exactly when it holds a connection.  So after any [Start]
    the test of the reload handler finds the settings of the same
    [Config] unchanged, also after a [Start] that failed, and does not
    try again; and a [close] after a [Start] that succeeded does not
    panic and leaves the [SerialIO] ready for another [Start]. *)
Theorem start_records_options (Linux : bool)
    (Open : Serial.OpenOptions -> Serial.Port + string)
    (cm : ConfigManager) (sio : Serial.Conn) :
  (Serial.connected sio = true ->
     Serial.Start Linux Open cm sio = Ok (sio, Some Serial.ErrAlreadyActive)) /\
  (Serial.connected sio = false ->
   forall c, cmConfig cm = Some c ->
   exists sio' err,
     Serial.Start Linux Open cm sio = Ok (sio', err) /\
     Serial.PortName (Serial.connOptions sio') = configuredPort c /\
     Serial.BaudRate (Serial.connOptions sio') = configuredBaudRate c /\
     Serial.DataBits (Serial.connOptions sio') = 8 /\
     Serial.StopBits (Serial.connOptions sio') = 1 /\
     (Serial.connected sio' = true <-> err = None) /\
     (Serial.connected sio' = true <-> is_Some (Serial.conn sio')) /\
     Serial.connectionParamsChanged cm sio' = Ok false /\
     (err = None ->
        exists closed,
          Serial.close sio' = Ok closed /\
          Serial.connected closed = false /\
          Serial.conn closed = None /\
          Serial.connOptions closed = Serial.connOptions sio')).
Proof.
  unfold Serial.Start. split; [by intros ->|]. intros -> c Hc. rewrite Hc.
  unfold Serial.connectionParamsChanged. rewrite Hc.
  destruct (Open _) as [port|cause]; eexists _, _; (split; [reflexivity|]);
    cbn [Serial.connOptions Serial.PortName Serial.BaudRate Serial.DataBits
         Serial.StopBits Serial.connected Serial.conn Serial.close];
    rewrite String.eqb_refl, Z.eqb_refl; repeat split;
    try done; try (by eexists); by intros [? ?].
Qed.

Lemma start_records_options_witness :
  let open := fun _ : Serial.OpenOptions => @inr Serial.Port string "busy" in
  exists sio',
    Serial.Start true open threeSliders Serial.NewSerialIO
      = Ok (sio', Some (Serial.ErrOpen "busy")) /\
    Serial.PortName (Serial.connOptions sio') = "COM4" /\
    Serial.connectionParamsChanged threeSliders sio' = Ok false.
Proof.
  intros open.
  destruct (start_records_options true open threeSliders Serial.NewSerialIO)
    as [_ Hstart].
  destruct (Hstart eq_refl _ eq_refl)
    as (sio' & err & Hrun & Hport & _ & _ & _ & _ & _ & Hsame & _).
  exists sio'. vm_compute in Hrun. injection Hrun as <- <-.
  split; [reflexivity|]. split; [exact Hport | exact Hsame].
Defined.

(** ** The session over any input *)

Lemma indexBound_le_1024 (c : Config) : indexBound c <= 1024.
Proof. unfold indexBound. lia. Qed.

(** The interpretation of a token: a new value for the five variables,
    nothing else. *)
Lemma token_interp (line : string) (w : World) (c : Config) :
  wellFormedLine line = true ->
  cmConfig (configManager w) = Some c ->
  0 <= currentSliderIndex w <= indexBound c ->
  (isButtonHeld w = true -> needToUpdate w = false) ->
  exists index name wanted held need,
    handleLine line w
      = deliver (withInterp w index name wanted held need) /\
    0 <= index <= indexBound c /\
    (held = true -> need = false) /\
    (line <> tokenLine "u" -> isButtonHeld w = true -> held = true).
Proof.
  intros Hwf Hc Hi Hheld.
  pose proof (indexBound_le_1024 c) as Hb.
  pose proof (mapLen_nonneg (SliderMappings c)) as Hlen.
  assert (indexBound c <= mapLen (SliderMappings c)) as Hb'
    by (unfold indexBound; lia).
  destruct (wellFormedLine_inv line Hwf) as [-> | [-> | [-> | ->]]].
  - rewrite handleLine_l. unfold bind.
    destruct (isButtonHeld w) eqn:Hh.
    + rewrite (rotateLeft_select w c Hc Hh) by lia. cbv zeta.
      eexists _, _, _, _, _. split; [reflexivity|].
      split; [lia|]. split; [by intros _; apply Hheld | done].
    + rewrite (rotateLeft_volume w c Hc Hh).
      eexists _, _, _, _, _. split; [reflexivity|]. by split.
  - rewrite handleLine_r. unfold bind.
    destruct (isButtonHeld w) eqn:Hh.
    + rewrite (rotateRight_select w c Hc Hh) by lia. cbv zeta.
      eexists _, _, _, _, _. split; [reflexivity|].
      split; [unfold indexBound; lia|].
      split; [by intros _; apply Hheld | done].
    + rewrite (rotateRight_volume w c Hc Hh).
      eexists _, _, _, _, _. split; [reflexivity|]. by split.
  - rewrite handleLine_u. unfold bind. rewrite buttonUp_eq.
    eexists _, _, _, _, _. split; [reflexivity|]. by split.
  - rewrite handleLine_d. unfold bind. rewrite buttonDown_eq.
    eexists _, _, _, _, _. split; [reflexivity|]. by split.
Qed.

Lemma insert_keeps {V} (m : gmap string V) (k : string) (v : V) :
  (forall key, is_Some (m !! key) -> is_Some (<[k := v]> m !! key)) /\
  (size m <= size (<[k := v]> m))%nat.
Proof.
  split.
  - intros key Hkey. apply lookup_insert_is_Some'. by right.
  - destruct (m !! k) eqn:Hk.
    + by rewrite map_size_insert_Some.
    + rewrite map_size_insert_None by done. lia.
Qed.

(** The delivery on a loaded manager with a slider map. *)
Lemma deliver_ready (w : World) (c : Config) (m : gmap string SliderMapping) :
  cmConfig (configManager w) = Some c ->
  SliderMappings c = Some m ->
  exists cm' tr c' m',
    deliver w = (Ok tt, withEffects w cm' tr) /\
    (needToUpdate w = false -> cm' = configManager w /\ tr = []) /\
    cmConfig cm' = Some c' /\
    SliderMappings c' = Some m' /\
    orderedSliderKeys cm' = orderedSliderKeys (configManager w) /\
    (forall key, is_Some (m !! key) -> is_Some (m' !! key)) /\
    (size m <= size m')%nat.
Proof.
  intros Hc Hm. destruct (emits w) eqn:He.
  - rewrite (deliver_emits w c m Hc Hm He).
    assert (needToUpdate w = true) as Hneed
      by (unfold emits in He; by apply andb_true_iff in He as [? _]).
    unfold afterWriteBacks. destruct (sliderMoveConsumers w) as [|ch l] eqn:Hl.
    + exists (configManager w), (deliveryTrace w), c, m.
      split; [done|]. split; [congruence|]. by repeat split.
    + eexists _, _, _, _. split; [reflexivity|]. split; [congruence|].
      split; [reflexivity|]. split; [reflexivity|]. split; [reflexivity|].
      apply insert_keeps.
  - exists (configManager w), [], c, m. rewrite withEffects_nil.
    split; [by apply (deliver_quiet w c)|]. by repeat split.
Qed.

(** One line, whatever it is. *)
Lemma handleLine_ready (line : string) (w : World) :
  sessionReady w ->
  exists w',
    handleLine line w = (Ok tt, w') /\
    sessionReady w' /\
    orderedSliderKeys (configManager w') = orderedSliderKeys (configManager w) /\
    sliderMoveConsumers w' = sliderMoveConsumers w /\
    (forall key, is_Some (stored (configManager w) key) ->
                 is_Some (stored (configManager w') key)) /\
    extends (trace w) (trace w') /\
    (isButtonHeld w = true -> line <> tokenLine "u" ->
       isButtonHeld w' = true /\
       configManager w' = configManager w /\ trace w' = trace w).
Proof.
  intros [(c & m & Hc & Hm & Hi) Hheld].
  destruct (wellFormedLine line) eqn:Hwf.
  2: { exists w. unfold handleLine. rewrite MatchString_expected, Hwf.
       split; [done|]. split; [split; [by exists c, m | done]|].
       repeat split; try done; try (exists []; by rewrite app_nil_r). }
  destruct (token_interp line w c Hwf Hc Hi Hheld)
    as (index & name & wanted & held & need & -> & Hindex & Hneed & Hstill).
  set (w1 := withInterp w index name wanted held need).
  destruct (deliver_ready w1 c m Hc Hm)
    as (cm' & tr & c' & m' & -> & Hidle & Hc' & Hm' & Hkeys & Hkept & Hsize).
  eexists. split; [reflexivity|]. subst w1. unfold sessionReady, stored.
  cbn [withEffects withInterp configManager sliderMoveConsumers
       currentSliderIndex isButtonHeld needToUpdate trace].
  split; [split; [exists c', m'; split; [done|]; split; [done|] | done]|].
  { unfold indexBound in *. rewrite Hm in Hindex. rewrite Hm'.
    cbn [mapLen] in *. lia. }
  split; [done|]. split; [done|]. split.
  { intros key. rewrite Hc, Hc', Hm, Hm'. apply Hkept. }
  split; [by exists tr|].
  intros Hh Hu. specialize (Hstill Hu Hh). subst held.
  destruct (Hidle (Hneed eq_refl)) as [-> ->].
  by rewrite app_nil_r.
Qed.

(** X14. On a loaded manager with a slider map, from a current index
    within the bound of the channel selection, the session handles any
    sequence of lines, well-formed or not, without a panic.  It ends in
    a state of the same kind: the manager is still loaded with a slider
    map, the index is between 0 and the bound (the slider count capped at
    1024), and no update is due while the button is held.  The ordered
    keys and the subscribers are as before, no stored slider has been
    removed, and the trace has only grown. *)
Theorem session_never_panics (lines : list string) (w : World) :
  sessionReady w ->
  exists w',
    handleLines lines w = (Ok tt, w') /\
    sessionReady w' /\
    orderedSliderKeys (configManager w') = orderedSliderKeys (configManager w) /\
    sliderMoveConsumers w' = sliderMoveConsumers w /\
    (forall key, is_Some (stored (configManager w) key) ->
                 is_Some (stored (configManager w') key)) /\
    extends (trace w) (trace w').
Proof.
  revert w. induction lines as [|line lines IH]; intros w Hw.
  - exists w. split; [done|]. split; [done|]. split; [done|].
    split; [done|]. split; [done|]. exists []. by rewrite app_nil_r.
  - destruct (handleLine_ready line w Hw)
      as (w1 & Hrun & Hw1 & Hkeys & Hcons & Hkept & [tr1 Htr1] & _).
    destruct (IH w1 Hw1)
      as (w' & Hrun' & Hw' & Hkeys' & Hcons' & Hkept' & [tr' Htr']).
    exists w'. cbn [handleLines]. unfold bind. rewrite Hrun.
    split; [done|]. split; [done|]. split; [congruence|].
    split; [congruence|]. split; [by intros key Hkey; apply Hkept', Hkept|].
    exists (tr1 ++ tr')%list. by rewrite Htr', Htr1, app_assoc.
Qed.

Lemma session_never_panics_witness :
  exists w',
    handleLines ["d
"; "garbage"; "r
"; "r
"; "r
"; "r
"; "u
"; "l
"]
      (startWorld threeSliders [0%nat]) = (Ok tt, w') /\
    0 <= currentSliderIndex w' <= 3.
Proof.
  destruct (session_never_panics
              ["d
"; "garbage"; "r
"; "r
"; "r
"; "r
"; "u
"; "l
"]
              (startWorld threeSliders [0%nat]))
    as (w' & Hrun & [(c & m & Hc & Hm & Hi) _] & Hkeys & _).
  { split; [|done]. eexists _, _. split; [reflexivity|].
    split; [reflexivity|]. vm_compute. split; discriminate. }
  exists w'. split; [exact Hrun|].
  pose proof (f_equal (fun r => currentSliderIndex r.2) Hrun) as Hindex.
  cbn [snd] in Hindex. rewrite <- Hindex. vm_compute. split; discriminate.
Defined.

(** X15. While the button is held the session is silent: from a state
    with the button held, lines of any kind except the release are
    handled without a panic, with nothing sent, nothing written back and
    the manager untouched, and the button is still held afterwards. *)
Theorem held_button_is_silent (lines : list string) (w : World) :
  sessionReady w ->
  isButtonHeld w = true ->
  Forall (fun line => line <> tokenLine "u") lines ->
  exists w',
    handleLines lines w = (Ok tt, w') /\
    isButtonHeld w' = true /\
    configManager w' = configManager w /\
    trace w' = trace w.
Proof.
  intros Hw Hheld Hlines. revert w Hw Hheld.
  induction Hlines as [|line lines Hline _ IH]; intros w Hw Hheld.
  - by exists w.
  - destruct (handleLine_ready line w Hw)
      as (w1 & Hrun & Hw1 & _ & _ & _ & _ & Hsilent).
    destruct (Hsilent Hheld Hline) as (Hheld1 & Hcm1 & Htr1).
    destruct (IH w1 Hw1 Hheld1) as (w' & Hrun' & Hheld' & Hcm' & Htr').
    exists w'. cbn [handleLines]. unfold bind. rewrite Hrun.
    split; [done|]. split; [done|]. split; congruence.
Qed.

Lemma held_button_is_silent_witness :
  let w := (handleLine (tokenLine "d") (onMaster [0%nat])).2 in
  exists w',
    handleLines [tokenLine "r"; tokenLine "l"; tokenLine "d"; tokenLine "r"] w
      = (Ok tt, w') /\
    trace w' = [] /\
    configManager w' = threeSliders.
Proof.
  intros w.
  destruct (held_button_is_silent
              [tokenLine "r"; tokenLine "l"; tokenLine "d"; tokenLine "r"] w)
    as (w' & Hrun & _ & Hcm & Htr).
  - split; [|done]. eexists _, _. split; [reflexivity|].
    split; [reflexivity|]. vm_compute. split; discriminate.
  - reflexivity.
  - repeat constructor; discriminate.
  - exists w'. split; [exact Hrun|]. split; [exact Htr | exact Hcm].
Defined.

(** ** A configuration without sliders *)

Lemma mappingAt_nil_map (cm : ConfigManager) (c : Config) (index : Z) :
  cmConfig cm = Some c ->
  SliderMappings c = None ->
  mappingAt cm index = zeroSliderMapping.
Proof.
  intros Hc Hm. unfold mappingAt, getSliderMappingByIndex.
  destruct (_ || _); [done|].
  destruct (_ !! _); [|done]. by rewrite Hc, Hm.
Qed.

Lemma forEach_nil_map_panics (ev : SliderMoveEvent) (ch : Chan)
    (l : list Chan) (w : World) (c : Config) :
  cmConfig (configManager w) = Some c ->
  SliderMappings c = None ->
  forEach (ch :: l) (deliverTo ev) w
    = (Panicked NilMapWrite, withEffects w (configManager w) [Sent ch ev]).
Proof.
  intros Hc Hm. cbn [forEach].
  unfold bind at 1. unfold deliverTo at 1. cbn [forEach].
  unfold bind at 1. unfold bind at 1. unfold send at 1.
  unfold bind at 1. unfold ask at 1. cbn [configManager record].
  destruct (getSliderMappingByKey_ok _ _ (SliderID ev) Hc) as [e ->].
  unfold update at 1. cbn [configManager record].
  unfold UpdateSliderMappingByKey. rewrite Hc, Hm. reflexivity.
Qed.

Lemma deliver_nil_map_panics (w : World) (c : Config) (ch : Chan)
    (rest : list Chan) :
  cmConfig (configManager w) = Some c ->
  SliderMappings c = None ->
  emits w = true ->
  sliderMoveConsumers w = ch :: rest ->
  deliver w
    = (Panicked NilMapWrite,
       withEffects w (configManager w) [Sent ch (moveEventOf w)]).
Proof.
  intros Hc Hm He Hsome. unfold deliver. step.
  destruct (getSliderMappingByIndex_ok _ _ (currentSliderIndex w) Hc) as [e ->].
  unfold emits in He. rewrite He. cbn [length Nat.ltb Nat.leb]. rewrite Hsome.
  exact (forEach_nil_map_panics (moveEventOf w) ch rest w c Hc Hm).
Qed.

Lemma deliver_no_consumers (w : World) (c : Config) :
  cmConfig (configManager w) = Some c ->
  sliderMoveConsumers w = [] ->
  deliver w = (Ok tt, w).
Proof.
  intros Hc Hnone. unfold deliver. step.
  destruct (getSliderMappingByIndex_ok _ _ (currentSliderIndex w) Hc) as [e ->].
  destruct (_ && _); cbn [length Nat.ltb Nat.leb]; [|done].
  by rewrite Hnone.
Qed.

(** X16. On a manager whose [Config] has no slider map (a file without
    [slider_mappings] loads that way), outside channel selection: a turn
    to the left is handled and sends nothing; a turn to the right is
    handled without a send when nobody subscribes, and otherwise sends
    one event with the value 0.01 to the first subscriber and then
    panics on the write into the nil map, the other subscribers never
    being served and the manager left as it was. *)
Theorem right_turn_without_slider_map (w : World) (c : Config) :
  cmConfig (configManager w) = Some c ->
  SliderMappings c = None ->
  isButtonHeld w = false ->
  (exists w',
     handleLine (rotation false) w = (Ok tt, w') /\
     configManager w' = configManager w /\ trace w' = trace w) /\
  (sliderMoveConsumers w = [] ->
   exists w',
     handleLine (rotation true) w = (Ok tt, w') /\
     configManager w' = configManager w /\ trace w' = trace w) /\
  (forall ch rest,
     sliderMoveConsumers w = ch :: rest ->
     exists w',
       handleLine (rotation true) w = (Panicked NilMapWrite, w') /\
       configManager w' = configManager w /\
       trace w' =
         (trace w ++ [Sent ch {| SliderID := currentSliderName w;
                                 PercentValue := F32.hundredth |}])%list).
Proof.
  intros Hc Hm Hheld.
  assert (mappingOf (configManager w) (currentSliderName w) = zeroSliderMapping)
    as Hzero by (unfold mappingOf, stored; by rewrite Hc, Hm).
  assert (raise F32.zero = F32.hundredth) as Hraise by (vm_compute; reflexivity).
  assert (lower F32.zero = F32.zero) as Hlower by (vm_compute; reflexivity).
  assert (F32.neqb F32.hundredth F32.zero = true) as Hne
    by (vm_compute; reflexivity).
  assert (F32.neqb F32.zero F32.zero = false) as Heq
    by (vm_compute; reflexivity).
  unfold rotation. rewrite handleLine_l, handleLine_r. unfold bind.
  rewrite (rotateLeft_volume w c Hc Hheld), (rotateRight_volume w c Hc Hheld).
  rewrite Hzero. cbn [Volume zeroSliderMapping]. rewrite Hraise, Hlower.
  split; [|split].
  - eexists. split; [apply (deliver_quiet _ c); [done|] | done].
    unfold emits. cbn [withInterp configManager needToUpdate wantedValue
                       currentSliderIndex andb].
    by rewrite (mappingAt_nil_map _ c _ Hc Hm).
  - intros Hnone. eexists. split.
    + by apply (deliver_no_consumers _ c).
    + done.
  - intros ch rest Hsome. eexists. split.
    + apply (deliver_nil_map_panics _ c ch rest); try done.
      unfold emits. cbn [withInterp configManager needToUpdate wantedValue
                         currentSliderIndex andb].
      by rewrite (mappingAt_nil_map _ c _ Hc Hm).
    + split; reflexivity.
Qed.

Lemma right_turn_without_slider_map_witness :
  let file := Yaml.Document (Yaml.Map [("invert_sliders", Yaml.Bool true)]) in
  let cm := (Load (onDisk (Opened file)) 0 (NewConfigManager "config.yaml")).1 in
  exists w',
    handleLine (rotation true) (startWorld cm [0; 1]%nat)
      = (Panicked NilMapWrite, w') /\
    trace w' = [Sent 0%nat {| SliderID := ""; PercentValue := F32.hundredth |}].
Proof.
  intros file cm.
  destruct (right_turn_without_slider_map (startWorld cm [0; 1]%nat)
              _ eq_refl eq_refl eq_refl) as (_ & _ & Hpanic).
  destruct (Hpanic 0%nat [1%nat] eq_refl) as (w' & Hrun & _ & Htrace).
  exists w'. split; [exact Hrun | exact Htrace].
Defined.

(** ** The encoder interrupt of the firmware *)

Lemma wrap16_small (z : Z) : - 2 ^ 15 <= z < 2 ^ 15 -> Firmware.wrap16 z = z.
Proof. intros H. unfold Firmware.wrap16. rewrite Z.mod_small; lia. Qed.

Lemma interrupts_app (r1 r2 : list (bool * bool)) (e : Firmware.Encoder) :
  Firmware.interrupts (r1 ++ r2) e
  = Firmware.interrupts r2 (Firmware.interrupts r1 e).
Proof.
  revert e. induction r1 as [|[pinA pinB] r1 IH]; intros e; [done|].
  cbn [app Firmware.interrupts]. apply IH.
Qed.

(** One detent from rest. *)
Lemma one_detent (right : bool) (e : Firmware.Encoder) :
  Firmware.lastState e = 0 ->
  Firmware.interrupts (if right then clockwise else counterclockwise) e
  = {| Firmware.encoderPosition :=
         Firmware.wrap16 (stepped right (Firmware.encoderPosition e) 1);
       Firmware.lastState := 0;
       Firmware.direction := right;
       Firmware.newDirectionAvailable := true |}.
Proof.
  intros Hrest. destruct e as [position last dir flag]. cbn in Hrest.
  subst last. by destruct right.
Qed.

(** One nudge from rest. *)
Lemma one_nudge (right : bool) (e : Firmware.Encoder) :
  Firmware.lastState e = 0 ->
  Firmware.interrupts (nudges right 1) e
  = {| Firmware.encoderPosition :=
         Firmware.wrap16 (stepped (negb right) (Firmware.encoderPosition e) 1);
       Firmware.lastState := 0;
       Firmware.direction := negb right;
       Firmware.newDirectionAvailable := true |}.
Proof.
  intros Hrest. destruct e as [position last dir flag]. cbn in Hrest.
  subst last. by destruct right.
Qed.

(** X17. From rest, the interrupts of [n] detents turned one way leave
    the encoder at rest with the position [n] further that way (as long
    as a 16-bit [int] holds it); after at least one detent the direction
    is the one turned and a report is pending. *)
Theorem detents_are_counted (right : bool) (n : nat) (e : Firmware.Encoder) :
  Firmware.lastState e = 0 ->
  - 2 ^ 15 <= Firmware.encoderPosition e - Z.of_nat n ->
  Firmware.encoderPosition e + Z.of_nat n < 2 ^ 15 ->
  let e' := Firmware.interrupts (detents right n) e in
  Firmware.encoderPosition e' = stepped right (Firmware.encoderPosition e) n /\
  Firmware.lastState e' = 0 /\
  ((0 < n)%nat ->
     Firmware.direction e' = right /\
     Firmware.newDirectionAvailable e' = true).
Proof.
  revert e. induction n as [|n IH]; intros e Hrest Hlow Hhigh.
  - cbn. unfold stepped. split; [destruct right; lia|]. split; [done | lia].
  - unfold detents. replace (S n) with (n + 1)%nat by lia.
    rewrite replicate_add, concat_app, interrupts_app.
    fold (detents right n). cbn [replicate concat]. rewrite app_nil_r.
    destruct (IH e Hrest) as (Hposition & Hrest' & _); [lia | lia|].
    cbv zeta in *. rewrite (one_detent right _ Hrest'), Hposition.
    cbn [Firmware.encoderPosition Firmware.lastState Firmware.direction
         Firmware.newDirectionAvailable].
    split; [|done]. rewrite wrap16_small; unfold stepped; destruct right; lia.
Qed.

Lemma detents_are_counted_witness :
  Firmware.encoderPosition
    (Firmware.interrupts (detents false 3) Firmware.initial) = -3 /\
  Firmware.direction
    (Firmware.interrupts (detents false 3) Firmware.initial) = false.
Proof.
  destruct (detents_are_counted false 3 Firmware.initial)
    as (Hposition & _ & Hreport); [reflexivity | vm_compute; discriminate
                                  | reflexivity |].
  split; [exact Hposition | apply Hreport; lia].
Defined.

(** X18. The interrupt takes every return to rest for a completed
    detent: a knob that leaves rest by a quarter of a detent one way and
    falls back, [n] times, is counted as [n] full steps the other way,
    with that direction and a report pending. *)
Theorem nudges_are_counted_as_steps (right : bool) (n : nat)
    (e : Firmware.Encoder) :
  Firmware.lastState e = 0 ->
  - 2 ^ 15 <= Firmware.encoderPosition e - Z.of_nat n ->
  Firmware.encoderPosition e + Z.of_nat n < 2 ^ 15 ->
  let e' := Firmware.interrupts (nudges right n) e in
  Firmware.encoderPosition e'
    = stepped (negb right) (Firmware.encoderPosition e) n /\
  Firmware.lastState e' = 0 /\
  ((0 < n)%nat ->
     Firmware.direction e' = negb right /\
     Firmware.newDirectionAvailable e' = true).
Proof.
  revert e. induction n as [|n IH]; intros e Hrest Hlow Hhigh.
  - cbn. unfold stepped. split; [destruct right; cbn; lia|]. split; [done | lia].
  - unfold nudges. replace (S n) with (n + 1)%nat by lia.
    rewrite replicate_add, concat_app, interrupts_app.
    fold (nudges right n). fold (nudges right 1).
    destruct (IH e Hrest) as (Hposition & Hrest' & _); [lia | lia|].
    cbv zeta in *. rewrite (one_nudge right _ Hrest'), Hposition.
    cbn [Firmware.encoderPosition Firmware.lastState Firmware.direction
         Firmware.newDirectionAvailable].
    split; [|done].
    rewrite wrap16_small; unfold stepped; destruct right; cbn [negb]; lia.
Qed.

Lemma nudges_are_counted_as_steps_witness :
  Firmware.encoderPosition
    (Firmware.interrupts [(true, false); (false, false)] Firmware.initial) = -1 /\
  Firmware.newDirectionAvailable
    (Firmware.interrupts [(true, false); (false, false)] Firmware.initial) = true.
Proof.
  destruct (nudges_are_counted_as_steps true 1 Firmware.initial)
    as (Hposition & _ & Hreport); [reflexivity | vm_compute; discriminate
                                  | reflexivity |].
  split; [exact Hposition | apply Hreport; lia].
Defined.
